(** * Salians: a shallow embedding of [salians.py] and its verified properties

    The program is a single Python module: value classes decoded from the
    JSON payloads of a remote API ([PlayerInfo], [PlanetSummary], [Zone],
    [PlanetDetails], [PlanetZoneTuple]), seven remote operations, a zone
    selector and the control loop [Salians.run].

    Modelling conventions.
    - Python values that come out of [response.json()] are kept dynamically
      typed ([pyval]): the decoders of the source store most fields without
      any coercion, so the type errors of the source stay visible.
    - Python [float] is IEEE 754 binary64; it is modelled by Rocq's primitive
      [float], which is the same format with the same round-to-nearest-even
      operations.  Python [int] is [Z].
    - The source compares integers with [is]; the model follows CPython,
      where the integers from -5 to 256 are shared objects and two larger
      integers built separately are never the same object.
    - Exceptions are an explicit error type; code that raises returns
      [Raise e].
    - The HTTP client, the clock and the logger are the environment: every
      request, sleep and log record is appended to a trace, and the reply to
      the n-th request is given by an arbitrary oracle.  The endless loop of
      [run] is cut after a given number of passes. *)

From Stdlib Require Import ZArith List String Ascii Bool Lia Floats.
From Stdlib Require Import Permutation Sorted.
Import ListNotations.

Local Open Scope string_scope.
Local Open Scope Z_scope.

Set Implicit Arguments.
Set Warnings "-register-all".

(** ** Exceptions and results *)

(** The exception classes the module can raise.  [NoResponseError] is the
    module's own class (a [SaliansError]); the others are Python built-ins,
    and [RequestException] stands for any failure of the HTTP transport.
    All of them derive from [Exception]. *)
Inductive exn : Type :=
| NoResponseError
| KeyError
| TypeError
| ValueError
| IndexError
| OverflowError
| ZeroDivisionError
| RequestException.

Definition exn_eqb (a b : exn) : bool :=
  match a, b with
  | NoResponseError, NoResponseError
  | KeyError, KeyError
  | TypeError, TypeError
  | ValueError, ValueError
  | IndexError, IndexError
  | OverflowError, OverflowError
  | ZeroDivisionError, ZeroDivisionError
  | RequestException, RequestException => true
  | _, _ => false
  end.

Inductive result (A : Type) : Type :=
| Ok (a : A)
| Raise (e : exn).

Arguments Ok {A} a.
Arguments Raise {A} e.

Definition rbind {A B} (r : result A) (k : A -> result B) : result B :=
  match r with
  | Ok a => k a
  | Raise e => Raise e
  end.

Declare Scope result_scope.
Delimit Scope result_scope with result.
Notation "'try!' x <- c1 ; c2" := (rbind c1 (fun x => c2))
  (at level 100, x name, c1 at next level, right associativity) : result_scope.
Local Open Scope result_scope.

(** [rmap f l]: apply [f] to the elements in order, stopping at the first
    one that raises (a Python [for] loop that appends to a list). *)
Fixpoint rmap {A B} (f : A -> result B) (l : list A) : result (list B) :=
  match l with
  | [] => Ok []
  | a :: l' =>
      try! b <- f a;
      try! bs <- rmap f l';
      Ok (b :: bs)
  end.

(** ** Python values *)

Module Py.

(** A decoded JSON document: [None], [bool], [int], [float], [str], [list]
    and [dict] with string keys.  A dictionary is kept as the list of its
    items; the keys of a decoded object are pairwise distinct. *)
Inductive pyval : Type :=
| PyNone
| PyBool (b : bool)
| PyInt (z : Z)
| PyFloat (f : float)
| PyStr (s : string)
| PyList (l : list pyval)
| PyDict (d : list (string * pyval)).

(** The numbers [weight] returns: the [int] 0 or a [float]. *)
Inductive num : Type :=
| NInt (z : Z)
| NFloat (f : float).

Definition Z_of_bool (b : bool) : Z := if b then 1 else 0.

(** *** Floats and integers *)

(** The integer [z] as a spec float with mantissa [|z|] and exponent 0. *)
Definition SF_of_Z (z : Z) : spec_float :=
  match z with
  | Z0 => S754_zero false
  | Zpos p => S754_finite false p 0
  | Zneg p => S754_finite true p 0
  end.

(** [float(z)]: the nearest binary64 (ties to even); [OverflowError] when it
    is out of range ("int too large to convert to float"). *)
Definition float_of_Z (z : Z) : result float :=
  let f := SF2Prim (binary_normalize prec emax z 0 false) in
  if PrimFloat.is_infinity f then Raise OverflowError else Ok f.

(** The exact order between an integer and a float, as CPython's mixed
    comparison computes it.  [None] when the float is a NaN. *)
Definition Z_compare_float (z : Z) (f : float) : option comparison :=
  match Prim2SF f with
  | S754_nan => None
  | S754_infinity s => Some (if s then Gt else Lt)
  | S754_zero _ => Some (z ?= 0)
  | S754_finite s m e =>
      let v := if s then Zneg m else Zpos m in
      Some (if 0 <=? e then z ?= v * 2 ^ e else z * 2 ^ (- e) ?= v)
  end.

(** [int(f)] for a float: truncation towards zero. *)
Definition Z_of_float (f : float) : result Z :=
  match Prim2SF f with
  | S754_nan => Raise ValueError
  | S754_infinity _ => Raise OverflowError
  | S754_zero _ => Ok 0
  | S754_finite s m e =>
      let a := if 0 <=? e then Zpos m * 2 ^ e else Zpos m / 2 ^ (- e) in
      Ok (if s then - a else a)
  end.

(** [a / b] on two [int]s: the correctly rounded quotient. *)
Definition int_truediv (a b : Z) : result float :=
  if b =? 0 then Raise ZeroDivisionError
  else
    let q := SF2Prim (SFdiv prec emax (SF_of_Z a) (SF_of_Z b)) in
    if PrimFloat.is_infinity q then Raise OverflowError else Ok q.

(** *** Numbers as operands *)

(** The operand of an arithmetic operation or an ordering comparison, when
    the value is a number ([bool] is a subclass of [int]). *)
Definition as_num (v : pyval) : option num :=
  match v with
  | PyBool b => Some (NInt (Z_of_bool b))
  | PyInt z => Some (NInt z)
  | PyFloat f => Some (NFloat f)
  | _ => None
  end.

Definition num_to_float (n : num) : result float :=
  match n with
  | NInt z => float_of_Z z
  | NFloat f => Ok f
  end.

Definition num_compare (a b : num) : option comparison :=
  match a, b with
  | NInt x, NInt y => Some (x ?= y)
  | NInt x, NFloat g => Z_compare_float x g
  | NFloat f, NInt y => option_map CompOpp (Z_compare_float y f)
  | NFloat f, NFloat g => SFcompare (Prim2SF f) (Prim2SF g)
  end.

(** [a < b] and [a >= b] on numbers; a comparison with a NaN is false. *)
Definition num_lt (a b : num) : bool :=
  match num_compare a b with Some Lt => true | _ => false end.

Definition num_ge (a b : num) : bool :=
  match num_compare a b with Some (Gt | Eq) => true | _ => false end.

Definition num_eq (a b : num) : bool :=
  match num_compare a b with Some Eq => true | _ => false end.

(** [v >= c] for a float literal [c]. *)
Definition py_ge_float (v : pyval) (c : float) : result bool :=
  match as_num v with
  | Some n => Ok (num_ge n (NFloat c))
  | None => Raise TypeError
  end.

(** [c - v] for a float literal [c]. *)
Definition py_float_sub (c : float) (v : pyval) : result float :=
  match as_num v with
  | Some n => try! f <- num_to_float n; Ok (c - f)%float
  | None => Raise TypeError
  end.

(** [v * c] for a float literal [c]. *)
Definition py_mul_float (v : pyval) (c : float) : result float :=
  match as_num v with
  | Some n => try! f <- num_to_float n; Ok (f * c)%float
  | None => Raise TypeError
  end.

(** *** Truth value, identity, containers *)

(** [bool(v)], the test of an [if]. *)
Definition truthy (v : pyval) : bool :=
  match v with
  | PyNone => false
  | PyBool b => b
  | PyInt z => negb (z =? 0)
  | PyFloat f => negb (f =? 0)%float
  | PyStr s => negb (String.eqb s EmptyString)
  | PyList l => match l with [] => false | _ => true end
  | PyDict d => match d with [] => false | _ => true end
  end.

(** [v is k] for an integer literal [k] between -5 and 256: CPython keeps one
    object per such integer, so the test holds exactly for the [int] [k]
    (not for a [bool] or a [float] equal to it). *)
Definition is_small_int (v : pyval) (k : Z) : bool :=
  match v with
  | PyInt z => z =? k
  | _ => false
  end.

(** [a is b] for two [int] objects built separately by [int(...)]: they are
    the same object only when the value is one of the shared small
    integers. *)
Definition int_is (a b : Z) : bool :=
  (a =? b) && (-5 <=? a) && (a <=? 256).

Definition hashable (v : pyval) : bool :=
  match v with
  | PyList _ | PyDict _ => false
  | _ => true
  end.

(** [{k1: v1, ...}.get(key)] for a dictionary literal with [int] keys (or
    the [bool] keys [True] = 1 and [False] = 0): the entry whose key equals
    [key] as a number, [None] when there is none, [TypeError] when [key] is
    unhashable. *)
Definition int_keyed_get {V} (table : list (Z * V)) (key : pyval)
  : result (option V) :=
  if hashable key then
    match as_num key with
    | Some n =>
        Ok (option_map snd
              (find (fun kv => num_eq (NInt (fst kv)) n) table))
    | None => Ok None
    end
  else Raise TypeError.

Fixpoint assoc (k : string) (d : list (string * pyval)) : option pyval :=
  match d with
  | [] => None
  | (k', v) :: d' => if String.eqb k k' then Some v else assoc k d'
  end.

(** [v[k]] for a string [k]. *)
Definition getitem_str (v : pyval) (k : string) : result pyval :=
  match v with
  | PyDict d =>
      match assoc k d with
      | Some x => Ok x
      | None => Raise KeyError
      end
  | _ => Raise TypeError
  end.

(** [v[0]]. *)
Definition getitem_0 (v : pyval) : result pyval :=
  match v with
  | PyList l =>
      match l with
      | x :: _ => Ok x
      | [] => Raise IndexError
      end
  | PyStr s =>
      match s with
      | String c _ => Ok (PyStr (String c EmptyString))
      | EmptyString => Raise IndexError
      end
  | PyDict _ => Raise KeyError
  | _ => Raise TypeError
  end.

Fixpoint is_substring (needle hay : string) : bool :=
  String.prefix needle hay
  || match hay with
     | EmptyString => false
     | String _ hay' => is_substring needle hay'
     end.

(** [k in v] for a string [k]. *)
Definition contains_str (k : string) (v : pyval) : result bool :=
  match v with
  | PyDict d => Ok (match assoc k d with Some _ => true | None => false end)
  | PyList l =>
      Ok (existsb (fun x => match x with
                            | PyStr s => String.eqb s k
                            | _ => false
                            end) l)
  | PyStr s => Ok (is_substring k s)
  | _ => Raise TypeError
  end.

Fixpoint chars (s : string) : list pyval :=
  match s with
  | EmptyString => []
  | String c s' => PyStr (String c EmptyString) :: chars s'
  end.

(** The elements a [for] loop over [v] visits. *)
Definition iterate (v : pyval) : result (list pyval) :=
  match v with
  | PyList l => Ok l
  | PyDict d => Ok (map (fun kv => PyStr (fst kv)) d)
  | PyStr s => Ok (chars s)
  | _ => Raise TypeError
  end.

End Py.

(** ** Conversions to and from text *)

Module Text.
Import Py.

(** *** [int(s)] for a string

    [str] is modelled by [string]: the characters are the code points
    below 256.  [int] accepts optional white space around an optional sign
    and decimal digits, where single underscores may separate digits.
    White space is what CPython's conversion strips: tab, line feed,
    vertical tab, form feed, carriage return and space, and the two
    Latin-1 spaces U+0085 and U+00A0 (not the separators U+001C to
    U+001F, which [str.isspace] accepts).  A string with more than 4300
    digits is refused: the default of the limit on integer string
    conversion ([sys.int_info.default_max_str_digits]) of CPython 3.11 and
    of the security releases of 3.7 to 3.10. *)

Definition code (c : ascii) : Z := Z.of_nat (nat_of_ascii c).

Definition is_space (c : ascii) : bool :=
  let n := code c in
  ((9 <=? n) && (n <=? 13)) || (n =? 32) || (n =? 133) || (n =? 160).

Definition digit_of (c : ascii) : option Z :=
  let n := code c in
  if (48 <=? n) && (n <=? 57) then Some (n - 48) else None.

Fixpoint lstrip (s : string) : string :=
  match s with
  | String c s' => if is_space c then lstrip s' else s
  | EmptyString => EmptyString
  end.

Fixpoint all_space (s : string) : bool :=
  match s with
  | String c s' => is_space c && all_space s'
  | EmptyString => true
  end.

(** [after_digit] tells whether the previous character was a digit: only
    then may an underscore, trailing white space or the end follow. *)
Fixpoint parse_digits (acc : Z) (after_digit : bool) (s : string) : option Z :=
  match s with
  | EmptyString => if after_digit then Some acc else None
  | String c s' =>
      match digit_of c with
      | Some d => parse_digits (acc * 10 + d) true s'
      | None =>
          if after_digit then
            if Ascii.eqb c "_" then parse_digits acc false s'
            else if all_space s then Some acc else None
          else None
      end
  end.

Definition max_str_digits : Z := 4300.

(** The digits of a string; in a string that [int] accepts they all are
    digits of the number, leading zeros included. *)
Fixpoint count_digits (s : string) : Z :=
  match s with
  | EmptyString => 0
  | String c s' =>
      match digit_of c with
      | Some _ => 1 + count_digits s'
      | None => count_digits s'
      end
  end.

Definition int_of_string (s : string) : option Z :=
  if max_str_digits <? count_digits s then None
  else
    match lstrip s with
    | String "+" r => parse_digits 0 false r
    | String "-" r => option_map Z.opp (parse_digits 0 false r)
    | r => parse_digits 0 false r
    end.

(** [int(v)]. *)
Definition py_int (v : pyval) : result Z :=
  match v with
  | PyInt z => Ok z
  | PyBool b => Ok (Z_of_bool b)
  | PyFloat f => Z_of_float f
  | PyStr s =>
      match int_of_string s with
      | Some z => Ok z
      | None => Raise ValueError
      end
  | PyNone | PyList _ | PyDict _ => Raise TypeError
  end.

(** *** [format(x, '.Nf')] for a float

    The exact binary value is rounded to [N] decimals, ties to even. *)

Definition round_half_even (n d : Z) : Z :=
  let q := n / d in
  match 2 * (n mod d) ?= d with
  | Lt => q
  | Gt => q + 1
  | Eq => if Z.even q then q else q + 1
  end.

Fixpoint digits_rev (fuel : nat) (n : Z) : list ascii :=
  match fuel with
  | O => []
  | S fuel' =>
      ascii_of_nat (Z.to_nat (48 + n mod 10))
      :: (if n <? 10 then [] else digits_rev fuel' (n / 10))
  end.

Fixpoint pad_zeros (n : nat) (l : list ascii) : list ascii :=
  match n with
  | O => l
  | S n' =>
      match l with
      | [] => "0"%char :: pad_zeros n' []
      | c :: l' => c :: pad_zeros n' l'
      end
  end.

(** The decimal digits of [n >= 0], least significant first, at least
    [width] of them. *)
Definition decimal_rev (width : nat) (n : Z) : list ascii :=
  pad_zeros width (digits_rev (S (Z.to_nat (Z.log2 n))) n).

Definition fixed_digits (d : nat) (n : Z) : string :=
  let ds := decimal_rev (S d) n in
  let frac := rev (firstn d ds) in
  let int := rev (skipn d ds) in
  string_of_list_ascii
    (int ++ match d with O => [] | _ => "."%char :: frac end)%list.

Definition format_fixed (d : nat) (f : float) : string :=
  match Prim2SF f with
  | S754_nan => "nan"
  | S754_infinity s => if s then "-inf" else "inf"
  | S754_zero s => (if s then "-" else EmptyString) ++ fixed_digits d 0
  | S754_finite s m e =>
      let scaled := Zpos m * 10 ^ Z.of_nat d in
      let n := if 0 <=? e then scaled * 2 ^ e
               else round_half_even scaled (2 ^ (- e)) in
      (if s then "-" else EmptyString) ++ fixed_digits d n
  end.

(** [format(x, '.Nf')] for a number: an [int] is converted to [float]
    first. *)
Definition format_num (d : nat) (x : num) : result string :=
  try! f <- num_to_float x; Ok (format_fixed d f).

(** *** Formatted messages

    The result of a [str.format] call: literal text and [str(v)] of the
    interpolated values, which is kept symbolic ([str] of a decoded JSON
    value cannot raise). *)
Inductive piece : Type :=
| Lit (s : string)
| Str (v : pyval).

Definition text : Type := list piece.

End Text.

(** ** The value classes *)

Import Py Text.

Definition float_0_95 : float := Eval cbv in 0x1.e666666666666p-1%float.
Definition float_0_96 : float := Eval cbv in 0x1.eb851eb851eb8p-1%float.

Module PlayerInfo.

Record t : Type := Build
  { active_planet : Z;
    level : Z;
    score : Z;
    next_level_score : Z }.

(** [PlayerInfo.from_json]. *)
Definition from_json (json : pyval) : result t :=
  try! present <- contains_str "active_planet" json;
  try! active_planet <-
    (if present
     then try! v <- getitem_str json "active_planet"; py_int v
     else Ok (-1));
  try! level <- (try! v <- getitem_str json "level"; py_int v);
  try! score <- (try! v <- getitem_str json "score"; py_int v);
  try! next_level_score <-
    (try! v <- getitem_str json "next_level_score"; py_int v);
  Ok (Build active_planet level score next_level_score).

(** [PlayerInfo.completion]. *)
Definition completion (self : t) : result string :=
  try! ratio <- int_truediv (score self) (next_level_score self);
  Ok (format_fixed 2 (ratio * 100)%float ++ "%").

(** [PlayerInfo.__str__]. *)
Definition str (self : t) : result text :=
  try! c <- completion self;
  Ok [Lit "Level "; Str (PyInt (level self));
      Lit ", Score "; Str (PyInt (score self));
      Lit ", Next Level Score "; Str (PyInt (next_level_score self));
      Lit ", Completion "; Lit c].

End PlayerInfo.

Module PlanetSummary.

Record t : Type := Build
  { id : Z;
    name : pyval }.

Definition str (self : t) : text :=
  [Str (name self); Lit " (#"; Str (PyInt (id self)); Lit ")"].

(** [PlanetSummary.from_json]. *)
Definition from_json (json : pyval) : result t :=
  try! id <- (try! v <- getitem_str json "id"; py_int v);
  try! state <- getitem_str json "state";
  try! name <- getitem_str state "name";
  Ok (Build id name).

End PlanetSummary.

Module Zone.

(** The fields hold whatever the payload holds: [from_json] does not
    coerce them. *)
Record t : Type := Build
  { zone_position : pyval;
    type : pyval;
    difficulty : pyval;
    captured : pyval;
    capture_progress : pyval }.

(** [Zone.get_difficulty_string]: a string or [None]. *)
Definition get_difficulty_string (self : t) : result (option string) :=
  int_keyed_get [(1, "Low"); (2, "Medium"); (3, "High"); (4, "Boss")]
    (difficulty self).

(** [Zone.get_captured_string]: the keys are [True] and [False]. *)
Definition get_captured_string (self : t) : result (option string) :=
  int_keyed_get [(1, "Captured"); (0, "Uncaptured")] (captured self).

(** [Zone.get_capture_progress_string]. *)
Definition get_capture_progress_string (self : t) : result string :=
  if truthy (captured self) then Ok "100%"
  else
    try! percent <- py_mul_float (capture_progress self) 100;
    Ok (format_fixed 0 percent ++ "%").

(** [Zone.get_difficulty_score]: an [int] or [None]. *)
Definition get_difficulty_score (self : t) : result (option Z) :=
  int_keyed_get [(1, 120 * 5); (2, 120 * 10); (3, 120 * 20); (4, 120 * 40)]
    (difficulty self).

Definition opt_str (o : option string) : piece :=
  match o with
  | Some s => Lit s
  | None => Str PyNone
  end.

(** [Zone.__str__]: the four arguments are evaluated in both branches. *)
Definition str (self : t) : result text :=
  try! d <- get_difficulty_string self;
  try! c <- get_captured_string self;
  try! p <- get_capture_progress_string self;
  if truthy (captured self) then
    Ok [Lit "Zone #"; Str (zone_position self); Lit ", "; opt_str d;
        Lit ": "; opt_str c]
  else
    Ok [Lit "Zone #"; Str (zone_position self); Lit ", "; opt_str d;
        Lit ": "; opt_str c; Lit " ("; Lit p; Lit ")"].

(** [Zone.from_json]. *)
Definition from_json (json : pyval) : result t :=
  try! zone_position <- getitem_str json "zone_position";
  try! type <- getitem_str json "type";
  try! difficulty <- getitem_str json "difficulty";
  try! captured <- getitem_str json "captured";
  try! capture_progress <- getitem_str json "capture_progress";
  Ok (Build zone_position type difficulty captured capture_progress).

End Zone.

Module PlanetDetails.

Record t : Type := Build
  { id : Z;
    name : pyval;
    zones : list Zone.t }.

Definition str (self : t) : text :=
  [Str (name self); Lit " (#"; Str (PyInt (id self)); Lit ")"].

(** [PlanetDetails.from_json]. *)
Definition from_json (json : pyval) : result t :=
  try! zones_json <- getitem_str json "zones";
  try! items <- iterate zones_json;
  try! zones <- rmap Zone.from_json items;
  try! id <- (try! v <- getitem_str json "id"; py_int v);
  try! state <- getitem_str json "state";
  try! name <- getitem_str state "name";
  Ok (Build id name zones).

End PlanetDetails.

Module PlanetZoneTuple.

Record t : Type := Build
  { planet_details : PlanetDetails.t;
    zone : Zone.t }.

(** The multiplier table of [weight]. *)
Definition multipliers : list (Z * Z) := [(1, 2); (2, 4); (3, 8); (4, 100)].

(** [PlanetZoneTuple.weight]. *)
Definition weight (self : t) : result num :=
  let z := zone self in
  try! difficulty <- int_keyed_get multipliers (Zone.difficulty z);
  if truthy (Zone.captured z) then Ok (NInt 0)
  else
    try! high_done <-
      (if is_small_int (Zone.difficulty z) 3
       then py_ge_float (Zone.capture_progress z) float_0_95
       else Ok false);
    if high_done then Ok (NInt 0)
    else
      try! medium_done <-
        (if is_small_int (Zone.difficulty z) 2
         then py_ge_float (Zone.capture_progress z) float_0_96
         else Ok false);
      if medium_done then Ok (NInt 0)
      else
        match difficulty with
        | None => Raise TypeError
        | Some m =>
            try! rest <- py_float_sub 1 (Zone.capture_progress z);
            try! base <- float_of_Z (m * 8);
            Ok (NFloat (base + rest))
        end.

(** [PlanetZoneTuple.__str__]. *)
Definition str (self : t) : result text :=
  try! w <- weight self;
  try! z <- Zone.str (zone self);
  try! ws <- format_num 5 w;
  Ok (PlanetDetails.str (planet_details self)
      ++ [Lit ", "] ++ z ++ [Lit " weight="; Lit ws])%list.

End PlanetZoneTuple.

(** ** The environment: requests, sleeps and log records *)

Module Env.

Inductive http_method : Type := GET | POST.

(** What the HTTP client answers: the connection fails, or a response
    arrives whose body is a JSON document or is not. *)
Inductive http_reply : Type :=
| ConnectionFailed
| Response (body : option pyval).

Inductive level : Type := INFO | WARNING.

(** A log record: a formatted message, an object that the logging module
    formats itself, or a message with an exception as argument. *)
Inductive record : Type :=
| Message (t : text)
| Object (p : PlayerInfo.t)
| WithArg (t : text) (e : exn).

Inductive event : Type :=
| Request (m : http_method) (url : text) (data : option text)
| Sleep (seconds : Z)
| Log (l : level) (r : record).

(** The state of a run: the number of requests sent so far and the
    events so far, oldest first. *)
Record world : Type := World
  { sent : nat;
    trace : list event }.

Definition M (A : Type) : Type := world -> result A * world.

Definition ret {A} (a : A) : M A := fun w => (Ok a, w).

Definition raise {A} (e : exn) : M A := fun w => (Raise e, w).

Definition bind {A B} (c : M A) (k : A -> M B) : M B :=
  fun w =>
    match c w with
    | (Ok a, w') => k a w'
    | (Raise e, w') => (Raise e, w')
    end.

Definition lift {A} (r : result A) : M A := fun w => (r, w).

(** [try: body except NoResponseError: handler]. *)
Definition except_NoResponseError {A} (body : M A) (handler : M A) : M A :=
  fun w =>
    match body w with
    | (Raise NoResponseError, w') => handler w'
    | r => r
    end.

(** [try: body except Exception as e: handler e]. *)
Definition except_Exception {A} (body : M A) (handler : exn -> M A) : M A :=
  fun w =>
    match body w with
    | (Raise e, w') => handler e w'
    | r => r
    end.

Definition emit (e : event) : M unit :=
  fun w => (Ok tt, World (sent w) (trace w ++ [e])).

End Env.

Declare Scope env_scope.
Delimit Scope env_scope with env.
Notation "x <- c1 ;; c2" := (Env.bind c1 (fun x => c2))
  (at level 100, c1 at next level, right associativity) : env_scope.
Notation "c1 ;; c2" := (Env.bind c1 (fun _ => c2))
  (at level 100, right associativity) : env_scope.

(** ** The selection of the best zone *)

Module Selector.

(** [sorted(l, key=...)]: the keys are computed first, then the items are
    sorted by [<] on the keys, and items with equal keys keep their input
    order.  The model is a stable insertion sort; on keys that [<] orders
    totally (no NaN) every stable sort gives the same list.  With a NaN
    key [<] is no order, and the list CPython returns depends on the
    comparisons its merge sort happens to make: the model does not follow
    it there (it still returns a rearrangement of the input), and the
    properties that depend on the order assume keys that are not NaN. *)
Fixpoint insert {A} (x : num * A) (l : list (num * A)) : list (num * A) :=
  match l with
  | [] => [x]
  | y :: l' =>
      if num_lt (fst y) (fst x) then y :: insert x l' else x :: l
  end.

Definition sort {A} (l : list (num * A)) : list (num * A) :=
  fold_right insert [] l.

Definition sorted {A} (key : A -> result num) (l : list A)
  : result (list A) :=
  try! keys <- rmap key l;
  Ok (map snd (sort (combine keys l))).

(** [l[-1]]. *)
Definition last_item {A} (l : list A) : result A :=
  match rev l with
  | x :: _ => Ok x
  | [] => Raise IndexError
  end.

(** The last line of [_find_best_zone_position]:
    [sorted(zones, key=methodcaller('weight'))[-1]]. *)
Definition select_best (zones : list PlanetZoneTuple.t)
  : result PlanetZoneTuple.t :=
  try! ordered <- sorted PlanetZoneTuple.weight zones;
  last_item ordered.

End Selector.

(** ** The bot *)

Module Salians.
Import Env.
Local Open Scope env_scope.

Record t : Type := Build
  { access_token : string;
    language : string }.


Definition base_url : string :=
  "https://community.steam-api.com/ITerritoryControlMinigameService".

Section Bot.

Variable self : t.

(** The reply to the n-th request of the run.  Every request carries
    the same fixed [headers], which are left out of the events. *)
Variable oracle : nat -> http_reply.

Definition log_info (r : record) : M unit := emit (Log INFO r).

Definition log_warning (r : record) : M unit := emit (Log WARNING r).

(** [requests.get] and [requests.post]. *)
Definition http (m : http_method) (url : text) (data : option text)
  : M http_reply :=
  fun w =>
    let w' := World (S (sent w)) (trace w ++ [Request m url data]) in
    match oracle (sent w) with
    | ConnectionFailed => (Raise RequestException, w')
    | r => (Ok r, w')
    end.

(** [response.json()]. *)
Definition json_body (r : http_reply) : M pyval :=
  match r with
  | Response (Some v) => ret v
  | _ => raise ValueError
  end.

(** The longest length, in seconds, whose count of nanoseconds fits the
    64 bits of CPython's timestamps. *)
Definition max_sleep : Z := 9223372036.

(** [time.sleep(seconds)] for an [int]: the length is converted to
    nanoseconds ([OverflowError] beyond 64 bits), and a negative length is
    refused ([ValueError]).  What the operating system makes of a deadline
    beyond the range of its clock (a length within the uptime of
    [max_sleep]) is not modelled. *)
Definition time_sleep (seconds : Z) : M unit :=
  if (seconds <? - max_sleep) || (max_sleep <? seconds)
  then raise OverflowError
  else if seconds <? 0 then raise ValueError
  else emit (Sleep seconds).

(** [Salians._sleep]. *)
Fixpoint sleep_from (i : Z) (duration : Z) (times : Z) (n : nat)
  : M unit :=
  match n with
  | O => ret tt
  | S n' =>
      log_info (Message [Lit "Sleeping... ";
                         Str (PyInt ((i + 1) * duration)); Lit "/";
                         Str (PyInt (duration * times))]) ;;
      time_sleep duration ;;
      sleep_from (i + 1) duration times n'
  end.

Definition _sleep (duration : Z) (times : Z) : M unit :=
  sleep_from 0 duration times (Z.to_nat times).

(** [Salians._get_planet_summaries]. *)
Definition _get_planet_summaries (active_only : Z)
  : M (list PlanetSummary.t) :=
  let url := [Lit base_url; Lit "/GetPlanets/v0001/?active_only=";
              Str (PyInt active_only); Lit "&language=";
              Lit (language self)] in
  r <- http GET url None ;;
  json <- json_body r ;;
  response <- lift (getitem_str json "response") ;;
  if truthy response then
    planets <- lift (getitem_str response "planets") ;;
    items <- lift (iterate planets) ;;
    lift (rmap PlanetSummary.from_json items)
  else raise NoResponseError.

(** [Salians._get_planet_details]. *)
Definition _get_planet_details (planet_id : Z) : M PlanetDetails.t :=
  let url := [Lit base_url; Lit "/GetPlanet/v0001/?id=";
              Str (PyInt planet_id); Lit "&language=";
              Lit (language self)] in
  r <- http GET url None ;;
  json <- json_body r ;;
  response <- lift (getitem_str json "response") ;;
  if truthy response then
    planets <- lift (getitem_str response "planets") ;;
    first <- lift (getitem_0 planets) ;;
    lift (PlanetDetails.from_json first)
  else raise NoResponseError.

(** [Salians._get_player_info]. *)
Definition _get_player_info : M PlayerInfo.t :=
  let url := [Lit base_url; Lit "/GetPlayerInfo/v0001/"] in
  let data := [Lit "access_token="; Lit (access_token self)] in
  r <- http POST url (Some data) ;;
  json <- json_body r ;;
  response <- lift (getitem_str json "response") ;;
  if truthy response then lift (PlayerInfo.from_json response)
  else raise NoResponseError.

(** [Salians._leave_planet]. *)
Definition _leave_planet (planet_id : Z) : M unit :=
  let url := [Lit base_url; Lit "/LeaveGame/v0001/"] in
  let data := [Lit "access_token="; Lit (access_token self);
               Lit "&gameid="; Str (PyInt planet_id)] in
  _ <- http POST url (Some data) ;;
  ret tt.

(** [Salians._join_planet]. *)
Definition _join_planet (planet_id : Z) : M unit :=
  let url := [Lit base_url; Lit "/JoinPlanet/v0001/"] in
  let data := [Lit "id="; Str (PyInt planet_id);
               Lit "&access_token="; Lit (access_token self)] in
  _ <- http POST url (Some data) ;;
  ret tt.

(** [Salians._join_zone]. *)
Definition _join_zone (zone_position : pyval) : M pyval :=
  let url := [Lit base_url; Lit "/JoinZone/v0001/"] in
  let data := [Lit "zone_position="; Str zone_position;
               Lit "&access_token="; Lit (access_token self)] in
  r <- http POST url (Some data) ;;
  json <- json_body r ;;
  ret json.

(** [Salians._report_score]; [score] is an [int] or [None]. *)
Definition _report_score (score : option Z) : M bool :=
  let url := [Lit base_url; Lit "/ReportScore/v0001/"] in
  let data := [Lit "access_token="; Lit (access_token self);
               Lit "&score=";
               Str (match score with Some s => PyInt s | None => PyNone end);
               Lit "&language="; Lit (language self)] in
  r <- http POST url (Some data) ;;
  json <- json_body r ;;
  response <- lift (getitem_str json "response") ;;
  if truthy response then ret true else raise NoResponseError.

(** [get_zones], the local function of [_find_best_zone_position]. *)
Fixpoint get_zones_from (planet_summaries : list PlanetSummary.t)
    (zones : list PlanetZoneTuple.t) : M (list PlanetZoneTuple.t) :=
  match planet_summaries with
  | [] => ret zones
  | planet_summary :: rest =>
      planet_details <-
        _get_planet_details (PlanetSummary.id planet_summary) ;;
      get_zones_from rest
        (zones ++ map (PlanetZoneTuple.Build planet_details)
                      (PlanetDetails.zones planet_details))
  end.

Definition get_zones : M (list PlanetZoneTuple.t) :=
  planet_summaries <- _get_planet_summaries 1 ;;
  get_zones_from planet_summaries [].

(** [Salians._find_best_zone_position]. *)
Definition _find_best_zone_position : M PlanetZoneTuple.t :=
  zones <- get_zones ;;
  lift (Selector.select_best zones).

(** The loop [while retries < 6] of [run], entered with
    [retries = 6 - remaining]. *)
Fixpoint report_loop (remaining : nat) (planet_zone : PlanetZoneTuple.t)
  : M unit :=
  match remaining with
  | O => ret tt
  | S remaining' =>
      reported <-
        except_NoResponseError
          (log_info (Message [Lit "Reporting..."]) ;;
           score <- lift (Zone.get_difficulty_score
                            (PlanetZoneTuple.zone planet_zone)) ;;
           _ <- _report_score score ;;
           log_info (Message [Lit "Reported!"]) ;;
           ret true)
          (log_info (Message [Lit "Failed"]) ;;
           ret false) ;;
      if reported : bool then ret tt
      else
        _sleep 10 1 ;;
        report_loop remaining' planet_zone
  end.

(** The end of a cycle (the report loop and the final leave). *)
Definition report_and_leave (player_info : PlayerInfo.t)
    (planet_zone : PlanetZoneTuple.t) : M unit :=
  report_loop 6 planet_zone ;;
  log_info (Message [Lit "Leaving Planet..."]) ;;
  _leave_planet (PlayerInfo.active_planet player_info).

(** The body of the [try] of [run]: one game cycle. *)
Definition cycle : M unit :=
  player_info <- _get_player_info ;;
  log_info (Object player_info) ;;
  let active_planet := PlayerInfo.active_planet player_info in
  planet_zone <- _find_best_zone_position ;;
  let target := PlanetZoneTuple.planet_details planet_zone in
  (if negb (int_is active_planet (PlanetDetails.id target)) then
     (if negb (int_is active_planet (-1)) then
        log_info (Message [Lit "Leaving Planet..."]) ;;
        _leave_planet (PlayerInfo.active_planet player_info)
      else ret tt) ;;
     log_info (Message (Lit "Joining Planet... "
                        :: PlanetDetails.str target)) ;;
     _join_planet (PlanetDetails.id target)
   else ret tt) ;;
  except_NoResponseError
    (shown <- lift (PlanetZoneTuple.str planet_zone) ;;
     log_info (Message (Lit "Joining Zone... " :: shown)) ;;
     _ <- _join_zone (Zone.zone_position
                        (PlanetZoneTuple.zone planet_zone)) ;;
     log_info (Message [Lit "Joined!"]))
    (log_info (Message [Lit "Failed"])) ;;
  _sleep 20 6 ;;
  report_and_leave player_info planet_zone.

(** The [except Exception as e] clause of [run]. *)
Definition recover (e : exn) : M unit :=
  log_warning (WithArg [Lit "An unknown error occurred"] e) ;;
  _sleep 60 1 ;;
  except_Exception
    (player_info <- _get_player_info ;;
     _leave_planet (PlayerInfo.active_planet player_info))
    (fun ee => log_warning (WithArg [Lit "An unknown error occurred"] ee)).

(** One pass through the body of [while True]. *)
Definition iteration : M unit := except_Exception cycle recover.



End Bot.

End Salians.

(** ** Definitions used to state the properties *)

Module Spec.

(** The difficulty multiplier of the specification:
    Low 2, Medium 4, High 8, Boss 100. *)
Definition multiplier (difficulty : Z) : Z :=
  if difficulty =? 1 then 2
  else if difficulty =? 2 then 4
  else if difficulty =? 3 then 8
  else 100.

(** A small integer as a float (exact below [2^53]). *)
Definition float_of_small (z : Z) : float :=
  PrimFloat.of_uint63 (Uint63.of_Z z).

(** The weight function as the specification words it, for a zone with
    an integer difficulty, a boolean captured flag and a float progress. *)
Definition weight (difficulty : Z) (captured : bool) (progress : float)
  : num :=
  if captured then NInt 0
  else if (difficulty =? 3) && (float_0_95 <=? progress)%float then NInt 0
  else if (difficulty =? 2) && (float_0_96 <=? progress)%float then NInt 0
  else NFloat (float_of_small (multiplier difficulty * 8)
               + (1 - progress))%float.

(** The errors that the specification calls [DecodeError]: what a field
    access or a coercion of a decoder raises. *)
Definition is_DecodeError (e : exn) : bool :=
  match e with
  | KeyError | TypeError | ValueError | OverflowError => true
  | _ => false
  end.

(** [int(json[field])], the way [PlayerInfo.from_json] reads a field. *)
Definition int_field (json : pyval) (field : string) : result Z :=
  try! v <- getitem_str json field; py_int v.

Definition num_is_nan (n : num) : bool :=
  match n with
  | NInt _ => false
  | NFloat f => PrimFloat.is_nan f
  end.

(** A zone whose fields have the types of the data model. *)
Definition typed_zone (zone_position type : pyval) (difficulty : Z)
    (captured : bool) (progress : float) : Zone.t :=
  Zone.Build zone_position type (PyInt difficulty) (PyBool captured)
    (PyFloat progress).

Definition in_unit_interval (x : float) : Prop :=
  (0 <=? x)%float = true /\ (x <=? 1)%float = true.

(** *** Events of the control loop *)

Import Env.

Section Events.

Variable self : Salians.t.

(** The request of [_leave_planet]. *)
Definition leave_request (planet_id : Z) : event :=
  Request POST [Lit Salians.base_url; Lit "/LeaveGame/v0001/"]
    (Some [Lit "access_token="; Lit (Salians.access_token self);
           Lit "&gameid="; Str (PyInt planet_id)]).


(** The request of [_report_score]. *)
Definition report_request (score : option Z) : event :=
  Request POST [Lit Salians.base_url; Lit "/ReportScore/v0001/"]
    (Some [Lit "access_token="; Lit (Salians.access_token self);
           Lit "&score=";
           Str (match score with Some s => PyInt s | None => PyNone end);
           Lit "&language="; Lit (Salians.language self)]).

Definition info (s : string) : event := Log INFO (Message [Lit s]).

(** One [_sleep(seconds, 1)]. *)
Definition pause (seconds : Z) : list event :=
  [Log INFO (Message [Lit "Sleeping... "; Str (PyInt seconds); Lit "/";
                      Str (PyInt seconds)]);
   Sleep seconds].

(** A report attempt that gets no response, with the wait after it. *)
Definition failed_attempt (score : option Z) : list event :=
  ([info "Reporting..."; report_request score; info "Failed"]
   ++ pause 10)%list.

Definition successful_attempt (score : option Z) : list event :=
  [info "Reporting..."; report_request score; info "Reported!"].

(** The events of the report loop when the first [failures] attempts
    get no response and the next one, if there is one, succeeds. *)
Definition report_events (score : option Z) (failures : nat)
  : list event :=
  (List.concat (repeat (failed_attempt score) failures)
   ++ (if (failures <? 6)%nat then successful_attempt score else []))%list.



End Events.

(** What a reply means for [_report_score]: [Some true] when the payload
    has a response, [Some false] when the response is empty
    ([NoResponseError]), [None] when the call fails otherwise. *)
Definition report_outcome (r : http_reply) : option bool :=
  match r with
  | Response (Some json) =>
      match getitem_str json "response" with
      | Ok response => Some (truthy response)
      | Raise _ => None
      end
  | _ => None
  end.

End Spec.

(** *** Support for the float proofs *)

Module FloatFacts.

(** The magnitude of [m * 2^e]: the [g] with [2^(g-1) <= m * 2^e < 2^g]. *)
Definition mag (m : positive) (e : Z) : Z := Z.log2 (Zpos m) + 1 + e.

(** Zero, or positive and below [2^k]. *)
Definition small_nonneg (k : Z) (x : spec_float) : Prop :=
  match x with
  | S754_zero _ => True
  | S754_finite false m e => mag m e <= k
  | _ => False
  end.

Definition SF_one : spec_float := Eval vm_compute in Prim2SF 1.
Definition SF_800 : spec_float := Eval vm_compute in Prim2SF 800.
Definition SF_64 : spec_float := Eval vm_compute in Prim2SF 64.
Definition SF_32 : spec_float := Eval vm_compute in Prim2SF 32.
Definition SF_16 : spec_float := Eval vm_compute in Prim2SF 16.

(** A rank that orders the spec floats other than NaN as [SFcompare]
    does: lexicographically on (class and sign, exponent, mantissa). *)
Definition rank (x : spec_float) : Z * (Z * Z) :=
  match x with
  | S754_infinity true => (-2, (0, 0))
  | S754_finite true m e => (-1, (- e, Zneg m))
  | S754_zero _ | S754_nan => (0, (0, 0))
  | S754_finite false m e => (1, (e, Zpos m))
  | S754_infinity false => (2, (0, 0))
  end.

Definition lex_lt (a b : Z * (Z * Z)) : Prop :=
  fst a < fst b
  \/ (fst a = fst b
      /\ (fst (snd a) < fst (snd b)
          \/ (fst (snd a) = fst (snd b) /\ snd (snd a) < snd (snd b)))).

(** The spec float that orders a weight: the [int] 0 is ordered as the
    float zero. *)
Definition key (n : num) : spec_float :=
  match n with
  | NInt _ => S754_zero false
  | NFloat f => Prim2SF f
  end.

(** The values [weight] can return, NaN apart. *)
Definition weight_value (n : num) : Prop :=
  match n with
  | NInt z => z = 0
  | NFloat f => PrimFloat.is_nan f = false
  end.

End FloatFacts.

(** ** Concrete payloads and runs *)

Module Examples.
Import Env.

Definition self : Salians.t := Salians.Build "token" "english".

Definition envelope (response : pyval) : pyval :=
  PyDict [("response", response)].

Definition empty_envelope : pyval := envelope (PyDict []).

Definition player_info_json (active_planet : option string) : pyval :=
  PyDict ((match active_planet with
           | Some p => [("active_planet", PyStr p)]
           | None => []
           end)
          ++ [("level", PyInt 5); ("score", PyStr "4500");
              ("next_level_score", PyStr "6000")])%list.

Definition zone_json (position difficulty : Z) (captured : bool)
    (progress : float) : pyval :=
  PyDict [("zone_position", PyInt position); ("type", PyInt 3);
          ("difficulty", PyInt difficulty); ("captured", PyBool captured);
          ("capture_progress", PyFloat progress)].

Definition planet_json (id name : string) (zones : list pyval) : pyval :=
  PyDict [("id", PyStr id); ("state", PyDict [("name", PyStr name)]);
          ("zones", PyList zones)].

Definition planets (l : list pyval) : pyval :=
  envelope (PyDict [("planets", PyList l)]).

Definition mars : pyval :=
  planet_json "2" "Mars" [zone_json 7 4 false 0.125; zone_json 8 1 false 0.5].

(** The replies to the first requests, in order; the connection fails
    afterwards. *)
Definition scripted (replies : list http_reply) (n : nat) : http_reply :=
  nth n replies ConnectionFailed.

(** A cycle of a player on planet 1 while the best zone is on planet 2:
    player info, planet list, planet details, leave, join planet, join
    zone, a report that gets no response, a report that succeeds, leave. *)
Definition relocating_cycle : list http_reply :=
  [Response (Some (envelope (player_info_json (Some "1"))));
   Response (Some (planets [planet_json "2" "Mars" []]));
   Response (Some (planets [mars]));
   Response None;
   Response None;
   Response (Some (envelope (PyDict [("zone_info", PyDict [])])));
   Response (Some empty_envelope);
   Response (Some (envelope (PyDict [("new_score", PyStr "5700")])));
   Response None].

(** The same for a player who is on no planet. *)
Definition first_cycle : list http_reply :=
  [Response (Some (envelope (player_info_json None)));
   Response (Some (planets [planet_json "2" "Mars" []]));
   Response (Some (planets [mars]));
   Response None;
   Response (Some (envelope (PyDict [("zone_info", PyDict [])])));
   Response (Some (envelope (PyDict [("new_score", PyStr "5700")])));
   Response None].

Definition start : world := World 0 [].

Definition earth : PlanetDetails.t :=
  PlanetDetails.Build 1 (PyStr "Earth") [].

Definition pairing (difficulty : Z) (captured : bool) (progress : float)
    (position : Z) : PlanetZoneTuple.t :=
  PlanetZoneTuple.Build earth
    (Spec.typed_zone (PyInt position) (PyInt 3) difficulty captured progress).

(** Two Boss zones with the same weight after a Low zone. *)
Definition tied : list PlanetZoneTuple.t :=
  [pairing 4 false 0.5 1; pairing 1 false 0.5 2; pairing 4 false 0.5 3;
   pairing 3 true 0.5 4].

Definition boss_pairing : PlanetZoneTuple.t := pairing 4 false 0.125 7.

Definition some_player : PlayerInfo.t := PlayerInfo.Build 1 5 4500 6000.

(** The planet listing and the details of its one planet. *)
Definition mars_listing : list http_reply :=
  [Response (Some (planets [planet_json "2" "Mars" []]));
   Response (Some (planets [mars]))].

Definition mars_zones : list Zone.t :=
  [Spec.typed_zone (PyInt 7) (PyInt 3) 4 false 0.125;
   Spec.typed_zone (PyInt 8) (PyInt 3) 1 false 0.5].

Definition mars_details : PlanetDetails.t :=
  PlanetDetails.Build 2 (PyStr "Mars") mars_zones.

(** A player on no planet while no planet is listed. *)
Definition empty_listing : list http_reply :=
  [Response (Some (envelope (player_info_json None)));
   Response (Some (planets []))].

(** A player on planet 300 while the best zone is on planet 300. *)
Definition vega : pyval :=
  planet_json "300" "Vega" [zone_json 7 4 false 0.125].

Definition distant_cycle : list http_reply :=
  [Response (Some (envelope (player_info_json (Some "300"))));
   Response (Some (planets [planet_json "300" "Vega" []]));
   Response (Some (planets [vega]));
   Response None;
   Response None].

End Examples.

(** ** Definitions used to state further properties *)

Module Behaviour.
Import Env.


Definition is_request (e : event) : bool :=
  match e with
  | Request _ _ _ => true
  | _ => false
  end.

Definition requests (events : list event) : list event :=
  filter is_request events.

(** A computation that touches neither the network, the clock nor the
    log. *)
Definition silent {A} (c : M A) : Prop := forall w, snd (c w) = w.

(** A computation that sends one request and does nothing else that can
    be observed. *)
Definition sends_one_request {A} (op : M A) : Prop :=
  forall w, exists m url data,
    snd (op w) = World (S (sent w)) (trace w ++ [Request m url data]).

(** The pairings of the zones of a list of planets, planet by planet. *)
Definition pairings (details : list PlanetDetails.t)
  : list PlanetZoneTuple.t :=
  flat_map (fun d => map (PlanetZoneTuple.Build d) (PlanetDetails.zones d))
    details.

(** A pairing whose zone has the types and ranges of the data model. *)
Definition valid_pairing (t : PlanetZoneTuple.t) : Prop :=
  exists (pos ty : pyval) (d : Z) (c : bool) (p : float),
    PlanetZoneTuple.zone t = Spec.typed_zone pos ty d c p
    /\ 1 <= d <= 4
    /\ Spec.in_unit_interval p.

(** A pairing with a weight other than zero. *)
Definition playable (t : PlanetZoneTuple.t) : Prop :=
  exists w, PlanetZoneTuple.weight t = Ok w /\ num_eq w (NInt 0) = false.

(** The difficulty of a pairing, when it is an [int]. *)
Definition tier (t : PlanetZoneTuple.t) : Z :=
  match Zone.difficulty (PlanetZoneTuple.zone t) with
  | PyInt d => d
  | _ => 0
  end.

Section Events.

Variable self : Salians.t.
Variable oracle : nat -> http_reply.

(** The request of [_join_planet]. *)
Definition join_planet_request (planet_id : Z) : event :=
  Request POST [Lit Salians.base_url; Lit "/JoinPlanet/v0001/"]
    (Some [Lit "id="; Str (PyInt planet_id);
           Lit "&access_token="; Lit (Salians.access_token self)]).

(** The requests of [_get_planet_summaries] and [_get_planet_details]. *)
Definition planet_summaries_request (active_only : Z) : event :=
  Request GET
    [Lit Salians.base_url; Lit "/GetPlanets/v0001/?active_only=";
     Str (PyInt active_only); Lit "&language=";
     Lit (Salians.language self)]
    None.

Definition planet_details_request (planet_id : Z) : event :=
  Request GET
    [Lit Salians.base_url; Lit "/GetPlanet/v0001/?id=";
     Str (PyInt planet_id); Lit "&language=";
     Lit (Salians.language self)]
    None.

(** [details] are the results of [_get_planet_details] for the ids of
    [summaries], called one after the other in the order of the list, the
    first in world [w] and each next one where the one before ended; the
    last ends in [w']. *)
Fixpoint fetched (summaries : list PlanetSummary.t) (w : world)
    (details : list PlanetDetails.t) (w' : world) : Prop :=
  match summaries, details with
  | [], [] => w' = w
  | s :: summaries', d :: details' =>
      exists w1,
        Salians._get_planet_details self oracle (PlanetSummary.id s) w
        = (Ok d, w1)
        /\ fetched summaries' w1 details' w'
  | _, _ => False
  end.

(** What [run] does between the selection and the zone join (lines
    161-166), when no connection fails. *)
Definition relocation_events (active_planet : Z) (target : PlanetDetails.t)
  : list event :=
  if int_is active_planet (PlanetDetails.id target) then []
  else
    ((if int_is active_planet (-1) then []
      else [Spec.info "Leaving Planet...";
            Spec.leave_request self active_planet])
     ++ [Log INFO (Message (Lit "Joining Planet... "
                            :: PlanetDetails.str target));
         join_planet_request (PlanetDetails.id target)])%list.

(** The rest of a cycle after the relocation (lines 170-193). *)
Definition after_relocation (player_info : PlayerInfo.t)
    (planet_zone : PlanetZoneTuple.t) : M unit :=
  (except_NoResponseError
     (shown <- lift (PlanetZoneTuple.str planet_zone) ;;
      Salians.log_info (Message (Lit "Joining Zone... " :: shown)) ;;
      _ <- Salians._join_zone self oracle
             (Zone.zone_position (PlanetZoneTuple.zone planet_zone)) ;;
      Salians.log_info (Message [Lit "Joined!"]))
     (Salians.log_info (Message [Lit "Failed"])) ;;
   Salians._sleep 20 6 ;;
   Salians.report_and_leave self oracle player_info planet_zone)%env.

End Events.

End Behaviour.

(** *** More support for the float proofs *)

Module FloatValues.

(** Whether a shift has dropped a non-zero bit. *)
Definition lost (mrs : shr_record) : bool := shr_r mrs || shr_s mrs.

(** The value [m * 2^e] in units of [2^-1074], the least positive float. *)
Definition sv (m : positive) (e : Z) : Z := Zpos m * 2 ^ (e + 1074).

(** Zero, or positive and at most 1. *)
Definition at_most_one (x : spec_float) : Prop :=
  match x with
  | S754_zero _ => True
  | S754_finite false m e => -1074 <= e /\ sv m e <= 2 ^ 1074
  | _ => False
  end.

(** Positive, with a value between [C] and [C + 1]. *)
Definition between (C : Z) (x : spec_float) : Prop :=
  match x with
  | S754_finite false m e =>
      -1074 <= e /\ C * 2 ^ 1074 <= sv m e <= (C + 1) * 2 ^ 1074
  | _ => False
  end.

End FloatValues.

(** * Properties *)

Unset Implicit Arguments.
Local Open Scope list_scope.

(** ** Binary64 arithmetic: bounds on rounded sums and differences

    The operations of [float] are specified by [SFadd] and [SFsub] on
    [spec_float], which round the exact result with [binary_round].  In the
    normal range rounding keeps the magnitude or raises it by one; this is
    all the ranking of weights needs. *)

Module FloatBounds.
Import FloatFacts.

(** *** Digits, shifts and powers of two *)

Lemma digits2_pos_size (m : positive) : digits2_pos m = Pos.size m.
Proof. induction m; simpl; congruence. Qed.

Lemma digits2_log2 (m : positive) : Zpos (digits2_pos m) = Z.log2 (Zpos m) + 1.
Proof.
  rewrite digits2_pos_size. destruct m; simpl; try reflexivity.
  all: rewrite Pos2Z.inj_succ; reflexivity || lia.
Qed.

Lemma Zdigits2_log2 (z : Z) : 0 < z -> Zdigits2 z = Z.log2 z + 1.
Proof. destruct z; try lia. intros _. apply digits2_log2. Qed.

(** A right shift by one halves the mantissa. *)
Lemma shr_1_m (mrs : shr_record) :
  0 <= shr_m mrs -> shr_m (shr_1 mrs) = shr_m mrs / 2.
Proof.
  destruct mrs as [m r s]. simpl. intros H.
  destruct m as [|[p|p|]|p]; simpl; try lia; try reflexivity.
  - rewrite <- Z.div2_div. reflexivity.
  - rewrite <- Z.div2_div. reflexivity.
Qed.

Lemma pow2_xI (p : positive) : 2 ^ Zpos p~1 = 2 * (2 ^ Zpos p * 2 ^ Zpos p).
Proof.
  rewrite Pos2Z.inj_xI, <- Z.pow_add_r, <- Z.pow_succ_r by lia. f_equal. lia.
Qed.

Lemma pow2_xO (p : positive) : 2 ^ Zpos p~0 = 2 ^ Zpos p * 2 ^ Zpos p.
Proof.
  rewrite Pos2Z.inj_xO, <- Z.pow_add_r by lia. f_equal. lia.
Qed.

Lemma shr_iter_m (p : positive) : forall mrs,
  0 <= shr_m mrs ->
  shr_m (iter_pos shr_1 p mrs) = shr_m mrs / 2 ^ Zpos p.
Proof.
  induction p as [p IH|p IH|]; intros mrs H; simpl iter_pos.
  - assert (H1 : 0 <= shr_m (shr_1 mrs)).
    { rewrite shr_1_m by assumption. apply Z.div_pos; lia. }
    assert (H2 : 0 <= shr_m (iter_pos shr_1 p (shr_1 mrs))).
    { rewrite IH by assumption. apply Z.div_pos; lia. }
    rewrite IH, IH, shr_1_m by assumption.
    rewrite !Z.div_div by lia. rewrite pow2_xI. reflexivity.
  - assert (H2 : 0 <= shr_m (iter_pos shr_1 p mrs)).
    { rewrite IH by assumption. apply Z.div_pos; lia. }
    rewrite IH, IH by assumption.
    rewrite !Z.div_div by lia. rewrite pow2_xO. reflexivity.
  - rewrite shr_1_m by assumption. reflexivity.
Qed.

(** [shr] by [n] divides the mantissa by [2^n] and adds [n] to the
    exponent. *)
Lemma shr_spec (mrs : shr_record) (e n : Z) :
  0 <= shr_m mrs -> 0 <= n ->
  shr_m (fst (shr mrs e n)) = shr_m mrs / 2 ^ n /\ snd (shr mrs e n) = e + n.
Proof.
  intros Hm Hn. destruct n as [|p|p]; simpl; try lia.
  - rewrite Z.div_1_r. lia.
  - split; [apply shr_iter_m; assumption | reflexivity].
Qed.

(** Rounding keeps the truncated mantissa or adds one to it. *)
Lemma round_nearest_even_bounds (m : Z) (l : location) :
  m <= round_nearest_even m l <= m + 1.
Proof.
  destruct l as [|[]]; simpl; try lia. destruct (Z.even m); lia.
Qed.

Lemma fexp_eq (x : Z) : fexp prec emax x = Z.max (x - 53) (-1074).
Proof. reflexivity. Qed.

Lemma log2_div_pow2 (a n : Z) :
  0 < a -> 0 <= n <= Z.log2 a -> Z.log2 (a / 2 ^ n) = Z.log2 a - n.
Proof.
  intros Ha Hn. rewrite <- Z.shiftr_div_pow2 by lia.
  rewrite Z.log2_shiftr by lia. lia.
Qed.

Lemma div_pow2_pos (a n : Z) :
  0 < a -> 0 <= n <= Z.log2 a -> 0 < a / 2 ^ n.
Proof.
  intros Ha Hn. apply Z.div_str_pos. split; [apply Z.pow_pos_nonneg; lia|].
  transitivity (2 ^ Z.log2 a).
  - apply Z.pow_le_mono_r; lia.
  - apply Z.log2_spec; lia.
Qed.

Lemma log2_succ_range (a : Z) :
  0 < a -> Z.log2 a <= Z.log2 (a + 1) <= Z.log2 a + 1.
Proof.
  intros Ha. split.
  - apply Z.log2_le_mono. lia.
  - replace (a + 1) with (Z.succ a) by lia.
    pose proof (Z.log2_succ_le a). lia.
Qed.

(** *** Rounding in the normal range

    A positive mantissa with at least 53 digits whose magnitude is in the
    normal range rounds to a finite positive float of the same magnitude
    or of the next one. *)
Lemma binary_round_aux_normal (mz : positive) (ez : Z) (l : location) :
  let g := Z.log2 (Zpos mz) + 1 + ez in
  -1021 <= g -> g < 1024 -> ez <= g - 53 ->
  exists m' e',
    binary_round_aux prec emax false (Zpos mz) ez l = S754_finite false m' e'
    /\ g <= Z.log2 (Zpos m') + 1 + e' <= g + 1.
Proof.
  intros g Hlo Hhi Hez.
  unfold binary_round_aux, shr_fexp.
  rewrite Zdigits2_log2 by lia. fold g.
  rewrite fexp_eq. replace (Z.max (g - 53) (-1074)) with (g - 53) by lia.
  set (r0 := shr_record_of_loc (Zpos mz) l).
  assert (Hr0 : shr_m r0 = Zpos mz) by (destruct l as [|[]]; reflexivity).
  destruct (shr_spec r0 ez (g - 53 - ez)) as [Hm1 He1]; [lia|lia|].
  destruct (shr r0 ez (g - 53 - ez)) as [mrs1 e1]. simpl in Hm1, He1.
  rewrite Hr0 in Hm1.
  set (m1 := shr_m mrs1) in *.
  assert (Hn : 0 <= g - 53 - ez <= Z.log2 (Zpos mz)) by (unfold g; lia).
  assert (Hm1pos : 0 < m1) by (rewrite Hm1; apply div_pow2_pos; lia).
  assert (Hl1 : Z.log2 m1 = 52).
  { rewrite Hm1, log2_div_pow2 by lia. unfold g. lia. }
  pose proof (round_nearest_even_bounds m1 (loc_of_shr_record mrs1)) as Hr.
  set (m2 := round_nearest_even m1 (loc_of_shr_record mrs1)) in *.
  assert (Hl2 : 52 <= Z.log2 m2 <= 53).
  { pose proof (log2_succ_range m1 Hm1pos).
    pose proof (Z.log2_le_mono m1 m2). pose proof (Z.log2_le_mono m2 (m1 + 1)). lia. }
  rewrite Zdigits2_log2 by lia.
  rewrite fexp_eq.
  replace (Z.max (Z.log2 m2 + 1 + e1 - 53) (-1074)) with (Z.log2 m2 + 1 + e1 - 53) by lia.
  set (r2 := shr_record_of_loc m2 loc_Exact).
  destruct (shr_spec r2 e1 (Z.log2 m2 + 1 + e1 - 53 - e1)) as [Hm3 He3];
    [simpl; lia|lia|].
  destruct (shr r2 e1 (Z.log2 m2 + 1 + e1 - 53 - e1)) as [mrs3 e3].
  simpl in Hm3, He3.
  assert (Hm3pos : 0 < shr_m mrs3) by (rewrite Hm3; apply div_pow2_pos; lia).
  assert (Hl3 : Z.log2 (shr_m mrs3) = 52).
  { rewrite Hm3, log2_div_pow2 by lia. lia. }
  destruct (shr_m mrs3) as [|m3|m3]; try lia.
  replace (e3 <=? emax - prec) with true.
  - exists m3, e3. split; [reflexivity|]. lia.
  - symmetry. apply Z.leb_le. change (emax - prec) with 971. lia.
Qed.

(** A left shift by [d] multiplies the mantissa by [2^d]. *)
Lemma iter_xO (d m : positive) : Zpos (Pos.iter xO m d) = Zpos m * 2 ^ Zpos d.
Proof.
  induction d as [|d IH] using Pos.peano_ind.
  - simpl. lia.
  - rewrite Pos.iter_succ, Pos2Z.inj_xO, IH, Pos2Z.inj_succ, Z.pow_succ_r by lia.
    lia.
Qed.

Lemma shl_align_spec (m : positive) (e e' : Z) :
  e' <= e ->
  Zpos (fst (shl_align m e e')) = Zpos m * 2 ^ (e - e')
  /\ snd (shl_align m e e') = e'.
Proof.
  intros H. unfold shl_align.
  destruct (e' - e) as [|d|d] eqn:E; try lia.
  - replace (e - e') with 0 by lia. simpl. split; lia.
  - simpl. rewrite iter_xO. replace (e - e') with (Zpos d) by lia. split; reflexivity.
Qed.


Lemma binary_round_normal (m : positive) (e : Z) :
  -1021 <= mag m e -> mag m e < 1024 ->
  exists m' e',
    binary_round prec emax false m e = S754_finite false m' e'
    /\ mag m e <= mag m' e' <= mag m e + 1.
Proof.
  unfold mag. intros Hlo Hhi. unfold binary_round.
  rewrite digits2_log2, fexp_eq.
  set (g := Z.log2 (Zpos m) + 1 + e) in *.
  replace (Z.max (g - 53) (-1074)) with (g - 53) by lia.
  destruct (Z_le_gt_dec (g - 53) e) as [Hle|Hgt].
  - destruct (shl_align_spec m e (g - 53) Hle) as [Hm He].
    destruct (shl_align m e (g - 53)) as [mz ez]. cbn [fst snd] in Hm, He. subst ez.
    assert (Hlog : Z.log2 (Zpos mz) = Z.log2 (Zpos m) + (e - (g - 53))).
    { rewrite Hm, Z.log2_mul_pow2 by lia. lia. }
    destruct (binary_round_aux_normal mz (g - 53) loc_Exact) as (m' & e' & Hr & Hb);
      try (rewrite Hlog; unfold g; lia).
    exists m', e'. split; [exact Hr|]. rewrite Hlog in Hb. unfold g in *. lia.
  - assert (Hs : shl_align m e (g - 53) = (m, e)).
    { unfold shl_align. destruct (g - 53 - e) eqn:E; try lia; reflexivity. }
    rewrite Hs.
    destruct (binary_round_aux_normal m e loc_Exact) as (m' & e' & Hr & Hb); try (fold g; lia).
    exists m', e'. split; [exact Hr|]. fold g in Hb. exact Hb.
Qed.

(** Valid finite floats: the exponent is determined by the magnitude. *)
Lemma valid_finite (s : bool) (m : positive) (e : Z) :
  valid_binary (S754_finite s m e) = true ->
  e = Z.max (mag m e - 53) (-1074) /\ e <= 971.
Proof.
  unfold valid_binary, bounded, canonical_mantissa, mag. intros H.
  apply andb_true_iff in H. destruct H as [H1 H2].
  apply Z.eqb_eq in H1. apply Z.leb_le in H2.
  rewrite digits2_log2, fexp_eq in H1. change (emax - prec) with 971 in H2. lia.
Qed.



(** *** Comparison of positive finite floats *)

Lemma SFcompare_pos (m1 m2 : positive) (e1 e2 : Z) :
  SFcompare (S754_finite false m1 e1) (S754_finite false m2 e2)
  = Some match e1 ?= e2 with
         | Lt => Lt
         | Gt => Gt
         | Eq => (m1 ?= m2)%positive
         end.
Proof. reflexivity. Qed.

(** A positive float that is at most 1 has an exponent of at most -52 and
    a mantissa of at most [2^(-e)]. *)
Lemma leb_one_bound (m : positive) (e : Z) :
  Zpos m < 2 ^ 53 ->
  SFleb (S754_finite false m e) SF_one = true ->
  e <= -52 /\ Zpos m <= 2 ^ (- e).
Proof.
  intros Hm H. unfold SFleb, SF_one in H. rewrite SFcompare_pos in H.
  assert (Hc : Zpos 4503599627370496 = 2 ^ 52) by reflexivity.
  revert H Hc. generalize 4503599627370496%positive. intros c H Hc.
  destruct (e ?= -52) eqn:E.
  - apply Z.compare_eq in E. subst e. split; [lia|].
    replace (- -52) with 52 by lia. rewrite <- Hc.
    destruct (m ?= c)%positive eqn:E2; try discriminate.
    + apply Pos.compare_eq in E2. subst m. lia.
    + rewrite Pos.compare_lt_iff in E2. lia.
  - rewrite Z.compare_lt_iff in E. split; [lia|].
    transitivity (2 ^ 53); [lia|]. apply Z.pow_le_mono_r; lia.
  - discriminate.
Qed.

(** *** The difference [1 - p] and the sums [base + (1 - p)]

    For [0 <= p <= 1] the rounded difference [1 - p] is zero or positive
    and below 4. *)
Lemma one_minus_small (P : spec_float) :
  valid_binary P = true ->
  SFleb (S754_zero false) P = true ->
  SFleb P SF_one = true ->
  small_nonneg 2 (SF64sub SF_one P).
Proof.
  intros Hv H0 H1.
  destruct P as [s|s| |s m e]; try discriminate.
  - destruct s; discriminate.
  - destruct s; [discriminate|].
    apply valid_finite in Hv. destruct Hv as [He _]. unfold mag in He.
    assert (Hm : Zpos m < 2 ^ 53).
    { assert (Z.log2 (Zpos m) < 53) by lia.
      apply Z.log2_lt_pow2; lia. }
    destruct (leb_one_bound m e Hm H1) as [Hle Hmle].
    unfold SF64sub, SFsub, SF_one. cbv zeta.
    replace (Z.min (-52) e) with e by lia.
    destruct (shl_align_spec 4503599627370496 (-52) e Hle) as [Ha _].
    destruct (shl_align_spec m e e (Z.le_refl e)) as [Hb _].
    unfold cond_Zopp. rewrite Ha, Hb.
    replace (e - e) with 0 by lia.
    change (Zpos 4503599627370496) with (2 ^ 52).
    rewrite <- Z.pow_add_r by lia. replace (52 + (-52 - e)) with (- e) by lia.
    rewrite Z.pow_0_r, Z.mul_1_r.
    destruct (2 ^ (- e) - Zpos m) as [|d|d] eqn:D; try lia.
    + exact I.
    + cbv beta iota delta [binary_normalize].
      assert (Hup : Z.log2 (Zpos d) <= - e).
      { rewrite <- (Z.log2_pow2 (- e)) by lia. apply Z.log2_le_mono. lia. }
      assert (Hlow : -1021 <= mag d e).
      { unfold mag. destruct (Z_le_gt_dec (-1022) e) as [G|G].
        - pose proof (Z.log2_nonneg (Zpos d)). lia.
        - assert (2 ^ (- e - 1) <= Zpos d).
          { assert (2 ^ 53 <= 2 ^ (- e - 1)) by (apply Z.pow_le_mono_r; lia).
            assert (2 ^ (- e) = 2 * 2 ^ (- e - 1)).
            { rewrite <- Z.pow_succ_r by lia. f_equal. lia. }
            lia. }
          assert (- e - 1 <= Z.log2 (Zpos d)).
          { rewrite <- (Z.log2_pow2 (- e - 1)) by lia. apply Z.log2_le_mono. lia. }
          lia. }
      destruct (binary_round_normal d e) as (m' & e' & Hr & Hbd);
        [exact Hlow|unfold mag; lia|].
      rewrite Hr. cbv beta iota delta [small_nonneg]. unfold mag in *. lia.
Qed.

(** A valid positive float of smaller magnitude is smaller. *)
Lemma SFlt_by_mag (mx mb : positive) (ex eb : Z) :
  valid_binary (S754_finite false mx ex) = true ->
  valid_binary (S754_finite false mb eb) = true ->
  mag mx ex < mag mb eb -> -1021 < mag mb eb ->
  SFltb (S754_finite false mx ex) (S754_finite false mb eb) = true.
Proof.
  intros Hx Hb Hlt Hn.
  apply valid_finite in Hx. apply valid_finite in Hb.
  unfold SFltb. rewrite SFcompare_pos.
  assert (E : (ex ?= eb) = Lt) by (apply Z.compare_lt_iff; lia).
  rewrite E. reflexivity.
Qed.

(** Adding a small non-negative float to a constant [c] with
    [2^k <= c] and [c + 4 <= 2^(k+1)] gives a float of magnitude [k + 1] or
    [k + 2]. *)
Lemma add_const_mag (mc : positive) (ec k : Z) (A : spec_float) :
  valid_binary A = true -> small_nonneg 2 A ->
  -51 <= ec <= 2 -> 2 <= k < 1022 ->
  2 ^ (k - ec) <= Zpos mc -> Zpos mc + 2 ^ (2 - ec) <= 2 ^ (k + 1 - ec) ->
  exists m' e',
    SF64add (S754_finite false mc ec) A = S754_finite false m' e'
    /\ k + 1 <= mag m' e' <= k + 2.
Proof.
  intros Hv Hs Hec Hk Hlo Hhi.
  assert (P2 : 0 < 2 ^ (2 - ec)) by (apply Z.pow_pos_nonneg; lia).
  destruct A as [s|s| |s ma ea]; simpl in Hs; try contradiction.
  - exists mc, ec. split; [reflexivity|]. unfold mag.
    assert (Z.log2 (Zpos mc) = k - ec).
    { apply Z.log2_unique; [lia|]. split; [exact Hlo|].
      replace (Z.succ (k - ec)) with (k + 1 - ec) by lia. lia. }
    lia.
  - destruct s; [contradiction|].
    apply valid_finite in Hv. destruct Hv as [Hea _].
    assert (Hle : ea <= ec) by lia.
    unfold SF64add, SFadd. cbv zeta.
    replace (Z.min ec ea) with ea by lia.
    destruct (shl_align_spec mc ec ea Hle) as [Ha _].
    destruct (shl_align_spec ma ea ea (Z.le_refl ea)) as [Hb _].
    unfold cond_Zopp. rewrite Ha, Hb.
    replace (ea - ea) with 0 by lia. rewrite Z.pow_0_r, Z.mul_1_r.
    set (t := ec - ea) in *.
    assert (Pt : 0 < 2 ^ t) by (apply Z.pow_pos_nonneg; lia).
    assert (Hma : Zpos ma < 2 ^ (2 - ec) * 2 ^ t).
    { rewrite <- Z.pow_add_r by lia. unfold mag in Hs.
      assert (Z.log2 (Zpos ma) < 2 - ec + t) by lia.
      apply Z.log2_lt_pow2; lia. }
    assert (L1 : 2 ^ (k - ea) <= Zpos mc * 2 ^ t + Zpos ma).
    { replace (k - ea) with (k - ec + t) by lia. rewrite Z.pow_add_r by lia. nia. }
    assert (L2 : Zpos mc * 2 ^ t + Zpos ma < 2 ^ Z.succ (k - ea)).
    { replace (Z.succ (k - ea)) with (k + 1 - ec + t) by lia.
      rewrite Z.pow_add_r by lia. nia. }
    destruct (Zpos mc * 2 ^ t + Zpos ma) as [|d|d] eqn:D; try lia.
    cbv beta iota delta [binary_normalize].
    assert (Hlog : Z.log2 (Zpos d) = k - ea).
    { apply Z.log2_unique; [lia|]. split; assumption. }
    destruct (binary_round_normal d ea) as (m' & e' & Hr & Hbd);
      [unfold mag; lia|unfold mag; lia|].
    exists m', e'. split; [exact Hr|]. unfold mag in *. lia.
Qed.


Lemma one_minus_prim (p : float) :
  (0 <=? p)%float = true -> (p <=? 1)%float = true ->
  valid_binary (Prim2SF (1 - p)) = true /\ small_nonneg 2 (Prim2SF (1 - p)).
Proof.
  intros H0 H1. split; [apply Prim2SF_valid|].
  rewrite sub_spec. rewrite leb_spec in H0, H1.
  apply one_minus_small; [apply Prim2SF_valid|exact H0|exact H1].
Qed.

(** The weight of a Boss zone is above the weight of any other zone, in
    binary64 arithmetic. *)
Lemma boss_above (c p q : float) :
  c = 16%float \/ c = 32%float \/ c = 64%float ->
  (0 <=? p)%float = true -> (p <=? 1)%float = true ->
  (0 <=? q)%float = true -> (q <=? 1)%float = true ->
  (c + (1 - q) <? 800 + (1 - p))%float = true.
Proof.
  intros Hc Hp0 Hp1 Hq0 Hq1.
  destruct (one_minus_prim p Hp0 Hp1) as [Vp Sp].
  destruct (one_minus_prim q Hq0 Hq1) as [Vq Sq].
  rewrite ltb_spec.
  pose proof (Prim2SF_valid (c + (1 - q))) as VX.
  pose proof (Prim2SF_valid (800 + (1 - p))) as VB.
  rewrite add_spec in VX, VB |- *. rewrite add_spec.
  change (Prim2SF 800) with SF_800 in *.
  destruct (add_const_mag 7036874417766400 (-43) 9 (Prim2SF (1 - p)) Vp Sp)
    as (mb & eb & Eb & Hb); try lia; try (apply Z.leb_le; vm_compute; reflexivity).
  unfold SF_800 in *. rewrite Eb in *.
  assert (HX : exists mx ex, SF64add (Prim2SF c) (Prim2SF (1 - q))
                             = S754_finite false mx ex /\ mag mx ex <= 8).
  { destruct Hc as [Hc|[Hc|Hc]]; subst c.
    - change (Prim2SF 16) with SF_16.
      destruct (add_const_mag 4503599627370496 (-48) 4 (Prim2SF (1 - q)) Vq Sq)
        as (mx & ex & Ex & Hx); try lia; try (apply Z.leb_le; vm_compute; reflexivity).
      exists mx, ex. split; [exact Ex|lia].
    - change (Prim2SF 32) with SF_32.
      destruct (add_const_mag 4503599627370496 (-47) 5 (Prim2SF (1 - q)) Vq Sq)
        as (mx & ex & Ex & Hx); try lia; try (apply Z.leb_le; vm_compute; reflexivity).
      exists mx, ex. split; [exact Ex|lia].
    - change (Prim2SF 64) with SF_64.
      destruct (add_const_mag 4503599627370496 (-46) 6 (Prim2SF (1 - q)) Vq Sq)
        as (mx & ex & Ex & Hx); try lia; try (apply Z.leb_le; vm_compute; reflexivity).
      exists mx, ex. split; [exact Ex|lia]. }
  destruct HX as (mx & ex & Ex & Hx). rewrite Ex in *.
  apply SFlt_by_mag; try assumption; lia.
Qed.

End FloatBounds.

(** ** The order of weights *)

Module WeightOrder.
Import FloatFacts.

Lemma SFcompare_swap (x y : spec_float) :
  SFcompare y x = option_map CompOpp (SFcompare x y).
Proof.
  destruct x as [[]|[]| |[] mx ex], y as [[]|[]| |[] my ey];
    cbn [SFcompare option_map CompOpp]; try reflexivity.
  all: rewrite (Z.compare_antisym ey ex); destruct (ey ?= ex);
    cbn [CompOpp]; try reflexivity.
  all: change (Pos.compare_cont Eq mx my) with (Pos.compare mx my);
    change (Pos.compare_cont Eq my mx) with (Pos.compare my mx).
  all: rewrite (Pos.compare_antisym my mx); destruct (my ?= mx)%positive;
    reflexivity.
Qed.

Lemma SFltb_rank (x y : spec_float) :
  x <> S754_nan -> y <> S754_nan ->
  (SFltb x y = true <-> lex_lt (rank x) (rank y)).
Proof.
  intros Hx Hy. unfold SFltb, lex_lt.
  destruct x as [[]|[]| |[] mx ex], y as [[]|[]| |[] my ey];
    try congruence; cbn [SFcompare rank fst snd];
    try (split; [discriminate|lia]); try (split; [lia|reflexivity]).
  all: change (Pos.compare_cont Eq mx my) with (Pos.compare mx my).
  all: destruct (Z.compare_spec ex ey); [destruct (Pos.compare_spec mx my)| |];
    cbn [CompOpp]; split; intros H'; try reflexivity; try discriminate;
    try lia.
Qed.

Lemma not_nan_key (f : float) :
  PrimFloat.is_nan f = false -> Prim2SF f <> S754_nan.
Proof.
  unfold PrimFloat.is_nan. rewrite eqb_spec. intros H E. rewrite E in H.
  discriminate H.
Qed.

Lemma key_not_nan (n : num) : weight_value n -> key n <> S754_nan.
Proof.
  destruct n as [z|f]; cbn [weight_value key].
  - discriminate.
  - apply not_nan_key.
Qed.

Lemma Z0_compare_float (g : float) :
  Z_compare_float 0 g = SFcompare (S754_zero false) (Prim2SF g).
Proof.
  unfold Z_compare_float.
  destruct (Prim2SF g) as [s|s| |s m e]; cbn [SFcompare]; try reflexivity.
  f_equal.
  assert (P : forall k, 0 <= k -> 0 < 2 ^ k)
    by (intros; apply Z.pow_pos_nonneg; lia).
  destruct (Z.leb_spec 0 e) as [He|He]; destruct s.
  - apply Z.compare_gt_iff. specialize (P e He). nia.
  - apply Z.compare_lt_iff. specialize (P e He). nia.
  - reflexivity.
  - reflexivity.
Qed.

Lemma num_compare_key (a b : num) :
  weight_value a -> weight_value b ->
  num_compare a b = SFcompare (key a) (key b).
Proof.
  destruct a as [x|f], b as [y|g]; cbn [weight_value key num_compare];
    intros Ha Hb; subst.
  - reflexivity.
  - apply Z0_compare_float.
  - rewrite Z0_compare_float. symmetry. apply SFcompare_swap.
  - reflexivity.
Qed.

Lemma num_lt_iff (a b : num) :
  weight_value a -> weight_value b ->
  (num_lt a b = true <-> lex_lt (rank (key a)) (rank (key b))).
Proof.
  intros Ha Hb. unfold num_lt. rewrite num_compare_key by assumption.
  apply SFltb_rank; apply key_not_nan; assumption.
Qed.

Lemma num_lt_false_iff (a b : num) :
  weight_value a -> weight_value b ->
  (num_lt a b = false <-> ~ lex_lt (rank (key a)) (rank (key b))).
Proof.
  intros Ha Hb. rewrite <- (num_lt_iff a b Ha Hb).
  destruct (num_lt a b); split; congruence.
Qed.

Ltac by_rank :=
  repeat match goal with
    | H : num_lt ?a ?b = true |- _ => apply num_lt_iff in H; [|assumption..]
    | H : num_lt ?a ?b = false |- _ =>
        apply num_lt_false_iff in H; [|assumption..]
    | |- num_lt ?a ?b = true => apply num_lt_iff; [assumption..|]
    | |- num_lt ?a ?b = false => apply num_lt_false_iff; [assumption..|]
    end;
  unfold lex_lt in *;
  repeat match goal with
    | |- context [rank ?x] =>
        let a := fresh "a" in let b := fresh "b" in let c := fresh "c" in
        destruct (rank x) as [a [b c]]
    | H : context [rank ?x] |- _ =>
        let a := fresh "a" in let b := fresh "b" in let c := fresh "c" in
        destruct (rank x) as [a [b c]]
    end;
  cbn [fst snd] in *; lia.

Section Order.

Variables a b c : num.
Hypothesis Ha : weight_value a.
Hypothesis Hb : weight_value b.
Hypothesis Hc : weight_value c.

Lemma num_lt_irrefl : num_lt a a = false.
Proof. by_rank. Qed.

Lemma num_lt_asym : num_lt a b = true -> num_lt b a = false.
Proof. intros H. by_rank. Qed.

Lemma num_lt_trans :
  num_lt a b = true -> num_lt b c = true -> num_lt a c = true.
Proof. intros H1 H2. by_rank. Qed.

(** [a >= b] and [b >= c] give [a >= c]. *)
Lemma num_ge_trans :
  num_lt a b = false -> num_lt b c = false -> num_lt a c = false.
Proof. intros H1 H2. by_rank. Qed.

(** [a <= b] and [b < c] give [a < c]. *)
Lemma num_le_lt_trans :
  num_lt b a = false -> num_lt b c = true -> num_lt a c = true.
Proof. intros H1 H2. by_rank. Qed.

End Order.

End WeightOrder.

(** ** The weight function *)

Module WeightFacts.
Import WeightOrder.

Lemma num_ge_float (p c : float) :
  num_ge (NFloat p) (NFloat c) = (c <=? p)%float.
Proof.
  unfold num_ge, num_compare. rewrite leb_spec. unfold SFleb.
  rewrite (SFcompare_swap (Prim2SF c) (Prim2SF p)).
  destruct (SFcompare (Prim2SF c) (Prim2SF p)) as [[]|]; reflexivity.
Qed.

Lemma num_eq_int (k d : Z) : num_eq (NInt k) (NInt d) = (k =? d).
Proof.
  unfold num_eq, num_compare.
  destruct (Z.compare_spec k d) as [E|E|E]; symmetry.
  - apply Z.eqb_eq. exact E.
  - apply Z.eqb_neq. lia.
  - apply Z.eqb_neq. lia.
Qed.

(** A table lookup with an [int] key. *)
Lemma int_keyed_get_int {V} (table : list (Z * V)) (d : Z) :
  int_keyed_get table (PyInt d)
  = Ok (option_map snd (find (fun kv => fst kv =? d) table)).
Proof.
  unfold int_keyed_get. cbn [hashable as_num]. do 2 f_equal.
  induction table as [|kv table IH]; cbn [find]; [reflexivity|].
  rewrite num_eq_int, IH. reflexivity.
Qed.

Lemma weight_typed (pd : PlanetDetails.t) (pos ty : pyval) (d : Z)
    (c : bool) (p : float) :
  PlanetZoneTuple.weight
    (PlanetZoneTuple.Build pd (Spec.typed_zone pos ty d c p))
  = if c then Ok (NInt 0)
    else if (d =? 3) && (float_0_95 <=? p)%float then Ok (NInt 0)
    else if (d =? 2) && (float_0_96 <=? p)%float then Ok (NInt 0)
    else match option_map snd
                 (find (fun kv => fst kv =? d) PlanetZoneTuple.multipliers)
         with
         | Some m =>
             try! base <- float_of_Z (m * 8); Ok (NFloat (base + (1 - p))%float)
         | None => Raise TypeError
         end.
Proof.
  unfold PlanetZoneTuple.weight, Spec.typed_zone.
  cbn [PlanetZoneTuple.zone Zone.difficulty Zone.captured
       Zone.capture_progress].
  rewrite int_keyed_get_int.
  cbn [rbind truthy is_small_int py_ge_float py_float_sub as_num num_to_float].
  rewrite !num_ge_float.
  destruct c; [reflexivity|].
  destruct (d =? 3); cbn [rbind andb].
  - destruct (float_0_95 <=? p)%float; [reflexivity|].
    destruct (d =? 2); cbn [rbind andb]; [|reflexivity].
    destruct (float_0_96 <=? p)%float; reflexivity.
  - destruct (d =? 2); cbn [rbind andb]; [|reflexivity].
    destruct (float_0_96 <=? p)%float; reflexivity.
Qed.

Lemma difficulty_cases (d : Z) :
  1 <= d <= 4 -> d = 1 \/ d = 2 \/ d = 3 \/ d = 4.
Proof. lia. Qed.

Lemma float_of_Z_16 : float_of_Z (2 * 8) = Ok 16%float.
Proof. reflexivity. Qed.

Lemma float_of_Z_32 : float_of_Z (4 * 8) = Ok 32%float.
Proof. reflexivity. Qed.

Lemma float_of_Z_64 : float_of_Z (8 * 8) = Ok 64%float.
Proof. reflexivity. Qed.

Lemma float_of_Z_800 : float_of_Z (100 * 8) = Ok 800%float.
Proof. reflexivity. Qed.

(** With a difficulty of the table, [weight] is defined. *)
Lemma weight_defined_in_table (pd : PlanetDetails.t) (pos ty : pyval) (d : Z)
    (c : bool) (p : float) :
  1 <= d <= 4 ->
  exists w,
    PlanetZoneTuple.weight
      (PlanetZoneTuple.Build pd (Spec.typed_zone pos ty d c p)) = Ok w.
Proof.
  intros Hd. rewrite weight_typed.
  destruct c; [eexists; reflexivity|].
  destruct ((d =? 3) && (float_0_95 <=? p)%float); [eexists; reflexivity|].
  destruct ((d =? 2) && (float_0_96 <=? p)%float); [eexists; reflexivity|].
  destruct (difficulty_cases d Hd) as [->|[->|[->| ->]]];
    eexists; reflexivity.
Qed.

(** C1.  For a zone with a difficulty among 1, 2, 3, 4, a boolean captured
    flag and a float progress, [weight] returns what the specification
    says: 0 when the zone is captured; 0 when the difficulty is High and the
    progress is at least 0.95; 0 when the difficulty is Medium and the
    progress is at least 0.96; otherwise [m * 8 + (1 - progress)] for the
    multiplier m of the difficulty. *)
Theorem weight_matches_spec (pd : PlanetDetails.t) (pos ty : pyval) (d : Z)
    (c : bool) (p : float) :
  1 <= d <= 4 ->
  PlanetZoneTuple.weight
    (PlanetZoneTuple.Build pd (Spec.typed_zone pos ty d c p))
  = Ok (if c then NInt 0
        else if (d =? 3) && (float_0_95 <=? p)%float then NInt 0
        else if (d =? 2) && (float_0_96 <=? p)%float then NInt 0
        else NFloat (Spec.float_of_small (Spec.multiplier d * 8)
                     + (1 - p))%float).
Proof.
  intros Hd. rewrite weight_typed.
  destruct (difficulty_cases d Hd) as [->|[->|[->| ->]]];
    cbn [find fst snd option_map PlanetZoneTuple.multipliers Z.eqb Pos.eqb
         andb Spec.multiplier];
    rewrite ?float_of_Z_16, ?float_of_Z_32, ?float_of_Z_64, ?float_of_Z_800;
    cbn [rbind];
    destruct c; try reflexivity.
  - destruct (float_0_96 <=? p)%float; reflexivity.
  - destruct (float_0_95 <=? p)%float; reflexivity.
Qed.

Lemma weight_matches_spec_witness :
  1 <= 3 <= 4
  /\ PlanetZoneTuple.weight
       (PlanetZoneTuple.Build (PlanetDetails.Build 1 (PyStr "Earth") [])
          (Spec.typed_zone (PyInt 7) (PyInt 1) 3 false 0.5))
     = Ok (Spec.weight 3 false 0.5).
Proof.
  split; [lia | apply weight_matches_spec; lia].
Defined.

Lemma weight_high_example :
  Spec.weight 3 false 0.5 = NFloat 64.5
  /\ Spec.weight 3 false float_0_95 = NInt 0
  /\ Spec.weight 2 false 0.5 = NFloat 32.5
  /\ Spec.weight 4 true 0.5 = NInt 0.
Proof. repeat split; reflexivity. Qed.

(** C8.  An uncaptured Boss zone with a progress in [0, 1] weighs strictly
    more than any Low, Medium or High zone with a progress in [0, 1] whose
    weight is not zero. *)
Theorem boss_outranks (pdb pdo : PlanetDetails.t) (posb tyb poso tyo : pyval)
    (p q : float) (d : Z) (c : bool) (wo : num) :
  Spec.in_unit_interval p -> Spec.in_unit_interval q ->
  1 <= d <= 3 ->
  PlanetZoneTuple.weight
    (PlanetZoneTuple.Build pdo (Spec.typed_zone poso tyo d c q)) = Ok wo ->
  num_eq wo (NInt 0) = false ->
  exists wb,
    PlanetZoneTuple.weight
      (PlanetZoneTuple.Build pdb (Spec.typed_zone posb tyb 4 false p)) = Ok wb
    /\ num_lt wo wb = true.
Proof.
  intros [Hp0 Hp1] [Hq0 Hq1] Hd Hwo Hnz.
  exists (NFloat (800 + (1 - p))%float). split.
  - rewrite weight_typed. reflexivity.
  - assert (Hc : exists base,
               (base = 16 \/ base = 32 \/ base = 64)%float
               /\ wo = NFloat (base + (1 - q))%float).
    { rewrite weight_typed in Hwo.
      assert (Hz : Ok (NInt 0) = Ok wo -> False).
      { intros E. injection E as <-. discriminate Hnz. }
      destruct c; [destruct (Hz Hwo)|].
      destruct ((d =? 3) && (float_0_95 <=? q)%float); [destruct (Hz Hwo)|].
      destruct ((d =? 2) && (float_0_96 <=? q)%float); [destruct (Hz Hwo)|].
      assert (Hd' : d = 1 \/ d = 2 \/ d = 3) by lia.
      destruct Hd' as [->|[->| ->]];
        cbn [find fst snd option_map PlanetZoneTuple.multipliers Z.eqb
             Pos.eqb] in Hwo;
        rewrite ?float_of_Z_16, ?float_of_Z_32, ?float_of_Z_64 in Hwo;
        cbn [rbind] in Hwo; injection Hwo as <-;
        eexists; (split; [|reflexivity]); tauto. }
    destruct Hc as (base & Hbase & ->).
    unfold num_lt, num_compare.
    pose proof (FloatBounds.boss_above base p q Hbase Hp0 Hp1 Hq0 Hq1) as H.
    rewrite ltb_spec in H. unfold SFltb in H.
    destruct (SFcompare (Prim2SF (base + (1 - q))) (Prim2SF (800 + (1 - p))))
      as [[]|]; try discriminate H. reflexivity.
Qed.

Lemma boss_outranks_witness :
  exists wb,
    PlanetZoneTuple.weight
      (PlanetZoneTuple.Build (PlanetDetails.Build 1 (PyStr "Earth") [])
         (Spec.typed_zone (PyInt 7) (PyInt 1) 4 false 0.125)) = Ok wb
    /\ num_lt (NFloat 16.5) wb = true.
Proof.
  apply (boss_outranks (PlanetDetails.Build 1 (PyStr "Earth") [])
           (PlanetDetails.Build 2 (PyStr "Mars") [])
           (PyInt 7) (PyInt 1) (PyInt 8) (PyInt 1) 0.125 0.5 1 false).
  - split; reflexivity.
  - split; reflexivity.
  - lia.
  - reflexivity.
  - reflexivity.
Defined.




End WeightFacts.

(** ** The zone selector *)

Module SelectorFacts.
Import FloatFacts WeightOrder Selector.

Lemma last_item_app {A} (l : list A) (x : A) : last_item (l ++ [x]) = Ok x.
Proof. unfold last_item. rewrite rev_unit. reflexivity. Qed.

Section Insert.

Context {A : Type}.
Implicit Types (x b : num * A) (s : list (num * A)).

Lemma insert_In x s y : In y (insert x s) -> y = x \/ In y s.
Proof.
  induction s as [|z s IH]; cbn [insert].
  - intros [<-|[]]. left. reflexivity.
  - destruct (num_lt (fst z) (fst x)); cbn [In].
    + intros [<-|H]; [right; left; reflexivity|].
      destruct (IH H) as [->|H']; [left; reflexivity|right; right; exact H'].
    + intros [<-|H]; [left; reflexivity|right; exact H].
Qed.

(** An item greater than every item of [s] goes to the end. *)
Lemma insert_past x s :
  (forall y, In y s -> num_lt (fst y) (fst x) = true) ->
  insert x s = s ++ [x].
Proof.
  induction s as [|z s IH]; intros H; cbn [insert app]; [reflexivity|].
  rewrite (H z (or_introl eq_refl)). f_equal. apply IH.
  intros y Hy. apply H. right. exact Hy.
Qed.

(** An item that is not greater than the last one leaves it last. *)
Lemma insert_keeps_last x b s :
  num_lt (fst b) (fst x) = false ->
  exists s', insert x (s ++ [b]) = s' ++ [b].
Proof.
  intros H. induction s as [|z s [s' IH]]; cbn [insert app].
  - rewrite H. exists [x]. reflexivity.
  - destruct (num_lt (fst z) (fst x)).
    + exists (z :: s'). rewrite IH. reflexivity.
    + exists (x :: z :: s). reflexivity.
Qed.

Lemma insert_permutation x s : Permutation (insert x s) (x :: s).
Proof.
  induction s as [|z s IH]; cbn [insert]; [reflexivity|].
  destruct (num_lt (fst z) (fst x)); [|reflexivity].
  rewrite IH. apply perm_swap.
Qed.

(** The model of [sorted] rearranges its input ... *)
Lemma sort_permutation (k : list (num * A)) : Permutation (sort k) k.
Proof.
  induction k as [|x k IH]; cbn [sort fold_right]; [reflexivity|].
  fold (sort k). rewrite insert_permutation, IH. reflexivity.
Qed.

(** ... in ascending order of the keys. *)
Lemma insert_sorted x s :
  weight_value (fst x) -> Forall (fun y => weight_value (fst y)) s ->
  Sorted (fun a b => num_lt (fst b) (fst a) = false) s ->
  Sorted (fun a b => num_lt (fst b) (fst a) = false) (insert x s).
Proof.
  intros Hx Hs Hsorted. induction s as [|z s IH]; cbn [insert].
  - repeat constructor.
  - inversion Hs as [|? ? Hz Hs']; subst.
    inversion Hsorted as [|? ? Hsorted' Hhd]; subst.
    destruct (num_lt (fst z) (fst x)) eqn:E.
    + constructor; [apply IH; assumption|].
      destruct s as [|z' s]; cbn [insert].
      * constructor. apply num_lt_asym; assumption.
      * destruct (num_lt (fst z') (fst x)).
        -- inversion Hhd; subst. constructor. assumption.
        -- constructor. apply num_lt_asym; assumption.
    + constructor; [assumption|]. constructor. exact E.
Qed.

Lemma sort_sorted (k : list (num * A)) :
  Forall (fun y => weight_value (fst y)) k ->
  Sorted (fun a b => num_lt (fst b) (fst a) = false) (sort k).
Proof.
  induction k as [|x k IH]; intros Hk; cbn [sort fold_right].
  - constructor.
  - inversion Hk; subst. fold (sort k). apply insert_sorted; auto.
    eapply Permutation_Forall; [|eassumption].
    symmetry. apply sort_permutation.
Qed.

(** The last item of the sorted list is the last maximum of the input:
    no item has a greater key and the items after it have a smaller
    one. *)
Lemma sort_last (k : list (num * A)) :
  Forall (fun y => weight_value (fst y)) k ->
  k <> [] ->
  exists s b before after,
    sort k = s ++ [b]
    /\ k = before ++ b :: after
    /\ (forall y, In y before -> num_lt (fst b) (fst y) = false)
    /\ (forall y, In y after -> num_lt (fst y) (fst b) = true)
    /\ (forall y, In y (sort k) -> In y k).
Proof.
  induction k as [|x k IH]; intros Hk Hne; [congruence|].
  inversion Hk as [|? ? Hx Hk']; subst.
  rewrite Forall_forall in Hk'.
  destruct k as [|x' k'].
  - exists [], x, [], []. cbn. repeat split; try contradiction.
    intros y Hy. exact Hy.
  - destruct IH as (s & b & before & after & Es & Ek & Hb & Ha & Hin);
      [apply Forall_forall; exact Hk'|discriminate|].
    set (k := x' :: k') in *.
    assert (Wb : weight_value (fst b)).
    { apply Hk'. rewrite Ek. apply in_or_app. right. left. reflexivity. }
    assert (Hmax : forall y, In y k -> num_lt (fst b) (fst y) = false).
    { intros y Hy. rewrite Ek in Hy. apply in_app_or in Hy.
      destruct Hy as [Hy|[<-|Hy]].
      - apply Hb. exact Hy.
      - apply num_lt_irrefl. exact Wb.
      - apply num_lt_asym; try apply Ha; try exact Hy; try exact Wb.
        apply Hk'. rewrite Ek. apply in_or_app. right. right. exact Hy. }
    assert (Hin' : forall y, In y (sort (x :: k)) -> In y (x :: k)).
    { intros y Hy. cbn [sort fold_right] in Hy. apply insert_In in Hy.
      destruct Hy as [->|Hy]; [left; reflexivity|right; apply Hin; exact Hy]. }
    change (sort (x :: k)) with (insert x (sort k)) in *.
    destruct (num_lt (fst b) (fst x)) eqn:Hbx.
    + exists (sort k), x, [], k. repeat split.
      * apply insert_past. intros y Hy.
        apply (num_le_lt_trans (fst y) (fst b) (fst x)); auto.
      * intros y [].
      * intros y Hy.
        apply (num_le_lt_trans (fst y) (fst b) (fst x)); auto.
      * exact Hin'.
    + rewrite Es in *.
      destruct (insert_keeps_last x b s Hbx) as [s' Es'].
      exists s', b, (x :: before), after. repeat split.
      * exact Es'.
      * rewrite Ek. reflexivity.
      * intros y [<-|Hy]; [exact Hbx|apply Hb; exact Hy].
      * exact Ha.
      * exact Hin'.
Qed.

End Insert.

Lemma rmap_keys {A} (f : A -> result num) (l : list A) :
  Forall (fun t => exists w, f t = Ok w) l ->
  exists keys,
    rmap f l = Ok keys
    /\ map snd (combine keys l) = l
    /\ Forall (fun y => f (snd y) = Ok (fst y)) (combine keys l).
Proof.
  induction l as [|t l IH]; intros H.
  - exists []. repeat split. constructor.
  - inversion H as [|? ? [w Hw] Hl]; subst.
    destruct (IH Hl) as (keys & Hr & Hm & Hf).
    exists (w :: keys). cbn [rmap]. rewrite Hw, Hr. cbn [rbind combine map snd].
    rewrite Hm. repeat split. constructor; [exact Hw|exact Hf].
Qed.

Ltac split_match H :=
  repeat match type of H with
    | context [match ?x with _ => _ end] => destruct x
    end.

(** The only [int] that [weight] returns is 0. *)
Lemma weight_int_zero (t : PlanetZoneTuple.t) (z : Z) :
  PlanetZoneTuple.weight t = Ok (NInt z) -> z = 0.
Proof.
  unfold PlanetZoneTuple.weight, rbind. intros H.
  split_match H; congruence.
Qed.

Lemma weight_is_weight_value (t : PlanetZoneTuple.t) (w : num) :
  PlanetZoneTuple.weight t = Ok w -> Spec.num_is_nan w = false ->
  weight_value w.
Proof.
  destruct w as [z|f]; cbn [weight_value Spec.num_is_nan].
  - intros H _. exact (weight_int_zero t z H).
  - intros _ H. exact H.
Qed.

(** C2.  On the empty list the selector raises [IndexError].  On a
    non-empty list of pairings whose weights are defined and are not NaN it
    returns a pairing of the list such that no pairing weighs more and
    every pairing after it in the list weighs strictly less: the last of
    the pairings of maximal weight. *)
Theorem select_best_last_maximum :
  select_best [] = Raise IndexError
  /\ forall zones : list PlanetZoneTuple.t,
      zones <> [] ->
      Forall (fun t => exists w, PlanetZoneTuple.weight t = Ok w
                                 /\ Spec.num_is_nan w = false) zones ->
      exists before best after wb,
        select_best zones = Ok best
        /\ zones = before ++ best :: after
        /\ PlanetZoneTuple.weight best = Ok wb
        /\ (forall t w, In t zones -> PlanetZoneTuple.weight t = Ok w ->
                        num_lt wb w = false)
        /\ (forall t w, In t after -> PlanetZoneTuple.weight t = Ok w ->
                        num_lt w wb = true).
Proof.
  split; [reflexivity|].
  intros zones Hne Hw.
  destruct (rmap_keys PlanetZoneTuple.weight zones) as (keys & Hr & Hm & Hf).
  { eapply Forall_impl; [|exact Hw]. intros t (w & E & _). exists w. exact E. }
  set (k := combine keys zones) in *.
  rewrite Forall_forall in Hf, Hw.
  assert (Hin : forall y, In y k -> In (snd y) zones).
  { intros y Hy. rewrite <- Hm. apply in_map. exact Hy. }
  assert (Hwv : Forall (fun y => weight_value (fst y)) k).
  { apply Forall_forall. intros y Hy.
    destruct (Hw (snd y) (Hin y Hy)) as (w & E & Hn).
    rewrite (Hf y Hy) in E. injection E as E. rewrite <- E in Hn.
    apply (weight_is_weight_value (snd y)); [apply Hf; exact Hy|exact Hn]. }
  assert (Hk : k <> []).
  { intros E. rewrite E in Hm. cbn in Hm. congruence. }
  destruct (sort_last k Hwv Hk) as (s & b & before & after & Es & Ek & Hb & Ha & _).
  assert (Hbk : In b k) by (rewrite Ek; apply in_or_app; right; left; reflexivity).
  rewrite Forall_forall in Hwv.
  exists (map snd before), (snd b), (map snd after), (fst b).
  assert (Hzones : zones = map snd before ++ snd b :: map snd after).
  { rewrite <- Hm, Ek, map_app. reflexivity. }
  repeat split.
  - unfold select_best, sorted. rewrite Hr. cbn [rbind]. fold k.
    rewrite Es, map_app. apply last_item_app.
  - exact Hzones.
  - apply Hf. exact Hbk.
  - intros t w Ht E.
    rewrite <- Hm in Ht. apply in_map_iff in Ht. destruct Ht as (y & <- & Hy).
    rewrite (Hf y Hy) in E. injection E as <-.
    rewrite Ek in Hy. apply in_app_or in Hy. destruct Hy as [Hy|[<-|Hy]].
    + apply Hb. exact Hy.
    + apply num_lt_irrefl. apply Hwv. exact Hbk.
    + assert (Hyk : In y k) by (rewrite Ek; apply in_or_app; right; right; exact Hy).
      apply num_lt_asym; [apply Hwv; exact Hyk|apply Hwv; exact Hbk|].
      apply Ha. exact Hy.
  - intros t w Ht E.
    apply in_map_iff in Ht. destruct Ht as (y & <- & Hy).
    assert (Hyk : In y k) by (rewrite Ek; apply in_or_app; right; right; exact Hy).
    rewrite (Hf y Hyk) in E. injection E as <-.
    apply Ha. exact Hy.
Qed.

End SelectorFacts.

(** ** The decoders *)

Module DecodeFacts.

Lemma getitem_str_error (v : pyval) (k : string) (e : exn) :
  getitem_str v k = Raise e -> Spec.is_DecodeError e = true.
Proof.
  unfold getitem_str. intros H.
  SelectorFacts.split_match H; inversion H; reflexivity.
Qed.

Lemma py_int_error (v : pyval) (e : exn) :
  py_int v = Raise e -> Spec.is_DecodeError e = true.
Proof.
  unfold py_int, Z_of_float. intros H.
  SelectorFacts.split_match H; inversion H; reflexivity.
Qed.

Lemma int_field_error (json : pyval) (field : string) (e : exn) :
  Spec.int_field json field = Raise e -> Spec.is_DecodeError e = true.
Proof.
  unfold Spec.int_field, rbind. intros H.
  destruct (getitem_str json field) as [v|e'] eqn:E.
  - exact (py_int_error v e H).
  - injection H as <-. exact (getitem_str_error json field e' E).
Qed.

Lemma contains_str_error (k : string) (v : pyval) (e : exn) :
  contains_str k v = Raise e -> Spec.is_DecodeError e = true.
Proof.
  unfold contains_str. intros H.
  destruct v; inversion H; reflexivity.
Qed.

(** [from_json] in terms of the three required fields. *)
Lemma from_json_fields (json : pyval) :
  PlayerInfo.from_json json
  = (try! present <- contains_str "active_planet" json;
     try! active_planet <-
       (if present then Spec.int_field json "active_planet" else Ok (-1));
     try! level <- Spec.int_field json "level";
     try! score <- Spec.int_field json "score";
     try! next_level_score <- Spec.int_field json "next_level_score";
     Ok (PlayerInfo.Build active_planet level score next_level_score)).
Proof. reflexivity. Qed.

Lemma from_json_error (json : pyval) (e : exn) :
  PlayerInfo.from_json json = Raise e -> Spec.is_DecodeError e = true.
Proof.
  rewrite from_json_fields. unfold rbind. intros H.
  destruct (contains_str "active_planet" json) as [present|e0] eqn:E0;
    [|injection H as <-; exact (contains_str_error _ _ _ E0)].
  destruct (if present then Spec.int_field json "active_planet" else Ok (-1))
    as [ap|e1] eqn:E1.
  2:{ injection H as <-. destruct present; [|discriminate E1].
      exact (int_field_error _ _ _ E1). }
  destruct (Spec.int_field json "level") as [l|e2] eqn:E2;
    [|injection H as <-; exact (int_field_error _ _ _ E2)].
  destruct (Spec.int_field json "score") as [sc|e3] eqn:E3;
    [|injection H as <-; exact (int_field_error _ _ _ E3)].
  destruct (Spec.int_field json "next_level_score") as [n|e4] eqn:E4;
    [|injection H as <-; exact (int_field_error _ _ _ E4)].
  discriminate H.
Qed.

Lemma from_json_ok_fields (json : pyval) (p : PlayerInfo.t) :
  PlayerInfo.from_json json = Ok p ->
  Spec.int_field json "level" = Ok (PlayerInfo.level p)
  /\ Spec.int_field json "score" = Ok (PlayerInfo.score p)
  /\ Spec.int_field json "next_level_score"
     = Ok (PlayerInfo.next_level_score p).
Proof.
  rewrite from_json_fields. unfold rbind. intros H.
  destruct (contains_str "active_planet" json) as [present|]; [|discriminate H].
  destruct (if present then Spec.int_field json "active_planet" else Ok (-1));
    [|discriminate H].
  destruct (Spec.int_field json "level"); [|discriminate H].
  destruct (Spec.int_field json "score"); [|discriminate H].
  destruct (Spec.int_field json "next_level_score"); [|discriminate H].
  injection H as <-. repeat split.
Qed.

(** C6.  A payload without [active_planet] whose [level], [score] and
    [next_level_score] are present and coercible to integers decodes to a
    [PlayerInfo] with [active_planet] = -1.  A payload in which one of
    these three fields is absent or not coercible makes the decoding fail
    with one of the errors of a field access or a coercion ([KeyError],
    [TypeError], [ValueError], [OverflowError]): the specification's
    [DecodeError]. *)
Theorem player_info_decoding :
  (forall (d : list (string * pyval)) (l sc n : Z),
      assoc "active_planet" d = None ->
      Spec.int_field (PyDict d) "level" = Ok l ->
      Spec.int_field (PyDict d) "score" = Ok sc ->
      Spec.int_field (PyDict d) "next_level_score" = Ok n ->
      PlayerInfo.from_json (PyDict d) = Ok (PlayerInfo.Build (-1) l sc n))
  /\ (forall (json : pyval) (field : string),
        In field ["level"; "score"; "next_level_score"]%string ->
        (exists e, Spec.int_field json field = Raise e) ->
        exists e, PlayerInfo.from_json json = Raise e
                  /\ Spec.is_DecodeError e = true).
Proof.
  split.
  - intros d l sc n Ha Hl Hs Hn. rewrite from_json_fields.
    cbn [contains_str]. rewrite Ha. cbn [rbind]. rewrite Hl, Hs, Hn.
    reflexivity.
  - intros json field Hin [e He].
    destruct (PlayerInfo.from_json json) as [p|e'] eqn:E.
    + destruct (from_json_ok_fields json p E) as (Hl & Hs & Hn).
      destruct Hin as [<-|[<-|[<-|[]]]]; congruence.
    + exists e'. split; [reflexivity|]. exact (from_json_error json e' E).
Qed.

Lemma player_info_decoding_witness :
  PlayerInfo.from_json (Examples.player_info_json None)
  = Ok (PlayerInfo.Build (-1) 5 4500 6000)
  /\ exists e,
      PlayerInfo.from_json
        (PyDict [("level", PyInt 5); ("score", PyStr "many");
                 ("next_level_score", PyInt 6000)]) = Raise e
      /\ Spec.is_DecodeError e = true.
Proof.
  split.
  - apply (proj1 player_info_decoding); reflexivity.
  - apply (proj2 player_info_decoding) with (field := "score"%string).
    + right. left. reflexivity.
    + exists ValueError. reflexivity.
Defined.

Lemma completion_example :
  PlayerInfo.completion (PlayerInfo.Build 1 5 4500 6000) = Ok "75.00%"%string.
Proof. reflexivity. Qed.

(** C7, as the code has it.  [completion] does not guard the denominator:
    with [next_level_score] = 0 the division is evaluated and raises
    [ZeroDivisionError]. *)
Theorem completion_zero_denominator (p : PlayerInfo.t) :
  PlayerInfo.next_level_score p = 0 ->
  PlayerInfo.completion p = Raise ZeroDivisionError.
Proof.
  intros H. unfold PlayerInfo.completion, int_truediv. rewrite H. reflexivity.
Qed.

Lemma completion_zero_denominator_witness :
  PlayerInfo.completion (PlayerInfo.Build (-1) 1 0 0) = Raise ZeroDivisionError.
Proof.
  apply (completion_zero_denominator (PlayerInfo.Build (-1) 1 0 0)).
  reflexivity.
Defined.

(** C7 as stated fails: with a zero denominator [completion] neither
    reports 0% nor fails with an error of its own; the error is the one of
    the division by zero. *)
Lemma completion_is_unguarded :
  ~ (forall p : PlayerInfo.t,
        PlayerInfo.next_level_score p = 0 ->
        PlayerInfo.completion p = Ok "0.00%"%string
        \/ exists e, PlayerInfo.completion p = Raise e
                     /\ e <> ZeroDivisionError).
Proof.
  intros H.
  destruct (H (PlayerInfo.Build (-1) 1 0 0) eq_refl) as [E|(e & E & Hne)].
  - discriminate E.
  - apply Hne. injection E as <-. reflexivity.
Qed.

End DecodeFacts.

(** ** The control loop *)

Module LoopFacts.
Import Env Salians.
Local Open Scope env_scope.

Lemma bind_ok_inv {A B} (c : M A) (k : A -> M B) (w w' : world) (b : B) :
  bind c k w = (Ok b, w') ->
  exists a w1, c w = (Ok a, w1) /\ k a w1 = (Ok b, w').
Proof.
  unfold bind. destruct (c w) as [[a|e] w1]; intros H.
  - exists a, w1. split; [reflexivity|exact H].
  - discriminate H.
Qed.

Lemma bind_run {A B} (c : M A) (k : A -> M B) (w w1 : world) (a : A) :
  c w = (Ok a, w1) -> bind c k w = k a w1.
Proof. unfold bind. intros ->. reflexivity. Qed.

Section Bot.

Variable self : Salians.t.
Variable oracle : nat -> http_reply.

Local Abbreviation cycle := (Salians.cycle self oracle).
Local Abbreviation iteration := (Salians.iteration self oracle).
Local Abbreviation report_loop := (Salians.report_loop self oracle).
Local Abbreviation report_and_leave := (Salians.report_and_leave self oracle).
Local Abbreviation _leave_planet := (Salians._leave_planet self oracle).
Local Abbreviation _get_player_info := (Salians._get_player_info self oracle).
Local Abbreviation _report_score := (Salians._report_score self oracle).
Local Abbreviation _join_zone := (Salians._join_zone self oracle).

(** [_leave_planet] sends its request whatever the reply is, and fails
    only when the connection does. *)
Lemma leave_planet_run (planet_id : Z) (w : world) :
  _leave_planet planet_id w
  = (match oracle (sent w) with
     | ConnectionFailed => Raise RequestException
     | Response _ => Ok tt
     end,
     World (S (sent w)) (trace w ++ [Spec.leave_request self planet_id])).
Proof.
  unfold Salians._leave_planet, http, bind, Spec.leave_request.
  destruct (oracle (sent w)); reflexivity.
Qed.

(** [time.sleep] accepts a length that is not negative and fits. *)
Lemma time_sleep_run (seconds : Z) (w : world) :
  0 <= seconds <= max_sleep ->
  time_sleep seconds w
  = (Ok tt, World (sent w) (trace w ++ [Sleep seconds])).
Proof.
  intros H. unfold time_sleep.
  assert (E1 : (seconds <? - max_sleep) = false)
    by (apply Z.ltb_ge; unfold max_sleep in *; lia).
  assert (E2 : (max_sleep <? seconds) = false) by (apply Z.ltb_ge; lia).
  assert (E3 : (seconds <? 0) = false) by (apply Z.ltb_ge; lia).
  rewrite E1, E2, E3. reflexivity.
Qed.

Lemma sleep_once (seconds : Z) (w : world) :
  0 <= seconds <= max_sleep ->
  _sleep seconds 1 w
  = (Ok tt, World (sent w) (trace w ++ Spec.pause seconds)).
Proof.
  intros H. unfold _sleep, Spec.pause. change (Z.to_nat 1) with 1%nat.
  cbn [sleep_from].
  erewrite bind_run by reflexivity.
  erewrite bind_run by (apply time_sleep_run; exact H).
  unfold ret. cbn [sent trace].
  rewrite <- app_assoc. change (0 + 1) with 1.
  rewrite Z.mul_1_l, Z.mul_1_r. reflexivity.
Qed.

Lemma report_score_run (score : option Z) (b : bool) (w : world) :
  Spec.report_outcome (oracle (sent w)) = Some b ->
  _report_score score w
  = (if b then Ok true else Raise NoResponseError,
     World (S (sent w)) (trace w ++ [Spec.report_request self score])).
Proof.
  intros Ho. unfold Spec.report_outcome in Ho.
  unfold Salians._report_score, http, bind, json_body, lift, ret, raise,
    Spec.report_request.
  destruct (oracle (sent w)) as [|[json|]]; try discriminate Ho.
  destruct (getitem_str json "response") as [response|];
    try discriminate Ho.
  injection Ho as <-. destruct (truthy response); reflexivity.
Qed.

Lemma bind_raise {A B} (c : M A) (k : A -> M B) (w w1 : world) (e : exn) :
  c w = (Raise e, w1) -> bind c k w = (Raise e, w1).
Proof. unfold bind. intros ->. reflexivity. Qed.

(** One pass of the report loop up to the [except] clause. *)
Lemma report_attempt (planet_zone : PlanetZoneTuple.t) (score : option Z)
    (b : bool) (w : world) :
  Zone.get_difficulty_score (PlanetZoneTuple.zone planet_zone) = Ok score ->
  Spec.report_outcome (oracle (sent w)) = Some b ->
  except_NoResponseError
    (log_info (Message [Lit "Reporting..."]) ;;
     score <- lift (Zone.get_difficulty_score
                      (PlanetZoneTuple.zone planet_zone)) ;;
     _ <- _report_score score ;;
     log_info (Message [Lit "Reported!"]) ;;
     ret true)
    (log_info (Message [Lit "Failed"]) ;;
     ret false) w
  = (Ok b,
     World (S (sent w))
       (trace w ++ [Spec.info "Reporting..."; Spec.report_request self score;
                    Spec.info (if b then "Reported!" else "Failed")])).
Proof.
  intros Hs Ho. unfold except_NoResponseError.
  erewrite bind_run by reflexivity.
  erewrite bind_run by (unfold lift; rewrite Hs; reflexivity).
  destruct b.
  - erewrite bind_run by (apply (report_score_run score true); exact Ho).
    erewrite bind_run by reflexivity.
    unfold ret. cbn [sent trace]. rewrite <- !app_assoc. reflexivity.
  - erewrite bind_raise by (apply (report_score_run score false); exact Ho).
    erewrite bind_run by reflexivity.
    unfold ret. cbn [sent trace]. rewrite <- !app_assoc. reflexivity.
Qed.

Lemma report_loop_run (planet_zone : PlanetZoneTuple.t) (score : option Z)
    (n : nat) :
  Zone.get_difficulty_score (PlanetZoneTuple.zone planet_zone) = Ok score ->
  forall (w : world) (failures : nat),
    (failures <= n)%nat ->
    (forall i, (i < failures)%nat ->
               Spec.report_outcome (oracle (sent w + i)) = Some false) ->
    ((failures < n)%nat ->
     Spec.report_outcome (oracle (sent w + failures)) = Some true) ->
    report_loop n planet_zone w
    = (Ok tt,
       World (sent w + Nat.min (S failures) n)
         (trace w
          ++ List.concat (repeat (Spec.failed_attempt self score) failures)
          ++ (if (failures <? n)%nat
              then Spec.successful_attempt self score else []))).
Proof.
  intros Hs. induction n as [|n IH]; intros w failures Hle Hfail Hok.
  - assert (failures = 0)%nat as -> by lia. cbn.
    rewrite Nat.add_0_r, app_nil_r. destruct w; reflexivity.
  - cbn [Salians.report_loop]. destruct failures as [|f].
    + specialize (Hok (Nat.lt_0_succ n)). rewrite Nat.add_0_r in Hok.
      erewrite bind_run; [|apply (report_attempt planet_zone score true w Hs Hok)].
      cbn. rewrite Nat.add_1_r. reflexivity.
    + assert (H0 : Spec.report_outcome (oracle (sent w)) = Some false).
      { rewrite <- (Nat.add_0_r (sent w)). apply Hfail. lia. }
      erewrite bind_run; [|apply (report_attempt planet_zone score false w Hs H0)].
      cbv iota.
      erewrite bind_run; [|apply sleep_once; unfold max_sleep; lia].
      rewrite (IH _ f); cbn [sent trace].
      * f_equal. f_equal; [lia|].
        cbn [repeat List.concat Spec.failed_attempt]. rewrite <- !app_assoc.
        reflexivity.
      * lia.
      * intros i Hi. replace (S (sent w) + i)%nat with (sent w + S i)%nat by lia.
        apply Hfail. lia.
      * intros Hf. replace (S (sent w) + f)%nat with (sent w + S f)%nat by lia.
        apply Hok. lia.
Qed.

Lemma report_score_sent (score : option Z) (w : world) :
  sent (snd (_report_score score w)) = S (sent w).
Proof.
  unfold Salians._report_score, http, bind, json_body, lift, ret, raise.
  destruct (oracle (sent w)) as [|[json|]]; try reflexivity.
  cbn [fst snd]. destruct (getitem_str json "response") as [response|];
    try reflexivity.
  destruct (truthy response); reflexivity.
Qed.

Lemma sleep_from_sent (n : nat) :
  forall i duration times w,
    0 <= duration <= max_sleep ->
    sleep_from i duration times n w
    = (Ok tt, snd (sleep_from i duration times n w))
    /\ sent (snd (sleep_from i duration times n w)) = sent w.
Proof.
  induction n as [|n IH]; intros i duration times w Hd; cbn [sleep_from].
  - split; reflexivity.
  - erewrite bind_run by reflexivity.
    erewrite bind_run by (apply time_sleep_run; exact Hd).
    match goal with
    | |- context [sleep_from ?i' duration times n ?w'] =>
        destruct (IH i' duration times w' Hd) as [H1 H2]
    end.
    split; [exact H1|rewrite H2; reflexivity].
Qed.

(** A pass of the report loop sends at most one request. *)
Lemma report_attempt_sent (planet_zone : PlanetZoneTuple.t) (w : world) :
  (sent (snd (except_NoResponseError
                (log_info (Message [Lit "Reporting..."]) ;;
                 score <- lift (Zone.get_difficulty_score
                                  (PlanetZoneTuple.zone planet_zone)) ;;
                 _ <- _report_score score ;;
                 log_info (Message [Lit "Reported!"]) ;;
                 ret true)
                (log_info (Message [Lit "Failed"]) ;;
                 ret false) w))
   <= S (sent w))%nat.
Proof.
  unfold except_NoResponseError.
  erewrite bind_run by reflexivity.
  unfold bind at 1, lift.
  destruct (Zone.get_difficulty_score (PlanetZoneTuple.zone planet_zone))
    as [score|e]; [|destruct e; cbn; lia].
  pose proof (report_score_sent score
                (World (sent w)
                   (trace w ++ [Log INFO (Message [Lit "Reporting..."])])))
    as Hs.
  unfold bind at 1.
  destruct (_report_score score _) as [[b|e] w1]; cbn [snd sent] in Hs.
  - cbn. lia.
  - destruct e; cbn; lia.
Qed.

(** Whatever the replies are, the report loop sends at most one request
    per pass. *)
Lemma report_loop_bound (planet_zone : PlanetZoneTuple.t) (n : nat) :
  forall w, (sent (snd (report_loop n planet_zone w)) <= sent w + n)%nat.
Proof.
  induction n as [|n IH]; intros w; cbn [Salians.report_loop].
  - cbn. lia.
  - pose proof (report_attempt_sent planet_zone w) as Ha.
    unfold bind at 1.
    destruct (except_NoResponseError _ _ w) as [[[|]|e] w1]; cbn [snd] in Ha.
    + cbn. lia.
    + unfold _sleep.
      destruct (sleep_from_sent (Z.to_nat 1) 0 10 1 w1) as [Hr Hsent];
        [unfold max_sleep; lia|].
      erewrite bind_run by exact Hr.
      specialize (IH (snd (sleep_from 0 10 1 (Z.to_nat 1) w1))). lia.
    + cbn. lia.
Qed.

(** C4.  The report loop sends at most 6 report requests, whatever the
    replies.  When each attempt either succeeds or gets no response
    ([NoResponseError]): after each attempt without response it waits 10
    seconds and tries again, it stops at the first success, and whether an
    attempt succeeded or all 6 failed the cycle goes on to the leave
    request; the only error that can come out is a failure of the
    connection of that request. *)
Theorem report_then_leave :
  (forall (planet_zone : PlanetZoneTuple.t) (w : world),
      (sent (snd (report_loop 6 planet_zone w)) <= sent w + 6)%nat)
  /\ (forall (player_info : PlayerInfo.t) (planet_zone : PlanetZoneTuple.t)
             (score : option Z) (w : world) (failures : nat),
        Zone.get_difficulty_score (PlanetZoneTuple.zone planet_zone)
        = Ok score ->
        (failures <= 6)%nat ->
        (forall i, (i < failures)%nat ->
                   Spec.report_outcome (oracle (sent w + i)) = Some false) ->
        ((failures < 6)%nat ->
         Spec.report_outcome (oracle (sent w + failures)) = Some true) ->
        let attempts := Nat.min (S failures) 6 in
        report_and_leave player_info planet_zone w
        = (match oracle (sent w + attempts) with
           | ConnectionFailed => Raise RequestException
           | Response _ => Ok tt
           end,
           World (S (sent w + attempts))
             (trace w ++ Spec.report_events self score failures
              ++ [Spec.info "Leaving Planet...";
                  Spec.leave_request self
                    (PlayerInfo.active_planet player_info)]))).
Proof.
  split; [intros planet_zone w; apply report_loop_bound|].
  intros player_info planet_zone score w failures Hs Hle Hfail Hok attempts.
  unfold Salians.report_and_leave.
  erewrite bind_run;
    [|apply (report_loop_run planet_zone score 6 Hs w failures Hle Hfail Hok)].
  fold attempts.
  unfold bind at 1, log_info, emit. cbn [sent trace].
  rewrite leave_planet_run. cbn [sent trace].
  unfold Spec.report_events, Spec.info. rewrite <- !app_assoc. reflexivity.
Qed.

(** C5.  A cycle that completes ends with the leave request, and the
    planet of that request is the [active_planet] of the player info
    fetched at the start of the cycle, whatever happened in between (a
    relocation to another planet included) and whatever its value (the
    sentinel -1 included). *)
Theorem leave_targets_initial_planet (w w' : world) :
  cycle w = (Ok tt, w') ->
  exists player_info w1 events,
    _get_player_info w = (Ok player_info, w1)
    /\ trace w'
       = events
         ++ [Spec.leave_request self (PlayerInfo.active_planet player_info)].
Proof.
  intros H. unfold Salians.cycle in H.
  apply bind_ok_inv in H. destruct H as (player_info & w1 & Hpi & H).
  exists player_info, w1.
  do 5 (apply bind_ok_inv in H; destruct H as (? & ? & _ & H)).
  unfold Salians.report_and_leave in H.
  do 2 (apply bind_ok_inv in H; destruct H as (? & ? & _ & H)).
  rewrite leave_planet_run in H. injection H as _ <-.
  eexists. split; [exact Hpi|]. cbn [trace]. reflexivity.
Qed.






(** X3.  [_join_zone] checks no envelope: it never raises
    [NoResponseError]. *)
Lemma join_zone_never_NoResponseError (zone_position : pyval) (w : world) :
  fst (_join_zone zone_position w) <> Raise NoResponseError.
Proof.
  unfold Salians._join_zone, http, bind, json_body, ret, raise.
  destruct (oracle (sent w)) as [|[json|]]; discriminate.
Qed.

End Bot.

End LoopFacts.

(** ** Concrete runs *)

Module Runs.
Import Env Examples.

(** C3 fails on the code at this input: on a payload whose response
    envelope is empty [_join_zone] returns the payload, where
    [_report_score] raises [NoResponseError]; so the [except
    NoResponseError] clause around the call in [run] never runs. *)
Theorem join_zone_ignores_empty_envelope :
  fst (Salians._join_zone self (fun _ => Response (Some empty_envelope))
         (PyInt 7) start)
  = Ok empty_envelope
  /\ fst (Salians._report_score self (fun _ => Response (Some empty_envelope))
            (Some 4800) start)
     = Raise NoResponseError.
Proof. split; reflexivity. Qed.

(** On the empty envelope the four operations that inspect it raise
    [NoResponseError]; on a payload without the [response] key they raise
    [KeyError]; [_join_planet] and [_leave_planet] read no payload. *)
Lemma envelope_checks :
  let empty := fun _ : nat => Response (Some empty_envelope) in
  let absent := fun _ : nat => Response (Some (PyDict [])) in
  fst (Salians._get_player_info self empty start) = Raise NoResponseError
  /\ fst (Salians._get_planet_summaries self empty 1 start)
     = Raise NoResponseError
  /\ fst (Salians._get_planet_details self empty 2 start)
     = Raise NoResponseError
  /\ fst (Salians._report_score self empty (Some 600) start)
     = Raise NoResponseError
  /\ fst (Salians._get_player_info self absent start) = Raise KeyError
  /\ fst (Salians._report_score self absent (Some 600) start) = Raise KeyError
  /\ fst (Salians._join_planet self empty 2 start) = Ok tt
  /\ fst (Salians._leave_planet self absent 2 start) = Ok tt.
Proof. repeat split; reflexivity. Qed.

Lemma select_best_tied : Selector.select_best tied = Ok (pairing 4 false 0.5 3).
Proof. reflexivity. Qed.

Lemma tied_weights :
  Forall (fun t => exists w, PlanetZoneTuple.weight t = Ok w
                             /\ Spec.num_is_nan w = false) tied.
Proof.
  repeat constructor; eexists; split; reflexivity.
Defined.

Lemma select_best_last_maximum_witness :
  exists before best after wb,
    Selector.select_best tied = Ok best
    /\ tied = before ++ best :: after
    /\ PlanetZoneTuple.weight best = Ok wb
    /\ (forall t w, In t tied -> PlanetZoneTuple.weight t = Ok w ->
                    num_lt wb w = false)
    /\ (forall t w, In t after -> PlanetZoneTuple.weight t = Ok w ->
                    num_lt w wb = true).
Proof.
  apply (proj2 SelectorFacts.select_best_last_maximum tied).
  - discriminate.
  - exact tied_weights.
Defined.

Lemma report_then_leave_witness :
  Salians.report_and_leave self (scripted relocating_cycle) some_player
    boss_pairing (World 6 [])
  = (Ok tt,
     World 9
       ([] ++ Spec.report_events self (Some 4800) 1
        ++ [Spec.info "Leaving Planet..."; Spec.leave_request self 1])).
Proof.
  apply (proj2 (LoopFacts.report_then_leave self (scripted relocating_cycle))
           some_player boss_pairing (Some 4800) (World 6 []) 1%nat).
  - reflexivity.
  - lia.
  - intros i Hi. assert (i = 0)%nat as -> by lia. reflexivity.
  - intros _. reflexivity.
Defined.

(** Six attempts without response: the loop gives up and the cycle still
    leaves. *)
Lemma report_gives_up_after_six :
  Salians.report_and_leave self (fun _ => Response (Some empty_envelope))
    some_player boss_pairing start
  = (Ok tt,
     World 7
       (List.concat (repeat (Spec.failed_attempt self (Some 4800)) 6)
        ++ [Spec.info "Leaving Planet..."; Spec.leave_request self 1])).
Proof. reflexivity. Qed.

Lemma leave_targets_initial_planet_witness :
  exists player_info w1 events,
    Salians._get_player_info self (scripted relocating_cycle) start
    = (Ok player_info, w1)
    /\ trace (snd (Salians.cycle self (scripted relocating_cycle) start))
       = events
         ++ [Spec.leave_request self (PlayerInfo.active_planet player_info)].
Proof.
  apply (LoopFacts.leave_targets_initial_planet self
           (scripted relocating_cycle) start).
  vm_compute. reflexivity.
Defined.

(** The player of [relocating_cycle] is on planet 1 and joins planet 2; the
    cycle ends with leaving planet 1.  The player of [first_cycle] is on no
    planet; the cycle ends with leaving planet -1. *)
Lemma relocating_cycle_leaves_1 :
  let r := Salians.cycle self (scripted relocating_cycle) start in
  fst r = Ok tt
  /\ last (trace (snd r)) (Sleep 0) = Spec.leave_request self 1
  /\ In (Request POST [Lit Salians.base_url; Lit "/JoinPlanet/v0001/"]
           (Some [Lit "id="; Str (PyInt 2); Lit "&access_token=";
                  Lit "token"])) (trace (snd r)).
Proof.
  vm_compute. repeat split. do 7 right. left. reflexivity.
Qed.

Lemma first_cycle_leaves_sentinel :
  let r := Salians.cycle self (scripted first_cycle) start in
  fst r = Ok tt
  /\ last (trace (snd r)) (Sleep 0) = Spec.leave_request self (-1).
Proof. vm_compute. split; reflexivity. Qed.


End Runs.


(** * Further properties *)

(** ** Binary64 arithmetic: values of rounded sums and differences

    Rounding is monotone at the numbers that are representable with the
    exponent of the result: a bound of this kind on the exact value of a
    sum or a difference holds for its rounded value too. *)

Module FloatValueBounds.
Import FloatFacts FloatBounds FloatValues.

(** *** Shifts that drop no bit are exact *)

Lemma shr_1_lost (mrs : shr_record) :
  0 <= shr_m mrs -> lost mrs = false -> (2 | shr_m mrs) ->
  lost (shr_1 mrs) = false.
Proof.
  destruct mrs as [m r s]. unfold lost. cbn [shr_m shr_r shr_s].
  intros Hm Hl [k Hk]. apply orb_false_iff in Hl. destruct Hl as [-> ->].
  destruct m as [|[p|p|]|p]; cbn; try reflexivity; lia.
Qed.

Lemma divide_pow2_split (m a b : Z) :
  0 <= a -> 0 <= b -> (2 ^ (a + b) | m) ->
  (2 ^ a | m) /\ (2 ^ b | m / 2 ^ a).
Proof.
  intros Ha Hb [k Hk]. rewrite Z.pow_add_r in Hk by lia.
  assert (P : 0 < 2 ^ a) by (apply Z.pow_pos_nonneg; lia).
  split.
  - exists (k * 2 ^ b). lia.
  - exists k. subst m. replace (k * (2 ^ a * 2 ^ b)) with (k * 2 ^ b * 2 ^ a) by lia.
    rewrite Z.div_mul by lia. reflexivity.
Qed.

Lemma shr_iter_lost (p : positive) : forall mrs,
  0 <= shr_m mrs -> lost mrs = false -> (2 ^ Zpos p | shr_m mrs) ->
  lost (iter_pos shr_1 p mrs) = false.
Proof.
  induction p as [p IH|p IH|]; intros mrs Hm Hl Hd; cbn [iter_pos].
  - replace (Zpos p~1) with (1 + (Zpos p + Zpos p)) in Hd by lia.
    apply divide_pow2_split in Hd; try lia. destruct Hd as [H1 H2].
    apply divide_pow2_split in H2; try lia. destruct H2 as [H2 H3].
    rewrite Z.pow_1_r in *.
    assert (M1 : 0 <= shr_m (shr_1 mrs))
      by (rewrite shr_1_m by assumption; apply Z.div_pos; lia).
    assert (L1 : lost (shr_1 mrs) = false) by (apply shr_1_lost; assumption).
    rewrite <- shr_1_m in H2, H3 by assumption.
    assert (M2 : 0 <= shr_m (iter_pos shr_1 p (shr_1 mrs)))
      by (rewrite shr_iter_m by assumption; apply Z.div_pos; lia).
    apply IH.
    + exact M2.
    + apply IH; assumption.
    + rewrite shr_iter_m by assumption. exact H3.
  - replace (Zpos p~0) with (Zpos p + Zpos p) in Hd by lia.
    apply divide_pow2_split in Hd; try lia. destruct Hd as [H1 H2].
    assert (M2 : 0 <= shr_m (iter_pos shr_1 p mrs))
      by (rewrite shr_iter_m by assumption; apply Z.div_pos; lia).
    apply IH.
    + exact M2.
    + apply IH; assumption.
    + rewrite shr_iter_m by assumption. exact H2.
  - apply shr_1_lost; assumption.
Qed.

Lemma shr_lost (mrs : shr_record) (e n : Z) :
  0 <= shr_m mrs -> 0 <= n -> lost mrs = false -> (2 ^ n | shr_m mrs) ->
  loc_of_shr_record (fst (shr mrs e n)) = loc_Exact.
Proof.
  intros Hm Hn Hl Hd.
  assert (L : lost (fst (shr mrs e n)) = false).
  { destruct n as [|p|p]; cbn [shr fst]; try assumption; try lia.
    apply shr_iter_lost; assumption. }
  unfold lost in L. apply orb_false_iff in L.
  destruct (fst (shr mrs e n)) as [m r s]. cbn in L. destruct L as [-> ->].
  reflexivity.
Qed.

Lemma binary_round_aux_value (mz : positive) (ez : Z) :
  let g := Z.log2 (Zpos mz) + 1 + ez in
  let n := g - 53 - ez in
  -1021 <= g -> g < 1024 -> ez <= g - 53 ->
  exists m' e',
    binary_round_aux prec emax false (Zpos mz) ez loc_Exact
    = S754_finite false m' e'
    /\ g - 53 <= e' <= g - 52
    /\ Zpos mz / 2 ^ n <= Zpos m' * 2 ^ (e' - (g - 53)) <= Zpos mz / 2 ^ n + 1
    /\ ((2 ^ n | Zpos mz) -> Zpos m' * 2 ^ (e' - (g - 53)) = Zpos mz / 2 ^ n).
Proof.
  intros g n Hlo Hhi Hez.
  unfold binary_round_aux, shr_fexp.
  rewrite Zdigits2_log2 by lia. fold g.
  rewrite fexp_eq. replace (Z.max (g - 53) (-1074)) with (g - 53) by lia.
  fold n.
  set (r0 := shr_record_of_loc (Zpos mz) loc_Exact).
  assert (Hn : 0 <= n <= Z.log2 (Zpos mz)) by (unfold n, g; lia).
  destruct (shr_spec r0 ez n) as [Hm1 He1]; [cbn; lia|lia|].
  assert (Hex : (2 ^ n | Zpos mz) ->
                loc_of_shr_record (fst (shr r0 ez n)) = loc_Exact).
  { intros Hd. apply shr_lost; [cbn; lia|lia|reflexivity|exact Hd]. }
  destruct (shr r0 ez n) as [mrs1 e1]. cbn [fst snd] in Hm1, He1, Hex.
  change (shr_m r0) with (Zpos mz) in Hm1, Hex.
  set (m1 := shr_m mrs1) in *.
  assert (Hm1pos : 0 < m1) by (rewrite Hm1; apply div_pow2_pos; lia).
  assert (Hl1 : Z.log2 m1 = 52).
  { rewrite Hm1, log2_div_pow2 by lia. unfold n, g. lia. }
  pose proof (round_nearest_even_bounds m1 (loc_of_shr_record mrs1)) as Hr.
  assert (Hexact : (2 ^ n | Zpos mz) ->
                   round_nearest_even m1 (loc_of_shr_record mrs1) = m1).
  { intros Hd. rewrite (Hex Hd). reflexivity. }
  set (m2 := round_nearest_even m1 (loc_of_shr_record mrs1)) in *.
  assert (Hl2 : 52 <= Z.log2 m2 <= 53).
  { pose proof (log2_succ_range m1 Hm1pos).
    pose proof (Z.log2_le_mono m1 m2). pose proof (Z.log2_le_mono m2 (m1 + 1)). lia. }
  rewrite Zdigits2_log2 by lia.
  rewrite fexp_eq.
  replace (Z.max (Z.log2 m2 + 1 + e1 - 53) (-1074)) with (Z.log2 m2 + 1 + e1 - 53) by lia.
  set (r2 := shr_record_of_loc m2 loc_Exact).
  set (n2 := Z.log2 m2 + 1 + e1 - 53 - e1).
  assert (Hn2 : n2 = Z.log2 m2 - 52) by (unfold n2; lia).
  destruct (shr_spec r2 e1 n2) as [Hm3 He3]; [cbn; lia|lia|].
  destruct (shr r2 e1 n2) as [mrs3 e3].
  cbn [fst snd] in Hm3, He3. change (shr_m r2) with m2 in Hm3.
  assert (Hm3pos : 0 < shr_m mrs3) by (rewrite Hm3; apply div_pow2_pos; lia).
  assert (Hm2 : shr_m mrs3 * 2 ^ n2 = m2).
  { rewrite Hm3. destruct (Z.eq_dec (Z.log2 m2) 52) as [E|E].
    - replace n2 with 0 by lia. rewrite Z.pow_0_r, Z.div_1_r. lia.
    - replace n2 with 1 by lia. rewrite Z.pow_1_r.
      assert (m2 = 2 ^ 53).
      { assert (2 ^ 53 <= m2).
        { replace 53 with (Z.log2 m2) by lia. apply Z.log2_spec. lia. }
        assert (m1 < 2 ^ 53).
        { replace 53 with (Z.succ (Z.log2 m1)) by lia. apply Z.log2_spec. lia. }
        lia. }
      subst m2. replace (2 ^ 53) with (2 ^ 52 * 2) in * by reflexivity.
      rewrite H. rewrite Z.div_mul by lia. reflexivity. }
  destruct (shr_m mrs3) as [|m3|m3]; try lia.
  replace (e3 <=? emax - prec) with true.
  - exists m3, e3. split; [reflexivity|].
    replace (e3 - (g - 53)) with n2 by lia. rewrite Hm2, <- Hm1.
    split; [lia|]. split; [exact Hr|exact Hexact].
  - symmetry. apply Z.leb_le. change (emax - prec) with 971. lia.
Qed.

Lemma binary_round_value (m : positive) (e : Z) :
  let g := mag m e in
  -1021 <= g -> g < 1024 -> -1074 <= e ->
  exists m' e',
    binary_round prec emax false m e = S754_finite false m' e'
    /\ -1074 <= e'
    /\ (forall u, sv m e <= u * 2 ^ (g - 53 + 1074) ->
                  sv m' e' <= u * 2 ^ (g - 53 + 1074))
    /\ (forall l, l * 2 ^ (g - 53 + 1074) <= sv m e ->
                  l * 2 ^ (g - 53 + 1074) <= sv m' e').
Proof.
  intros g Hlo Hhi He. unfold mag in g. unfold sv. unfold binary_round.
  rewrite digits2_log2, fexp_eq. fold g.
  replace (Z.max (g - 53) (-1074)) with (g - 53) by lia.
  assert (PK : 0 < 2 ^ (g - 53 + 1074)) by (apply Z.pow_pos_nonneg; lia).
  destruct (Z_le_gt_dec (g - 53) e) as [Hle|Hgt].
  - destruct (shl_align_spec m e (g - 53) Hle) as [Hm Hz].
    destruct (shl_align m e (g - 53)) as [mz ez]. cbn [fst snd] in Hm, Hz.
    subst ez.
    assert (Hlog : Z.log2 (Zpos mz) = Z.log2 (Zpos m) + (e - (g - 53))).
    { rewrite Hm, Z.log2_mul_pow2 by lia. lia. }
    destruct (binary_round_aux_value mz (g - 53))
      as (m' & e' & Hr & He' & _ & Hex); try (rewrite Hlog; unfold g; lia).
    rewrite Hlog in He', Hex.
    replace (Z.log2 (Zpos m) + (e - (g - 53)) + 1 + (g - 53)) with g
      in He', Hex by (unfold g; lia).
    replace (g - 53 - (g - 53)) with 0 in Hex by lia.
    rewrite Z.pow_0_r, Z.div_1_r in Hex.
    specialize (Hex (Z.divide_1_l _)).
    exists m', e'. split; [exact Hr|]. split; [lia|].
    assert (E : Zpos m' * 2 ^ (e' + 1074) = Zpos m * 2 ^ (e + 1074)).
    { replace (e' + 1074) with ((e' - (g - 53)) + (g - 53 + 1074)) by lia.
      rewrite Z.pow_add_r, Z.mul_assoc, Hex, Hm by lia.
      rewrite <- Z.mul_assoc, <- Z.pow_add_r by lia. f_equal. f_equal. lia. }
    rewrite E. split; intros ? H; exact H.
  - assert (Hs : shl_align m e (g - 53) = (m, e)).
    { unfold shl_align. destruct (g - 53 - e) eqn:E; try lia; reflexivity. }
    rewrite Hs.
    destruct (binary_round_aux_value m e)
      as (m' & e' & Hr & He' & Hb & Hex); try (fold g; lia).
    fold g in He', Hb, Hex.
    set (n := g - 53 - e) in *.
    set (M2 := Zpos m' * 2 ^ (e' - (g - 53))) in *.
    assert (Pn : 0 < 2 ^ n) by (apply Z.pow_pos_nonneg; lia).
    assert (Pe : 0 < 2 ^ (e + 1074)) by (apply Z.pow_pos_nonneg; lia).
    assert (EK : 2 ^ (g - 53 + 1074) = 2 ^ n * 2 ^ (e + 1074)).
    { rewrite <- Z.pow_add_r by lia. f_equal. lia. }
    assert (E : Zpos m' * 2 ^ (e' + 1074) = M2 * 2 ^ (g - 53 + 1074)).
    { unfold M2. rewrite <- Z.mul_assoc, <- Z.pow_add_r by lia.
      f_equal. f_equal. lia. }
    exists m', e'. split; [exact Hr|]. split; [lia|].
    rewrite E. split.
    + intros u Hu. rewrite EK in Hu.
      assert (Hmu : Zpos m <= u * 2 ^ n) by nia.
      apply Z.mul_le_mono_nonneg_r; [lia|].
      destruct (Z.eq_dec (Zpos m) (u * 2 ^ n)) as [Eq|Ne].
      * rewrite Hex by (exists u; exact Eq).
        rewrite Eq, Z.div_mul by lia. lia.
      * assert (Zpos m / 2 ^ n < u)
          by (apply Z.div_lt_upper_bound; lia).
        lia.
    + intros l Hl. rewrite EK in Hl.
      assert (Hml : l * 2 ^ n <= Zpos m) by nia.
      apply Z.mul_le_mono_nonneg_r; [lia|].
      assert (l <= Zpos m / 2 ^ n)
        by (apply Z.div_le_lower_bound; lia).
      lia.
Qed.

(** Valid positive floats are ordered as their values. *)
Lemma SFltb_by_value (mx my : positive) (ex ey : Z) :
  valid_binary (S754_finite false mx ex) = true ->
  valid_binary (S754_finite false my ey) = true ->
  sv mx ex < sv my ey ->
  SFltb (S754_finite false mx ex) (S754_finite false my ey) = true.
Proof.
  intros Hx Hy Hlt.
  apply valid_finite in Hx. apply valid_finite in Hy.
  destruct Hx as [Hx _]. destruct Hy as [Hy _]. unfold mag in *.
  unfold SFltb. rewrite SFcompare_pos. unfold sv in Hlt.
  destruct (Z.compare_spec ex ey) as [E|E|E].
  - subst ey.
    assert (P : 0 < 2 ^ (ex + 1074)) by (apply Z.pow_pos_nonneg; lia).
    assert (Zpos mx < Zpos my) by nia.
    assert (C : (mx ?= my)%positive = Lt) by (apply Pos.compare_lt_iff; lia).
    rewrite C. reflexivity.
  - reflexivity.
  - exfalso.
    assert (G : Z.log2 (Zpos my) + 1 + ey <= Z.log2 (Zpos mx) + ex) by lia.
    assert (Lx : 2 ^ (Z.log2 (Zpos mx)) <= Zpos mx)
      by (apply Z.log2_spec; lia).
    assert (Ly : Zpos my < 2 ^ (Z.succ (Z.log2 (Zpos my))))
      by (apply Z.log2_spec; lia).
    pose proof (Z.log2_nonneg (Zpos mx)). pose proof (Z.log2_nonneg (Zpos my)).
    assert (Px : 0 < 2 ^ (ex + 1074)) by (apply Z.pow_pos_nonneg; lia).
    assert (Py : 0 < 2 ^ (ey + 1074)) by (apply Z.pow_pos_nonneg; lia).
    assert (A : 2 ^ (Z.log2 (Zpos mx) + (ex + 1074)) <= Zpos mx * 2 ^ (ex + 1074)).
    { rewrite (Z.pow_add_r 2 (Z.log2 (Zpos mx)) (ex + 1074)) by lia. nia. }
    assert (B : Zpos my * 2 ^ (ey + 1074)
                < 2 ^ (Z.succ (Z.log2 (Zpos my)) + (ey + 1074))).
    { rewrite (Z.pow_add_r 2 (Z.succ (Z.log2 (Zpos my))) (ey + 1074)) by lia.
      nia. }
    assert (C : 2 ^ (Z.succ (Z.log2 (Zpos my)) + (ey + 1074))
                <= 2 ^ (Z.log2 (Zpos mx) + (ex + 1074)))
      by (apply Z.pow_le_mono_r; lia).
    lia.
Qed.

Lemma one_minus_at_most_one (P : spec_float) :
  valid_binary P = true ->
  SFleb (S754_zero false) P = true ->
  SFleb P SF_one = true ->
  at_most_one (SF64sub SF_one P).
Proof.
  intros Hv H0 H1.
  destruct P as [s|s| |s m e]; try discriminate.
  - cbn. split; [lia|]. apply Z.leb_le. vm_compute. reflexivity.
  - destruct s; discriminate.
  - destruct s; [discriminate|].
    apply valid_finite in Hv. destruct Hv as [He _]. unfold mag in He.
    assert (Hm : Zpos m < 2 ^ 53).
    { assert (Z.log2 (Zpos m) < 53) by lia.
      apply Z.log2_lt_pow2; lia. }
    destruct (leb_one_bound m e Hm H1) as [Hle Hmle].
    unfold SF64sub, SFsub, SF_one. cbv zeta.
    replace (Z.min (-52) e) with e by lia.
    destruct (shl_align_spec 4503599627370496 (-52) e Hle) as [Ha _].
    destruct (shl_align_spec m e e (Z.le_refl e)) as [Hb _].
    unfold cond_Zopp. rewrite Ha, Hb.
    replace (e - e) with 0 by lia.
    change (Zpos 4503599627370496) with (2 ^ 52).
    rewrite <- Z.pow_add_r by lia. replace (52 + (-52 - e)) with (- e) by lia.
    rewrite Z.pow_0_r, Z.mul_1_r.
    destruct (2 ^ (- e) - Zpos m) as [|d|d] eqn:D; try lia.
    + exact I.
    + cbv beta iota delta [binary_normalize].
      assert (Hup : Z.log2 (Zpos d) <= - e).
      { rewrite <- (Z.log2_pow2 (- e)) by lia. apply Z.log2_le_mono. lia. }
      assert (Hlow : -1021 <= mag d e).
      { unfold mag. destruct (Z_le_gt_dec (-1022) e) as [G|G].
        - pose proof (Z.log2_nonneg (Zpos d)). lia.
        - assert (2 ^ (- e - 1) <= Zpos d).
          { assert (2 ^ 53 <= 2 ^ (- e - 1)) by (apply Z.pow_le_mono_r; lia).
            assert (2 ^ (- e) = 2 * 2 ^ (- e - 1)).
            { rewrite <- Z.pow_succ_r by lia. f_equal. lia. }
            lia. }
          assert (- e - 1 <= Z.log2 (Zpos d)).
          { rewrite <- (Z.log2_pow2 (- e - 1)) by lia. apply Z.log2_le_mono. lia. }
          lia. }
      destruct (binary_round_value d e) as (m' & e' & Hr & He' & Hu & _);
        [exact Hlow|unfold mag; lia|lia|].
      rewrite Hr. cbn [at_most_one]. split; [exact He'|].
      unfold mag in Hu, Hlow.
      set (g := Z.log2 (Zpos d) + 1 + e) in *.
      specialize (Hu (2 ^ (53 - g))).
      rewrite <- Z.pow_add_r in Hu by lia.
      replace (53 - g + (g - 53 + 1074)) with 1074 in Hu by lia.
      apply Hu. unfold sv.
      assert (Pe : 0 < 2 ^ (e + 1074)) by (apply Z.pow_pos_nonneg; lia).
      assert (E : 2 ^ 1074 = 2 ^ (- e) * 2 ^ (e + 1074)).
      { rewrite <- Z.pow_add_r by lia. f_equal. lia. }
      rewrite E. apply Z.mul_le_mono_nonneg_r; lia.
Qed.

Lemma add_const_value (mc : positive) (ec k C : Z) (A : spec_float) :
  valid_binary A = true -> small_nonneg 2 A -> at_most_one A ->
  -51 <= ec <= 2 -> 2 <= k <= 52 ->
  2 ^ (k - ec) <= Zpos mc -> Zpos mc + 2 ^ (2 - ec) <= 2 ^ (k + 1 - ec) ->
  sv mc ec = C * 2 ^ 1074 ->
  between C (SF64add (S754_finite false mc ec) A).
Proof.
  intros Hv Hs H1 Hec Hk Hlo Hhi HC.
  assert (P2 : 0 < 2 ^ (2 - ec)) by (apply Z.pow_pos_nonneg; lia).
  assert (PS : 0 < 2 ^ 1074) by (apply Z.pow_pos_nonneg; lia).
  destruct A as [s|s| |s ma ea]; cbn [small_nonneg at_most_one] in Hs, H1;
    try contradiction.
  - cbn [SF64add SFadd between]. split; [lia|]. rewrite HC. lia.
  - destruct s; [contradiction|]. destruct H1 as [Hea1 H1].
    apply valid_finite in Hv. destruct Hv as [Hea _].
    assert (Hle : ea <= ec) by lia.
    unfold SF64add, SFadd. cbv zeta.
    replace (Z.min ec ea) with ea by lia.
    destruct (shl_align_spec mc ec ea Hle) as [Ha _].
    destruct (shl_align_spec ma ea ea (Z.le_refl ea)) as [Hb _].
    unfold cond_Zopp. rewrite Ha, Hb.
    replace (ea - ea) with 0 by lia. rewrite Z.pow_0_r, Z.mul_1_r.
    set (t := ec - ea) in *.
    assert (Pt : 0 < 2 ^ t) by (apply Z.pow_pos_nonneg; lia).
    assert (Hma : Zpos ma < 2 ^ (2 - ec) * 2 ^ t).
    { rewrite <- Z.pow_add_r by lia. unfold mag in Hs.
      assert (Z.log2 (Zpos ma) < 2 - ec + t) by lia.
      apply Z.log2_lt_pow2; lia. }
    assert (L1 : 2 ^ (k - ea) <= Zpos mc * 2 ^ t + Zpos ma).
    { replace (k - ea) with (k - ec + t) by lia. rewrite Z.pow_add_r by lia. nia. }
    assert (L2 : Zpos mc * 2 ^ t + Zpos ma < 2 ^ Z.succ (k - ea)).
    { replace (Z.succ (k - ea)) with (k + 1 - ec + t) by lia.
      rewrite Z.pow_add_r by lia. nia. }
    assert (SV : (Zpos mc * 2 ^ t + Zpos ma) * 2 ^ (ea + 1074)
                 = sv mc ec + sv ma ea).
    { unfold sv. rewrite Z.mul_add_distr_r. f_equal.
      rewrite <- Z.mul_assoc, <- Z.pow_add_r by lia. f_equal. f_equal.
      unfold t. lia. }
    destruct (Zpos mc * 2 ^ t + Zpos ma) as [|d|d] eqn:D; try lia.
    cbv beta iota delta [binary_normalize].
    assert (Hlog : Z.log2 (Zpos d) = k - ea).
    { apply Z.log2_unique; [lia|]. split; assumption. }
    destruct (binary_round_value d ea) as (m' & e' & Hr & He' & Hu & Hl);
      [unfold mag; lia|unfold mag; lia|lia|].
    rewrite Hr. cbn [between]. split; [exact He'|].
    unfold mag in Hu, Hl. rewrite Hlog in Hu, Hl.
    replace (k - ea + 1 + ea - 53 + 1074) with (k - 52 + 1074) in Hu, Hl by lia.
    fold (sv d ea) in SV.
    assert (EK : 2 ^ 1074 = 2 ^ (52 - k) * 2 ^ (k - 52 + 1074)).
    { rewrite <- Z.pow_add_r by lia. f_equal. lia. }
    split.
    + specialize (Hl (C * 2 ^ (52 - k))).
      rewrite <- Z.mul_assoc, <- EK in Hl. apply Hl.
      rewrite SV, HC. unfold sv. lia.
    + specialize (Hu ((C + 1) * 2 ^ (52 - k))).
      rewrite <- Z.mul_assoc, <- EK in Hu. apply Hu.
      rewrite SV, HC. lia.
Qed.

End FloatValueBounds.

(** ** The ranking of zones by difficulty *)

Module WeightRanking.
Import FloatFacts FloatBounds FloatValues FloatValueBounds WeightOrder
  WeightFacts Behaviour.

Lemma one_minus_facts (q : float) :
  Spec.in_unit_interval q ->
  valid_binary (Prim2SF (1 - q)) = true
  /\ small_nonneg 2 (Prim2SF (1 - q))
  /\ at_most_one (Prim2SF (1 - q)).
Proof.
  intros [H0 H1]. destruct (one_minus_prim q H0 H1) as [Hv Hs].
  repeat split; try assumption.
  rewrite sub_spec. rewrite leb_spec in H0, H1.
  apply one_minus_at_most_one; [apply Prim2SF_valid|exact H0|exact H1].
Qed.

(** For a progress in [0, 1], the float [m * 8 + (1 - progress)] lies
    between [m * 8] and [m * 8 + 1]. *)
Lemma base_between (d : Z) (q : float) :
  1 <= d <= 4 -> Spec.in_unit_interval q ->
  between (Spec.multiplier d * 8)
    (Prim2SF (Spec.float_of_small (Spec.multiplier d * 8) + (1 - q))).
Proof.
  intros Hd Hq. destruct (one_minus_facts q Hq) as (Hv & Hs & H1).
  rewrite add_spec.
  destruct (difficulty_cases d Hd) as [->|[->|[->| ->]]].
  - change (Prim2SF (Spec.float_of_small (Spec.multiplier 1 * 8))) with SF_16.
    apply (add_const_value 4503599627370496 (-48) 4 16); try assumption;
      try lia; try (apply Z.leb_le; vm_compute; reflexivity).
    vm_compute. reflexivity.
  - change (Prim2SF (Spec.float_of_small (Spec.multiplier 2 * 8))) with SF_32.
    apply (add_const_value 4503599627370496 (-47) 5 32); try assumption;
      try lia; try (apply Z.leb_le; vm_compute; reflexivity).
    vm_compute. reflexivity.
  - change (Prim2SF (Spec.float_of_small (Spec.multiplier 3 * 8))) with SF_64.
    apply (add_const_value 4503599627370496 (-46) 6 64); try assumption;
      try lia; try (apply Z.leb_le; vm_compute; reflexivity).
    vm_compute. reflexivity.
  - change (Prim2SF (Spec.float_of_small (Spec.multiplier 4 * 8))) with SF_800.
    apply (add_const_value 7036874417766400 (-43) 9 800); try assumption;
      try lia; try (apply Z.leb_le; vm_compute; reflexivity).
    vm_compute. reflexivity.
Qed.

Lemma finite_not_nan (f : float) (s : bool) (m : positive) (e : Z) :
  Prim2SF f = S754_finite s m e -> PrimFloat.is_nan f = false.
Proof.
  intros E. unfold PrimFloat.is_nan. rewrite eqb_spec, E.
  unfold SFeqb. destruct s; cbn [SFcompare];
    rewrite Z.compare_refl;
    change (Pos.compare_cont Eq m m) with (Pos.compare m m);
    rewrite Pos.compare_refl; reflexivity.
Qed.

Lemma between_not_nan (C : Z) (f : float) :
  between C (Prim2SF f) -> PrimFloat.is_nan f = false.
Proof.
  destruct (Prim2SF f) as [s|s| |s m e] eqn:E; cbn [between];
    try contradiction.
  intros _. exact (finite_not_nan f s m e E).
Qed.

(** Floats in separate unit intervals are ordered as the intervals. *)
Lemma between_lt (Cx Cy : Z) (x y : float) :
  between Cx (Prim2SF x) -> between Cy (Prim2SF y) -> Cx + 1 < Cy ->
  num_lt (NFloat x) (NFloat y) = true.
Proof.
  intros Hx Hy Hlt. unfold num_lt, num_compare.
  pose proof (Prim2SF_valid x) as Vx. pose proof (Prim2SF_valid y) as Vy.
  destruct (Prim2SF x) as [|s| |[] mx ex]; cbn [between] in Hx;
    try contradiction.
  destruct (Prim2SF y) as [|s| |[] my ey]; cbn [between] in Hy;
    try contradiction.
  assert (P : 0 < 2 ^ 1074) by (apply Z.pow_pos_nonneg; lia).
  assert (Hsv : sv mx ex < sv my ey) by nia.
  pose proof (SFltb_by_value mx my ex ey Vx Vy Hsv) as H.
  unfold SFltb in H.
  destruct (SFcompare (S754_finite false mx ex) (S754_finite false my ey))
    as [[]|]; try discriminate H. reflexivity.
Qed.

(** The exact comparison of an integer with a positive float compares the
    scaled values. *)
Lemma Z_compare_float_sv (z : Z) (f : float) (m : positive) (e : Z) :
  Prim2SF f = S754_finite false m e -> -1074 <= e ->
  Z_compare_float z f = Some (z * 2 ^ 1074 ?= sv m e).
Proof.
  intros E He. unfold Z_compare_float, sv. rewrite E. f_equal.
  assert (Hc : forall a b c, 0 < c -> (a * c ?= b * c) = (a ?= b)).
  { intros a b c Hc. destruct (Z.compare_spec a b) as [->|H|H].
    - apply Z.compare_refl.
    - apply Z.compare_lt_iff. nia.
    - apply Z.compare_gt_iff. nia. }
  destruct (Z.leb_spec 0 e) as [H|H].
  - replace (e + 1074) with (e + 1074)%Z by reflexivity.
    rewrite (Z.pow_add_r 2 e 1074) by lia.
    rewrite Z.mul_assoc.
    rewrite Hc by (apply Z.pow_pos_nonneg; lia).
    reflexivity.
  - replace 1074 with (- e + (e + 1074)) at 1 by lia.
    rewrite (Z.pow_add_r 2 (- e) (e + 1074)) by lia.
    rewrite Z.mul_assoc.
    rewrite Hc by (apply Z.pow_pos_nonneg; lia).
    reflexivity.
Qed.

(** The weight of a valid pairing is the [int] 0 or a float within one of
    [m * 8]. *)
Lemma valid_weight (pd : PlanetDetails.t) (pos ty : pyval) (d : Z)
    (c : bool) (q : float) (w : num) :
  1 <= d <= 4 -> Spec.in_unit_interval q ->
  PlanetZoneTuple.weight
    (PlanetZoneTuple.Build pd (Spec.typed_zone pos ty d c q)) = Ok w ->
  w = NInt 0
  \/ exists f, w = NFloat f /\ between (Spec.multiplier d * 8) (Prim2SF f).
Proof.
  intros Hd Hq Hw. rewrite weight_typed in Hw.
  destruct c; [left; congruence|].
  destruct ((d =? 3) && (float_0_95 <=? q)%float); [left; congruence|].
  destruct ((d =? 2) && (float_0_96 <=? q)%float); [left; congruence|].
  right. pose proof (base_between d q Hd Hq) as Hb.
  destruct (difficulty_cases d Hd) as [->|[->|[->| ->]]];
    cbn [find fst snd option_map PlanetZoneTuple.multipliers Z.eqb Pos.eqb]
      in Hw;
    rewrite ?float_of_Z_16, ?float_of_Z_32, ?float_of_Z_64, ?float_of_Z_800
      in Hw;
    cbn [rbind] in Hw; injection Hw as <-; eexists; (split; [reflexivity|]);
    exact Hb.
Qed.

(** X7.  For a zone with a difficulty among 1, 2, 3, 4 and a progress in
    [0, 1], a weight other than zero lies between [m * 8] and [m * 8 + 1]
    for the multiplier m of the difficulty, and is not a NaN: the
    difficulty decides, the progress only orders the zones of one
    difficulty. *)
Theorem weight_within_tier (pd : PlanetDetails.t) (pos ty : pyval) (d : Z)
    (c : bool) (q : float) (w : num) :
  1 <= d <= 4 -> Spec.in_unit_interval q ->
  PlanetZoneTuple.weight
    (PlanetZoneTuple.Build pd (Spec.typed_zone pos ty d c q)) = Ok w ->
  num_eq w (NInt 0) = false ->
  num_lt w (NInt (Spec.multiplier d * 8)) = false
  /\ num_lt (NInt (Spec.multiplier d * 8 + 1)) w = false
  /\ Spec.num_is_nan w = false.
Proof.
  intros Hd Hq Hw Hnz.
  destruct (valid_weight pd pos ty d c q w Hd Hq Hw) as [->|(f & -> & Hb)];
    [discriminate Hnz|].
  split; [|split]; [| |exact (between_not_nan _ f Hb)].
  - unfold num_lt, num_compare.
    destruct (Prim2SF f) as [|s| |[] m e] eqn:E; cbn [between] in Hb;
      try contradiction.
    destruct Hb as (He & Hlo & Hhi).
    rewrite (Z_compare_float_sv _ f m e E He). cbn [option_map].
    destruct (Z.compare_spec (Spec.multiplier d * 8 * 2 ^ 1074) (sv m e));
      try reflexivity. lia.
  - unfold num_lt, num_compare.
    destruct (Prim2SF f) as [|s| |[] m e] eqn:E; cbn [between] in Hb;
      try contradiction.
    destruct Hb as (He & Hlo & Hhi).
    rewrite (Z_compare_float_sv _ f m e E He).
    destruct (Z.compare_spec ((Spec.multiplier d * 8 + 1) * 2 ^ 1074)
                (sv m e)); try reflexivity. lia.
Qed.

Lemma weight_within_tier_witness :
  num_lt (NFloat 64.5) (NInt (Spec.multiplier 3 * 8)) = false
  /\ num_lt (NInt (Spec.multiplier 3 * 8 + 1)) (NFloat 64.5) = false
  /\ Spec.num_is_nan (NFloat 64.5) = false.
Proof.
  apply (weight_within_tier Examples.earth (PyInt 7) (PyInt 3) 3 false 0.5).
  - lia.
  - split; reflexivity.
  - reflexivity.
  - reflexivity.
Defined.

Lemma multiplier_increasing (d1 d2 : Z) :
  1 <= d1 -> d1 < d2 -> d2 <= 4 ->
  Spec.multiplier d1 * 8 + 1 < Spec.multiplier d2 * 8.
Proof.
  intros H1 H12 H2.
  assert (C : (d1 = 1 /\ (d2 = 2 \/ d2 = 3 \/ d2 = 4))
              \/ (d1 = 2 /\ (d2 = 3 \/ d2 = 4)) \/ (d1 = 3 /\ d2 = 4)) by lia.
  destruct C as [[-> [->|[->| ->]]]|[[-> [->| ->]]|[-> ->]]]; reflexivity.
Qed.

Lemma zero_below_between (C : Z) (f : float) :
  between C (Prim2SF f) -> num_lt (NInt 0) (NFloat f) = true.
Proof.
  intros Hb. unfold num_lt, num_compare. rewrite Z0_compare_float.
  destruct (Prim2SF f) as [|s| |[] m e]; cbn [between] in Hb;
    try contradiction.
  reflexivity.
Qed.

(** X8.  With difficulties among 1, 2, 3, 4 and progresses in [0, 1], a
    zone of a higher difficulty whose weight is not zero weighs strictly
    more than every zone of a lower difficulty, whatever the two
    progresses are. *)
Theorem higher_difficulty_outranks (pd1 pd2 : PlanetDetails.t)
    (pos1 ty1 pos2 ty2 : pyval) (d1 d2 : Z) (c1 c2 : bool) (q1 q2 : float)
    (w1 w2 : num) :
  1 <= d1 -> d1 < d2 -> d2 <= 4 ->
  Spec.in_unit_interval q1 -> Spec.in_unit_interval q2 ->
  PlanetZoneTuple.weight
    (PlanetZoneTuple.Build pd1 (Spec.typed_zone pos1 ty1 d1 c1 q1)) = Ok w1 ->
  PlanetZoneTuple.weight
    (PlanetZoneTuple.Build pd2 (Spec.typed_zone pos2 ty2 d2 c2 q2)) = Ok w2 ->
  num_eq w2 (NInt 0) = false ->
  num_lt w1 w2 = true.
Proof.
  intros H1 H12 H2 Hq1 Hq2 Hw1 Hw2 Hnz.
  destruct (valid_weight pd2 pos2 ty2 d2 c2 q2 w2) as [->|(f2 & -> & Hb2)];
    try assumption; try lia; [discriminate Hnz|].
  destruct (valid_weight pd1 pos1 ty1 d1 c1 q1 w1) as [->|(f1 & -> & Hb1)];
    try assumption; try lia.
  - exact (zero_below_between _ f2 Hb2).
  - apply (between_lt _ _ f1 f2 Hb1 Hb2).
    apply multiplier_increasing; assumption.
Qed.

Lemma higher_difficulty_outranks_witness :
  num_lt (NFloat 17) (NFloat 32.0625) = true.
Proof.
  apply (higher_difficulty_outranks Examples.earth Examples.earth
           (PyInt 1) (PyInt 3) (PyInt 2) (PyInt 3) 1 2 false false 0 0.9375).
  - lia.
  - lia.
  - lia.
  - split; reflexivity.
  - split; reflexivity.
  - reflexivity.
  - reflexivity.
  - reflexivity.
Defined.

End WeightRanking.

(** ** The remote operations and the pauses *)

Module OperationFacts.
Import Env Salians Selector Behaviour.
Local Open Scope env_scope.





Lemma silent_ret {A} (a : A) : silent (ret a).
Proof. intros w. reflexivity. Qed.

Lemma silent_raise {A} (e : exn) : silent (@raise A e).
Proof. intros w. reflexivity. Qed.

Lemma silent_lift {A} (r : result A) : silent (lift r).
Proof. intros w. reflexivity. Qed.

Lemma silent_json_body (r : http_reply) : silent (json_body r).
Proof. intros w. destruct r as [|[v|]]; reflexivity. Qed.

Lemma silent_bind {A B} (c : M A) (k : A -> M B) :
  silent c -> (forall a, silent (k a)) -> silent (bind c k).
Proof.
  intros Hc Hk w. unfold bind. specialize (Hc w).
  destruct (c w) as [[a|e] w1]; cbn [snd] in Hc; subst w1.
  - apply Hk.
  - reflexivity.
Qed.

Ltac silence :=
  repeat first
    [ apply silent_ret | apply silent_raise | apply silent_lift
    | apply silent_json_body
    | apply silent_bind; [|intros ?]
    | match goal with
      | |- silent (if ?b then _ else _) => destruct b
      end ].

Section Bot.

Variable self : Salians.t.
Variable oracle : nat -> http_reply.

Lemma http_sends {A} (m : http_method) (url : text) (data : option text)
    (k : http_reply -> M A) :
  (forall r, silent (k r)) ->
  sends_one_request (bind (http oracle m url data) k).
Proof.
  intros Hk w. exists m, url, data. unfold bind, http.
  destruct (oracle (sent w)) as [|body]; [reflexivity|].
  apply Hk.
Qed.

(** X2.  Each of the seven remote operations sends exactly one request,
    whatever the reply is and whether it returns or raises: none retries,
    logs or sleeps. *)
Theorem one_request_per_operation :
  (forall active_only,
      sends_one_request (_get_planet_summaries self oracle active_only))
  /\ (forall planet_id,
        sends_one_request (_get_planet_details self oracle planet_id))
  /\ sends_one_request (_get_player_info self oracle)
  /\ (forall planet_id,
        sends_one_request (_leave_planet self oracle planet_id))
  /\ (forall planet_id,
        sends_one_request (_join_planet self oracle planet_id))
  /\ (forall zone_position,
        sends_one_request (_join_zone self oracle zone_position))
  /\ (forall score, sends_one_request (_report_score self oracle score)).
Proof.
  repeat split; intros;
    unfold _get_planet_summaries, _get_planet_details, _get_player_info,
      _leave_planet, _join_planet, _join_zone, _report_score;
    apply http_sends; intros r; silence.
Qed.

End Bot.

End OperationFacts.

(** ** The candidates and the choice among them *)

Module SelectionFacts.
Import Env Salians Selector Behaviour FloatFacts WeightOrder.
Local Open Scope env_scope.

Lemma rmap_raise {A B} (f : A -> result B) (l : list A) (e : exn) :
  rmap f l = Raise e ->
  exists before t after,
    l = before ++ t :: after
    /\ Forall (fun x => exists b, f x = Ok b) before
    /\ f t = Raise e.
Proof.
  induction l as [|a l IH]; cbn [rmap]; [discriminate|].
  destruct (f a) as [b|e'] eqn:Ea; cbn [rbind].
  - destruct (rmap f l) as [bs|e'']; cbn [rbind]; [discriminate|].
    intros H. injection H as ->.
    destruct (IH eq_refl) as (before & t & after & -> & Hb & Ht).
    exists (a :: before), t, after. repeat split.
    + constructor; [exists b; exact Ea|exact Hb].
    + exact Ht.
  - intros H. injection H as ->.
    exists [], a, l. repeat split; [constructor|exact Ea].
Qed.

Lemma rmap_combine {A B} (f : A -> result B) (l : list A) (keys : list B) :
  rmap f l = Ok keys -> map snd (combine keys l) = l.
Proof.
  revert keys. induction l as [|a l IH]; intros keys; cbn [rmap].
  - intros H. injection H as <-. reflexivity.
  - destruct (f a) as [b|]; cbn [rbind]; [|discriminate].
    destruct (rmap f l) as [bs|]; cbn [rbind]; [|discriminate].
    intros H. injection H as <-. cbn [combine map snd].
    rewrite (IH bs eq_refl). reflexivity.
Qed.

Lemma select_best_In (zones : list PlanetZoneTuple.t)
    (best : PlanetZoneTuple.t) :
  select_best zones = Ok best -> In best zones.
Proof.
  unfold select_best, sorted.
  destruct (rmap PlanetZoneTuple.weight zones) as [keys|] eqn:E;
    cbn [rbind]; [|discriminate].
  unfold last_item.
  destruct (rev (map snd (sort (combine keys zones)))) as [|x l] eqn:R;
    [discriminate|].
  intros H. injection H as <-.
  rewrite <- (rmap_combine _ _ _ E).
  apply (Permutation_in x
           (Permutation_map snd (SelectorFacts.sort_permutation _))).
  apply in_rev. rewrite R. left. reflexivity.
Qed.

Lemma select_best_raise (zones : list PlanetZoneTuple.t) (e : exn) :
  select_best zones = Raise e ->
  (zones = [] /\ e = IndexError)
  \/ exists before t after,
       zones = before ++ t :: after
       /\ Forall (fun x => exists w, PlanetZoneTuple.weight x = Ok w) before
       /\ PlanetZoneTuple.weight t = Raise e.
Proof.
  unfold select_best, sorted.
  destruct (rmap PlanetZoneTuple.weight zones) as [keys|e'] eqn:E;
    cbn [rbind].
  - unfold last_item.
    destruct (rev (map snd (sort (combine keys zones)))) as [|x l] eqn:R;
      [|discriminate].
    intros H. injection H as <-. left. split; [|reflexivity].
    rewrite <- (rmap_combine _ _ _ E).
    apply Permutation_nil.
    rewrite <- (Permutation_map snd (SelectorFacts.sort_permutation _)).
    rewrite <- (rev_involutive (map snd _)), R. reflexivity.
  - intros H. injection H as <-. right. exact (rmap_raise _ _ _ E).
Qed.

(** X4.  The selector returns one of the pairings it is given.  It fails
    on the empty list, with [IndexError], and otherwise only when the
    weight of a pairing is undefined: with the error of the first such
    pairing, whatever the other pairings are. *)
Theorem select_best_outcome (zones : list PlanetZoneTuple.t) :
  match select_best zones with
  | Ok best => In best zones
  | Raise e =>
      (zones = [] /\ e = IndexError)
      \/ exists before t after,
           zones = before ++ t :: after
           /\ Forall (fun x => exists w, PlanetZoneTuple.weight x = Ok w)
                before
           /\ PlanetZoneTuple.weight t = Raise e
  end.
Proof.
  destruct (select_best zones) as [best|e] eqn:E.
  - exact (select_best_In zones best E).
  - exact (select_best_raise zones e E).
Qed.

Section Bot.

Variable self : Salians.t.
Variable oracle : nat -> http_reply.

Lemma planet_details_sent (planet_id : Z) (w : world) :
  sent (snd (_get_planet_details self oracle planet_id w)) = S (sent w).
Proof.
  unfold _get_planet_details.
  match goal with
  | |- context [bind (http oracle ?m ?url ?data) ?k] =>
      destruct (OperationFacts.http_sends oracle m url data k) with (w := w)
        as (m' & url' & data' & ->)
  end; [|reflexivity].
  intros r. OperationFacts.silence.
Qed.

Lemma get_zones_from_run (summaries : list PlanetSummary.t) :
  forall (acc : list PlanetZoneTuple.t) (w : world),
    match get_zones_from self oracle summaries acc w with
    | (Ok zones, w') =>
        exists details,
          List.length details = List.length summaries
          /\ zones = acc ++ pairings details
          /\ sent w' = (sent w + List.length summaries)%nat
    | (Raise _, w') =>
        (sent w < sent w' <= sent w + List.length summaries)%nat
    end.
Proof.
  induction summaries as [|s summaries IH]; intros acc w;
    cbn [get_zones_from].
  - unfold ret. exists []. cbn. rewrite app_nil_r. repeat split. lia.
  - unfold bind at 1.
    pose proof (planet_details_sent (PlanetSummary.id s) w) as Hs.
    destruct (_get_planet_details self oracle (PlanetSummary.id s) w)
      as [[d|e] w1]; cbn [snd] in Hs.
    + specialize (IH (acc ++ map (PlanetZoneTuple.Build d)
                                 (PlanetDetails.zones d)) w1).
      destruct (get_zones_from self oracle summaries _ w1) as [[zones|e] w'].
      * destruct IH as (details & Hl & -> & Hn).
        exists (d :: details). cbn [List.length pairings flat_map].
        fold (pairings details). rewrite <- app_assoc.
        repeat split; lia.
      * cbn [List.length]. lia.
    + cbn [List.length]. lia.
Qed.

Lemma http_world {A} (m : http_method) (url : text) (data : option text)
    (k : http_reply -> M A) (w : world) :
  (forall r, silent (k r)) ->
  snd (bind (http oracle m url data) k w)
  = World (S (sent w)) (trace w ++ [Request m url data]).
Proof.
  intros Hk. unfold bind, http.
  destruct (oracle (sent w)) as [|body]; [reflexivity|].
  apply Hk.
Qed.

Lemma planet_details_world (planet_id : Z) (w : world) :
  snd (_get_planet_details self oracle planet_id w)
  = World (S (sent w)) (trace w ++ [planet_details_request self planet_id]).
Proof.
  unfold _get_planet_details, planet_details_request.
  apply http_world. intros r. OperationFacts.silence.
Qed.

Lemma planet_summaries_world (active_only : Z) (w : world) :
  snd (_get_planet_summaries self oracle active_only w)
  = World (S (sent w))
      (trace w ++ [planet_summaries_request self active_only]).
Proof.
  unfold _get_planet_summaries, planet_summaries_request.
  apply http_world. intros r. OperationFacts.silence.
Qed.

(** The loop of [get_zones] fetches the details of each summary in turn
    and appends the pairings of each planet. *)
Lemma get_zones_from_fetched (summaries : list PlanetSummary.t) :
  forall (acc zones : list PlanetZoneTuple.t) (w w' : world),
    get_zones_from self oracle summaries acc w = (Ok zones, w') ->
    exists details,
      fetched self oracle summaries w details w'
      /\ zones = acc ++ pairings details
      /\ w' = World (sent w + List.length summaries)
                (trace w
                 ++ map (fun s => planet_details_request self
                                    (PlanetSummary.id s)) summaries).
Proof.
  induction summaries as [|s summaries IH]; intros acc zones w w';
    cbn [get_zones_from].
  - unfold ret. intros H. injection H as <- <-. exists [].
    cbn [fetched pairings flat_map map List.length].
    rewrite !app_nil_r, Nat.add_0_r. destruct w. repeat split.
  - intros H. apply LoopFacts.bind_ok_inv in H.
    destruct H as (d & w1 & Hd & H).
    pose proof (planet_details_world (PlanetSummary.id s) w) as Hw.
    rewrite Hd in Hw. cbn [snd] in Hw.
    destruct (IH _ _ _ _ H) as (details & Hf & -> & ->).
    exists (d :: details). cbn [fetched pairings flat_map map List.length].
    fold (pairings details). rewrite <- app_assoc. split; [|split].
    + exists w1. split; [exact Hd|exact Hf].
    + reflexivity.
    + rewrite Hw. cbn [sent trace]. rewrite <- app_assoc. cbn [app].
      f_equal. lia.
Qed.

Lemma fetched_get_zones_from (summaries : list PlanetSummary.t) :
  forall (acc : list PlanetZoneTuple.t) (details : list PlanetDetails.t)
         (w w' : world),
    fetched self oracle summaries w details w' ->
    get_zones_from self oracle summaries acc w
    = (Ok (acc ++ pairings details), w').
Proof.
  induction summaries as [|s summaries IH]; intros acc [|d details] w w';
    cbn [fetched get_zones_from]; try contradiction.
  - intros ->. cbn [pairings flat_map]. rewrite app_nil_r. reflexivity.
  - intros (w1 & Hd & Hf).
    erewrite LoopFacts.bind_run by exact Hd.
    rewrite (IH _ details w1 w' Hf). cbn [pairings flat_map].
    fold (pairings details). rewrite <- app_assoc. reflexivity.
Qed.

(** X5.  [get_zones] returns a list exactly when the planet listing is
    obtained and the details of every listed planet are obtained, asked
    for planet after planet in the order of the listing, by the id of each
    summary.  The list then holds the zones of these planets, each paired
    with the details of its own planet, in that same order; and what has
    been done is the listing request followed by one details request per
    listed planet, in the order of the listing, and nothing else. *)
Theorem get_zones_collects (w w' : world)
    (zones : list PlanetZoneTuple.t) :
  (get_zones self oracle w = (Ok zones, w') ->
   exists summaries w1 details,
     _get_planet_summaries self oracle 1 w = (Ok summaries, w1)
     /\ fetched self oracle summaries w1 details w'
     /\ zones = pairings details
     /\ w' = World (sent w + 1 + List.length summaries)
               (trace w
                ++ planet_summaries_request self 1
                   :: map (fun s => planet_details_request self
                                      (PlanetSummary.id s)) summaries))
  /\ (forall summaries w1 details,
        _get_planet_summaries self oracle 1 w = (Ok summaries, w1) ->
        fetched self oracle summaries w1 details w' ->
        zones = pairings details ->
        get_zones self oracle w = (Ok zones, w')).
Proof.
  unfold get_zones. split.
  - intros H. apply LoopFacts.bind_ok_inv in H.
    destruct H as (summaries & w1 & Hs & H).
    pose proof (planet_summaries_world 1 w) as Hw.
    rewrite Hs in Hw. cbn [snd] in Hw.
    destruct (get_zones_from_fetched summaries _ _ _ _ H)
      as (details & Hf & -> & ->).
    exists summaries, w1, details. repeat split; try assumption.
    rewrite Hw. cbn [sent trace]. rewrite <- app_assoc. cbn [app].
    f_equal. lia.
  - intros summaries w1 details Hs Hf ->.
    erewrite LoopFacts.bind_run by exact Hs.
    exact (fetched_get_zones_from summaries [] details w1 w' Hf).
Qed.

Lemma pairings_zone (details : list PlanetDetails.t)
    (t : PlanetZoneTuple.t) :
  In t (pairings details) ->
  In (PlanetZoneTuple.planet_details t) details
  /\ In (PlanetZoneTuple.zone t)
       (PlanetDetails.zones (PlanetZoneTuple.planet_details t)).
Proof.
  unfold pairings. intros H. apply in_flat_map in H.
  destruct H as (d & Hd & Ht). apply in_map_iff in Ht.
  destruct Ht as (z & <- & Hz). split; assumption.
Qed.

(** X6.  The zone that [_find_best_zone_position] returns is a zone of the
    planet it is paired with: the bot never joins a planet for a zone of
    another one. *)
Theorem best_zone_is_on_its_planet (w w' : world)
    (planet_zone : PlanetZoneTuple.t) :
  _find_best_zone_position self oracle w = (Ok planet_zone, w') ->
  In (PlanetZoneTuple.zone planet_zone)
     (PlanetDetails.zones (PlanetZoneTuple.planet_details planet_zone)).
Proof.
  unfold _find_best_zone_position. intros H.
  apply LoopFacts.bind_ok_inv in H. destruct H as (zones & w1 & Hz & Hb).
  unfold lift in Hb. injection Hb as Hb _.
  apply select_best_In in Hb.
  unfold get_zones in Hz. apply LoopFacts.bind_ok_inv in Hz.
  destruct Hz as (summaries & w0 & _ & Hz).
  pose proof (get_zones_from_run summaries [] w0) as Hc. rewrite Hz in Hc.
  destruct Hc as (details & _ & -> & _).
  exact (proj2 (pairings_zone details planet_zone Hb)).
Qed.

End Bot.

End SelectionFacts.

(** ** The choice by tier, and the edges of the weight function *)

Module TierFacts.
Import Selector Behaviour FloatFacts FloatValues WeightOrder WeightFacts
  WeightRanking.

(** Case analysis on the tests of a hypothesis, innermost first. *)
Ltac cases_of H :=
  repeat match type of H with
    | context [match ?x with _ => _ end] =>
        lazymatch x with
        | context [match _ with _ => _ end] => fail
        | _ => destruct x
        end
    end.

(** The selector returns a pairing that no pairing outweighs. *)
Lemma select_best_max (zones : list PlanetZoneTuple.t) :
  zones <> [] ->
  Forall (fun t => exists w, PlanetZoneTuple.weight t = Ok w
                             /\ Spec.num_is_nan w = false) zones ->
  exists best wb,
    select_best zones = Ok best
    /\ In best zones
    /\ PlanetZoneTuple.weight best = Ok wb
    /\ (forall t w, In t zones -> PlanetZoneTuple.weight t = Ok w ->
                    num_lt wb w = false).
Proof.
  intros Hne Hw.
  destruct (SelectorFacts.rmap_keys PlanetZoneTuple.weight zones)
    as (keys & Hr & Hm & Hf).
  { eapply Forall_impl; [|exact Hw]. intros t (w & E & _). exists w. exact E. }
  set (k := combine keys zones) in *.
  rewrite Forall_forall in Hf, Hw.
  assert (Hin : forall y, In y k -> In (snd y) zones).
  { intros y Hy. rewrite <- Hm. apply in_map. exact Hy. }
  assert (Hwv : Forall (fun y => weight_value (fst y)) k).
  { apply Forall_forall. intros y Hy.
    destruct (Hw (snd y) (Hin y Hy)) as (w & E & Hn).
    rewrite (Hf y Hy) in E. injection E as E. rewrite <- E in Hn.
    apply (SelectorFacts.weight_is_weight_value (snd y));
      [apply Hf; exact Hy|exact Hn]. }
  assert (Hk : k <> []).
  { intros E. rewrite E in Hm. cbn in Hm. congruence. }
  destruct (SelectorFacts.sort_last k Hwv Hk)
    as (s & b & before & after & Es & Ek & Hb & Ha & _).
  assert (Hbk : In b k)
    by (rewrite Ek; apply in_or_app; right; left; reflexivity).
  rewrite Forall_forall in Hwv.
  exists (snd b), (fst b). repeat split.
  - unfold select_best, sorted. rewrite Hr. cbn [rbind]. fold k.
    rewrite Es, map_app. apply SelectorFacts.last_item_app.
  - apply Hin. exact Hbk.
  - apply Hf. exact Hbk.
  - intros t w Ht E.
    rewrite <- Hm in Ht. apply in_map_iff in Ht. destruct Ht as (y & <- & Hy).
    rewrite (Hf y Hy) in E. injection E as <-.
    rewrite Ek in Hy. apply in_app_or in Hy. destruct Hy as [Hy|[<-|Hy]].
    + apply Hb. exact Hy.
    + apply num_lt_irrefl. apply Hwv. exact Hbk.
    + assert (Hyk : In y k)
        by (rewrite Ek; apply in_or_app; right; right; exact Hy).
      apply num_lt_asym; [apply Hwv; exact Hyk|apply Hwv; exact Hbk|].
      apply Ha. exact Hy.
Qed.

(** The weight of a valid pairing: defined, not a NaN, and the [int] 0 or
    a float in the unit interval above eight times the multiplier of its
    tier. *)
Lemma valid_pairing_weight (t : PlanetZoneTuple.t) :
  valid_pairing t ->
  1 <= tier t <= 4
  /\ exists w,
      PlanetZoneTuple.weight t = Ok w
      /\ Spec.num_is_nan w = false
      /\ (w = NInt 0
          \/ exists f, w = NFloat f
                       /\ between (Spec.multiplier (tier t) * 8) (Prim2SF f)).
Proof.
  destruct t as [pd z]. intros (pos & ty & d & c & p & Hz & Hd & Hp).
  cbn [PlanetZoneTuple.zone] in Hz. subst z.
  split; [exact Hd|].
  destruct (weight_defined_in_table pd pos ty d c p Hd) as [w Hw].
  exists w. split; [exact Hw|].
  destruct (valid_weight pd pos ty d c p w Hd Hp Hw) as [->|(f & -> & Hb)].
  - split; [reflexivity|left; reflexivity].
  - split; [exact (between_not_nan _ f Hb)|].
    right. exists f. split; [reflexivity|exact Hb].
Qed.

Lemma between_not_zero (C : Z) (f : float) :
  between C (Prim2SF f) -> num_eq (NFloat f) (NInt 0) = false.
Proof.
  intros Hb. unfold num_eq, num_compare. rewrite Z0_compare_float.
  destruct (Prim2SF f) as [|s| |[] m e]; cbn [between] in Hb;
    try contradiction.
  reflexivity.
Qed.

(** X9.  Among pairings that have the types and ranges of the data model,
    when some pairing has a weight other than zero the selector returns
    such a pairing, and one of the highest difficulty among them: a zone
    of a lower tier is never preferred to a playable zone of a higher
    one. *)
Theorem selector_prefers_highest_tier (zones : list PlanetZoneTuple.t) :
  Forall valid_pairing zones ->
  (exists t, In t zones /\ playable t) ->
  exists best,
    select_best zones = Ok best
    /\ In best zones
    /\ playable best
    /\ (forall t, In t zones -> playable t -> tier t <= tier best).
Proof.
  intros Hv (t0 & Ht0 & w0 & Hw0 & Hnz0).
  rewrite Forall_forall in Hv.
  destruct (select_best_max zones) as (best & wb & Hs & Hin & Hwb & Hmax).
  { intros E. rewrite E in Ht0. exact Ht0. }
  { apply Forall_forall. intros t Ht.
    destruct (valid_pairing_weight t (Hv t Ht)) as (_ & w & Hw & Hn & _).
    exists w. split; assumption. }
  destruct (valid_pairing_weight best (Hv best Hin))
    as (Hdb & wb' & Hwb' & _ & Hshape).
  rewrite Hwb in Hwb'. injection Hwb' as <-.
  assert (Hplay : forall t w, In t zones -> PlanetZoneTuple.weight t = Ok w ->
                    num_eq w (NInt 0) = false ->
                    exists f, w = NFloat f
                      /\ between (Spec.multiplier (tier t) * 8) (Prim2SF f)).
  { intros t w Ht Hw Hnz.
    destruct (valid_pairing_weight t (Hv t Ht)) as (_ & w' & Hw' & _ & Hsh).
    rewrite Hw in Hw'. injection Hw' as <-.
    destruct Hsh as [->|Hsh]; [discriminate Hnz|exact Hsh]. }
  destruct (Hplay t0 w0 Ht0 Hw0 Hnz0) as (f0 & -> & Hb0).
  destruct Hshape as [->|(fb & -> & Hbb)].
  { pose proof (Hmax t0 (NFloat f0) Ht0 Hw0) as H.
    rewrite (zero_below_between _ f0 Hb0) in H. discriminate H. }
  exists best. repeat split; try assumption.
  - exists (NFloat fb). split; [exact Hwb|exact (between_not_zero _ fb Hbb)].
  - intros t Ht (w & Hw & Hnz).
    destruct (Hplay t w Ht Hw Hnz) as (f & -> & Hb).
    destruct (valid_pairing_weight t (Hv t Ht)) as (Hd & _).
    destruct (Z.le_gt_cases (tier t) (tier best)) as [Hle|Hgt];
      [exact Hle|].
    pose proof (Hmax t (NFloat f) Ht Hw) as H.
    rewrite (between_lt _ _ fb f Hbb Hb) in H; [discriminate H|].
    apply multiplier_increasing; lia.
Qed.

(** X10.  A captured zone weighs 0 whatever its difficulty and its progress
    are, known or not; only a difficulty that is a JSON array or object
    makes the lookup in the multiplier table raise [TypeError] before
    the flag is read. *)
Theorem captured_weighs_nothing (t : PlanetZoneTuple.t) :
  truthy (Zone.captured (PlanetZoneTuple.zone t)) = true ->
  PlanetZoneTuple.weight t
  = if hashable (Zone.difficulty (PlanetZoneTuple.zone t))
    then Ok (NInt 0) else Raise TypeError.
Proof.
  intros H. unfold PlanetZoneTuple.weight, int_keyed_get.
  destruct (hashable (Zone.difficulty (PlanetZoneTuple.zone t)));
    [|reflexivity].
  destruct (as_num (Zone.difficulty (PlanetZoneTuple.zone t)));
    cbn [rbind]; rewrite H; reflexivity.
Qed.

(** X11.  [weight] raises nothing but [TypeError] (a difficulty that is
    not hashable or not in the table, a progress that is not a number) and
    [OverflowError] (an integer progress beyond the range of [float]). *)
Theorem weight_errors (t : PlanetZoneTuple.t) (e : exn) :
  PlanetZoneTuple.weight t = Raise e -> e = TypeError \/ e = OverflowError.
Proof.
  unfold PlanetZoneTuple.weight, int_keyed_get, py_ge_float, py_float_sub,
    num_to_float, float_of_Z, rbind.
  intros H. cbv zeta in H.
  cases_of H; first [discriminate H | injection H as <-; auto].
Qed.

Lemma find_same_keys {V W} (p : Z -> bool) (keys : list Z)
    (f : Z -> V) (g : Z -> W) :
  find (fun kv => p (fst kv)) (map (fun k => (k, f k)) keys) <> None ->
  find (fun kv => p (fst kv)) (map (fun k => (k, g k)) keys) <> None.
Proof.
  induction keys as [|k keys IH]; cbn [map find fst]; [congruence|].
  destruct (p k); [discriminate|exact IH].
Qed.

(** X12.  A zone with a float weight has a score: the multiplier table of
    [weight] and the score table of [get_difficulty_score] have the same
    keys, so the score reported for a zone chosen with a weight other than
    zero is never [None]. *)
Theorem weighted_zone_has_score (t : PlanetZoneTuple.t) (f : float) :
  PlanetZoneTuple.weight t = Ok (NFloat f) ->
  exists score,
    Zone.get_difficulty_score (PlanetZoneTuple.zone t) = Ok (Some score).
Proof.
  unfold PlanetZoneTuple.weight, Zone.get_difficulty_score, int_keyed_get.
  destruct (hashable (Zone.difficulty (PlanetZoneTuple.zone t)));
    [|discriminate].
  destruct (as_num (Zone.difficulty (PlanetZoneTuple.zone t))) as [n|];
    cbn [rbind].
  - intros H.
    pose proof (find_same_keys (fun k => num_eq (NInt k) n) [1; 2; 3; 4]
                  (fun k => Spec.multiplier k)
                  (fun k => 120 * (5 * 2 ^ (k - 1)))) as Hf.
    cbn [map] in Hf.
    change (Spec.multiplier 1) with 2 in Hf.
    change (Spec.multiplier 2) with 4 in Hf.
    change (Spec.multiplier 3) with 8 in Hf.
    change (Spec.multiplier 4) with 100 in Hf.
    change (120 * (5 * 2 ^ (1 - 1))) with (120 * 5) in Hf.
    change (120 * (5 * 2 ^ (2 - 1))) with (120 * 10) in Hf.
    change (120 * (5 * 2 ^ (3 - 1))) with (120 * 20) in Hf.
    change (120 * (5 * 2 ^ (4 - 1))) with (120 * 40) in Hf.
    fold PlanetZoneTuple.multipliers in Hf.
    destruct (find _ [(1, 120 * 5); (2, 120 * 10); (3, 120 * 20);
                      (4, 120 * 40)]) as [[k v]|].
    + exists v. reflexivity.
    + exfalso. apply Hf; [|reflexivity].
      destruct (find _ PlanetZoneTuple.multipliers); [discriminate|].
      cbn [option_map] in H.
      unfold rbind, py_ge_float, py_float_sub in H.
      cases_of H; discriminate H.
  - intros H. unfold rbind, py_ge_float, py_float_sub in H.
    cases_of H; discriminate H.
Qed.

End TierFacts.

(** ** The moves between planets *)

Module CycleFacts.
Import Env Salians Behaviour.
Local Open Scope env_scope.

Section Bot.

Variable self : Salians.t.
Variable oracle : nat -> http_reply.

Lemma join_planet_run (planet_id : Z) (w : world) :
  _join_planet self oracle planet_id w
  = (match oracle (sent w) with
     | ConnectionFailed => Raise RequestException
     | Response _ => Ok tt
     end,
     World (S (sent w)) (trace w ++ [join_planet_request self planet_id])).
Proof.
  unfold _join_planet, http, bind, join_planet_request.
  destruct (oracle (sent w)); reflexivity.
Qed.

Lemma answered (n : nat) :
  oracle n <> ConnectionFailed ->
  match oracle n with
  | ConnectionFailed => Raise RequestException
  | Response _ => Ok tt
  end = Ok tt.
Proof. destruct (oracle n); [congruence|reflexivity]. Qed.

(** X13.  Between the choice of the zone and the zone join, a cycle whose
    requests are answered does this and nothing else: nothing when the
    player is on the chosen planet (as [is] sees it); otherwise it logs
    and sends the leave request for the player's planet, unless that is
    -1, and then logs and sends the join request for the chosen planet.
    The replies to these two requests are not read. *)
Theorem relocation_steps (w w1 w2 : world) (player_info : PlayerInfo.t)
    (planet_zone : PlanetZoneTuple.t) :
  _get_player_info self oracle w = (Ok player_info, w1) ->
  _find_best_zone_position self oracle
    (World (sent w1) (trace w1 ++ [Log INFO (Object player_info)]))
  = (Ok planet_zone, w2) ->
  let events :=
    relocation_events self (PlayerInfo.active_planet player_info)
      (PlanetZoneTuple.planet_details planet_zone) in
  (forall i, (i < List.length (requests events))%nat ->
             oracle (sent w2 + i)%nat <> ConnectionFailed) ->
  cycle self oracle w
  = after_relocation self oracle player_info planet_zone
      (World (sent w2 + List.length (requests events))
         (trace w2 ++ events)).
Proof.
  intros Hpi Hbest events Hup. unfold cycle.
  erewrite LoopFacts.bind_run by exact Hpi.
  erewrite LoopFacts.bind_run by reflexivity.
  erewrite LoopFacts.bind_run by exact Hbest.
  subst events. unfold relocation_events in *.
  destruct (int_is (PlayerInfo.active_planet player_info)
              (PlanetDetails.id (PlanetZoneTuple.planet_details planet_zone)));
    cbn [negb].
  - erewrite LoopFacts.bind_run by reflexivity.
    cbn [requests filter List.length]. rewrite Nat.add_0_r, app_nil_r.
    destruct w2. reflexivity.
  - destruct (int_is (PlayerInfo.active_planet player_info) (-1));
      cbn [negb].
    + cbn [app requests filter is_request List.length join_planet_request]
        in *.
      pose proof (Hup 0%nat ltac:(lia)) as H0. rewrite Nat.add_0_r in H0.
      erewrite LoopFacts.bind_run.
      2:{ erewrite LoopFacts.bind_run by reflexivity.
          erewrite LoopFacts.bind_run by reflexivity.
          rewrite join_planet_run. cbn [sent trace].
          rewrite (answered _ H0). reflexivity. }
      rewrite <- app_assoc. rewrite Nat.add_1_r. reflexivity.
    + cbn [app requests filter is_request List.length Spec.info
           Spec.leave_request join_planet_request] in *.
      pose proof (Hup 0%nat ltac:(lia)) as H0. rewrite Nat.add_0_r in H0.
      pose proof (Hup 1%nat ltac:(lia)) as H1. rewrite Nat.add_1_r in H1.
      erewrite LoopFacts.bind_run.
      2:{ erewrite LoopFacts.bind_run.
          2:{ erewrite LoopFacts.bind_run by reflexivity.
              rewrite LoopFacts.leave_planet_run. cbn [sent trace].
              rewrite (answered _ H0). reflexivity. }
          erewrite LoopFacts.bind_run by reflexivity.
          rewrite join_planet_run. cbn [sent trace].
          rewrite (answered _ H1). reflexivity. }
      rewrite <- !app_assoc. cbn [app].
      replace (sent w2 + 2)%nat with (S (S (sent w2))) by lia.
      reflexivity.
Qed.

(** X14.  When no planet is listed there is nothing to choose from: the cycle
    stops right after the listing with [IndexError], which the handler of
    [run] takes like any other error. *)
Theorem no_listed_planet (w w1 w2 : world) (player_info : PlayerInfo.t) :
  _get_player_info self oracle w = (Ok player_info, w1) ->
  _get_planet_summaries self oracle 1
    (World (sent w1) (trace w1 ++ [Log INFO (Object player_info)]))
  = (Ok [], w2) ->
  cycle self oracle w = (Raise IndexError, w2)
  /\ iteration self oracle w = recover self oracle IndexError w2.
Proof.
  intros Hpi Hsum.
  assert (H : cycle self oracle w = (Raise IndexError, w2)).
  { unfold cycle.
    erewrite LoopFacts.bind_run by exact Hpi.
    erewrite LoopFacts.bind_run by reflexivity.
    erewrite LoopFacts.bind_raise; [reflexivity|].
    unfold _find_best_zone_position, get_zones.
    erewrite LoopFacts.bind_run.
    2:{ erewrite LoopFacts.bind_run by exact Hsum. reflexivity. }
    reflexivity. }
  split; [exact H|].
  unfold iteration, except_Exception. rewrite H. reflexivity.
Qed.

(** X15.  A player who already is on the chosen planet is moved all the same
    when the identifier of the planet is not one of the small integers
    that CPython shares: the two [int] objects then differ, [is not]
    holds, and the bot leaves the planet and joins it again. *)
Theorem distant_planet_is_rejoined (w w1 w2 : world)
    (player_info : PlayerInfo.t) (planet_zone : PlanetZoneTuple.t) :
  _get_player_info self oracle w = (Ok player_info, w1) ->
  _find_best_zone_position self oracle
    (World (sent w1) (trace w1 ++ [Log INFO (Object player_info)]))
  = (Ok planet_zone, w2) ->
  let target := PlanetZoneTuple.planet_details planet_zone in
  PlayerInfo.active_planet player_info = PlanetDetails.id target ->
  ~ -5 <= PlanetDetails.id target <= 256 ->
  oracle (sent w2) <> ConnectionFailed ->
  oracle (S (sent w2)) <> ConnectionFailed ->
  cycle self oracle w
  = after_relocation self oracle player_info planet_zone
      (World (S (S (sent w2)))
         (trace w2
          ++ [Spec.info "Leaving Planet...";
              Spec.leave_request self (PlanetDetails.id target);
              Log INFO (Message (Lit "Joining Planet... "
                                 :: PlanetDetails.str target));
              join_planet_request self (PlanetDetails.id target)])).
Proof.
  intros Hpi Hbest target Heq Hfar H0 H1. unfold cycle.
  erewrite LoopFacts.bind_run by exact Hpi.
  erewrite LoopFacts.bind_run by reflexivity.
  erewrite LoopFacts.bind_run by exact Hbest.
  fold target. rewrite Heq.
  assert (E1 : int_is (PlanetDetails.id target) (PlanetDetails.id target)
               = false).
  { unfold int_is. rewrite Z.eqb_refl. cbn [andb].
    destruct (Z.leb_spec (-5) (PlanetDetails.id target));
      destruct (Z.leb_spec (PlanetDetails.id target) 256);
      try reflexivity. lia. }
  assert (E2 : int_is (PlanetDetails.id target) (-1) = false).
  { unfold int_is.
    destruct (Z.eqb_spec (PlanetDetails.id target) (-1)) as [E|E];
      [|reflexivity]. lia. }
  rewrite E1, E2. cbn [negb].
  erewrite LoopFacts.bind_run.
  2:{ erewrite LoopFacts.bind_run.
      2:{ erewrite LoopFacts.bind_run by reflexivity.
          rewrite LoopFacts.leave_planet_run. cbn [sent trace].
          rewrite (answered _ H0). reflexivity. }
      erewrite LoopFacts.bind_run by reflexivity.
      rewrite join_planet_run. cbn [sent trace].
      rewrite (answered _ H1). reflexivity. }
  rewrite <- !app_assoc. reflexivity.
Qed.

End Bot.

End CycleFacts.

(** ** The payloads *)

Module PayloadFacts.
Import Behaviour WeightFacts.

(** X16.  When the payload holds [active_planet], the field is coerced
    with [int]: the decoded record carries the coerced value, and a value
    that cannot be coerced makes the decoding fail with the error of the
    coercion, before any other field is read; the sentinel -1 stands only
    for an absent field. *)
Theorem active_planet_is_coerced (d : list (string * pyval)) (v : pyval) :
  assoc "active_planet" d = Some v ->
  (forall e, py_int v = Raise e -> PlayerInfo.from_json (PyDict d) = Raise e)
  /\ (forall p, PlayerInfo.from_json (PyDict d) = Ok p ->
                py_int v = Ok (PlayerInfo.active_planet p)).
Proof.
  intros Hv. unfold PlayerInfo.from_json.
  cbn [contains_str getitem_str]. rewrite Hv. cbn [rbind]. split.
  - intros e ->. reflexivity.
  - intros p H. destruct (py_int v) as [a|]; [|discriminate H].
    cbn [rbind] in H. unfold rbind in H.
    TierFacts.cases_of H; try discriminate H.
    injection H as <-. reflexivity.
Qed.

(** X17.  On a payload that is not a JSON object each of the four
    decoders raises [TypeError]. *)
Theorem non_object_payloads (json : pyval) :
  (forall d, json <> PyDict d) ->
  PlayerInfo.from_json json = Raise TypeError
  /\ PlanetSummary.from_json json = Raise TypeError
  /\ Zone.from_json json = Raise TypeError
  /\ PlanetDetails.from_json json = Raise TypeError.
Proof.
  intros H. destruct json as [|b|z|f|s|l|d];
    try (exfalso; apply (H d); reflexivity);
    repeat split; try reflexivity.
  - unfold PlayerInfo.from_json. cbn [contains_str rbind getitem_str].
    destruct (is_substring "active_planet" s); reflexivity.
  - unfold PlayerInfo.from_json. cbn [contains_str rbind getitem_str].
    destruct (existsb _ l); reflexivity.
Qed.

(** X18.  [completion] fails in two ways only: with [ZeroDivisionError],
    and then [next_level_score] is 0, or with [OverflowError], when the
    quotient of the two integers is beyond the range of [float]. *)
Theorem completion_errors (p : PlayerInfo.t) (e : exn) :
  PlayerInfo.completion p = Raise e ->
  (e = ZeroDivisionError /\ PlayerInfo.next_level_score p = 0)
  \/ (e = OverflowError /\ PlayerInfo.next_level_score p <> 0).
Proof.
  unfold PlayerInfo.completion, int_truediv.
  destruct (Z.eqb_spec (PlayerInfo.next_level_score p) 0) as [E|E];
    cbn [rbind].
  - intros H. injection H as <-. left. split; [reflexivity|exact E].
  - cbv zeta. destruct (PrimFloat.is_infinity _); cbn [rbind]; intros H.
    + injection H as <-. right. split; [reflexivity|exact E].
    + discriminate H.
Qed.

(** X19.  On a JSON object [Zone.from_json] succeeds exactly when the five
    keys are present, and stores the five values as they are, without a
    check or a coercion; when a key is absent it raises [KeyError]. *)
Theorem zone_decoding (d : list (string * pyval)) :
  match Zone.from_json (PyDict d) with
  | Ok z =>
      assoc "zone_position" d = Some (Zone.zone_position z)
      /\ assoc "type" d = Some (Zone.type z)
      /\ assoc "difficulty" d = Some (Zone.difficulty z)
      /\ assoc "captured" d = Some (Zone.captured z)
      /\ assoc "capture_progress" d = Some (Zone.capture_progress z)
  | Raise e =>
      e = KeyError
      /\ exists k,
          In k ["zone_position"; "type"; "difficulty"; "captured";
                "capture_progress"]
          /\ assoc k d = None
  end.
Proof.
  unfold Zone.from_json. cbn [getitem_str].
  destruct (assoc "zone_position" d) eqn:E1; cbn [rbind];
    [|split; [reflexivity|eexists; split; [|exact E1]; cbn; tauto]].
  destruct (assoc "type" d) eqn:E2; cbn [rbind];
    [|split; [reflexivity|eexists; split; [|exact E2]; cbn; tauto]].
  destruct (assoc "difficulty" d) eqn:E3; cbn [rbind];
    [|split; [reflexivity|eexists; split; [|exact E3]; cbn; tauto]].
  destruct (assoc "captured" d) eqn:E4; cbn [rbind];
    [|split; [reflexivity|eexists; split; [|exact E4]; cbn; tauto]].
  destruct (assoc "capture_progress" d) eqn:E5; cbn [rbind];
    [|split; [reflexivity|eexists; split; [|exact E5]; cbn; tauto]].
  repeat split.
Qed.

Lemma rmap_Forall2 {A B} (f : A -> result B) (l : list A) (r : list B) :
  rmap f l = Ok r -> Forall2 (fun a b => f a = Ok b) l r.
Proof.
  revert r. induction l as [|a l IH]; intros r; cbn [rmap].
  - intros H. injection H as <-. constructor.
  - destruct (f a) as [b|] eqn:E; cbn [rbind]; [|discriminate].
    destruct (rmap f l) as [bs|]; cbn [rbind]; [|discriminate].
    intros H. injection H as <-. constructor; [exact E|apply IH; reflexivity].
Qed.

(** X20.  A decoded planet has one zone per element of the payload's
    [zones], in the same order, each the decoding of its element, and
    its id is [int] of the payload's [id]. *)
Theorem planet_details_decoding (json : pyval) (pd : PlanetDetails.t) :
  PlanetDetails.from_json json = Ok pd ->
  exists zones_json items,
    getitem_str json "zones" = Ok zones_json
    /\ iterate zones_json = Ok items
    /\ Forall2 (fun j z => Zone.from_json j = Ok z) items
         (PlanetDetails.zones pd)
    /\ Spec.int_field json "id" = Ok (PlanetDetails.id pd).
Proof.
  unfold PlanetDetails.from_json, Spec.int_field.
  destruct (getitem_str json "zones") as [zj|]; cbn [rbind]; [|discriminate].
  destruct (iterate zj) as [items|] eqn:E0; cbn [rbind]; [|discriminate].
  destruct (rmap Zone.from_json items) as [zs|] eqn:E; cbn [rbind];
    [|discriminate].
  destruct (rbind (getitem_str json "id") _) as [i|]; cbn [rbind];
    [|discriminate].
  destruct (getitem_str json "state") as [st|]; cbn [rbind]; [|discriminate].
  destruct (getitem_str st "name") as [nm|]; cbn [rbind]; [|discriminate].
  intros H. injection H as <-. exists zj, items.
  cbn [PlanetDetails.zones PlanetDetails.id].
  split; [reflexivity|]. split; [exact E0|].
  split; [exact (rmap_Forall2 _ _ _ E)|reflexivity].
Qed.

(** X21.  [PlanetZoneTuple.__str__], which [run] evaluates for the log
    before it joins the zone, is defined for every pairing whose zone has
    a difficulty among 1, 2, 3, 4, a boolean captured flag and a float
    progress (a NaN included): formatting never aborts the cycle there. *)
Theorem pairing_text_defined (pd : PlanetDetails.t) (pos ty : pyval)
    (d : Z) (c : bool) (p : float) :
  1 <= d <= 4 ->
  exists s,
    PlanetZoneTuple.str
      (PlanetZoneTuple.Build pd (Spec.typed_zone pos ty d c p)) = Ok s.
Proof.
  intros Hd. unfold PlanetZoneTuple.str. rewrite weight_typed.
  assert (Hz : exists z,
             Zone.str (Spec.typed_zone pos ty d c p) = Ok z).
  { unfold Zone.str, Zone.get_difficulty_string, Zone.get_captured_string,
      Zone.get_capture_progress_string, Spec.typed_zone.
    cbn [Zone.difficulty Zone.captured Zone.capture_progress
         Zone.zone_position].
    rewrite int_keyed_get_int. cbn [rbind].
    unfold int_keyed_get. cbn [hashable as_num rbind truthy py_mul_float
      num_to_float].
    destruct c; eexists; reflexivity. }
  destruct Hz as [z Hz]. cbn [PlanetZoneTuple.zone].
  destruct c; [rewrite Hz; eexists; reflexivity|].
  destruct ((d =? 3) && (float_0_95 <=? p)%float);
    [rewrite Hz; eexists; reflexivity|].
  destruct ((d =? 2) && (float_0_96 <=? p)%float);
    [rewrite Hz; eexists; reflexivity|].
  destruct (difficulty_cases d Hd) as [->|[->|[->| ->]]];
    cbn [find fst snd option_map PlanetZoneTuple.multipliers Z.eqb Pos.eqb];
    rewrite ?float_of_Z_16, ?float_of_Z_32, ?float_of_Z_64, ?float_of_Z_800;
    cbn [rbind]; rewrite Hz; eexists; reflexivity.
Qed.

End PayloadFacts.

(** ** Further concrete runs *)

Module FurtherRuns.
Import Env Examples Behaviour.


Lemma get_zones_collects_witness :
  exists summaries w1 details,
    Salians._get_planet_summaries self (scripted mars_listing) 1 start
    = (Ok summaries, w1)
    /\ fetched self (scripted mars_listing) summaries w1 details
         (snd (Salians.get_zones self (scripted mars_listing) start))
    /\ pairings [mars_details] = pairings details
    /\ snd (Salians.get_zones self (scripted mars_listing) start)
       = World (sent start + 1 + List.length summaries)
           (trace start
            ++ planet_summaries_request self 1
               :: map (fun s => planet_details_request self
                                  (PlanetSummary.id s)) summaries).
Proof.
  apply (proj1 (SelectionFacts.get_zones_collects self
                  (scripted mars_listing) start
                  (snd (Salians.get_zones self (scripted mars_listing)
                          start))
                  (pairings [mars_details]))).
  vm_compute. reflexivity.
Defined.

Lemma best_zone_is_on_its_planet_witness :
  In (PlanetZoneTuple.zone
        (PlanetZoneTuple.Build mars_details
           (Spec.typed_zone (PyInt 7) (PyInt 3) 4 false 0.125)))
     (PlanetDetails.zones mars_details).
Proof.
  eapply (SelectionFacts.best_zone_is_on_its_planet self
            (scripted mars_listing) start _
            (PlanetZoneTuple.Build mars_details
               (Spec.typed_zone (PyInt 7) (PyInt 3) 4 false 0.125))).
  vm_compute. reflexivity.
Defined.

Ltac valid_example :=
  do 5 eexists; split; [reflexivity|split; [lia|split; reflexivity]].

Lemma selector_prefers_highest_tier_witness :
  exists best,
    Selector.select_best tied = Ok best
    /\ In best tied
    /\ playable best
    /\ (forall t, In t tied -> playable t -> tier t <= tier best).
Proof.
  apply (TierFacts.selector_prefers_highest_tier tied).
  - repeat (apply Forall_cons; [valid_example|]). apply Forall_nil.
  - exists (pairing 4 false 0.5 1). split; [left; reflexivity|].
    eexists. split; reflexivity.
Defined.

Lemma captured_weighs_nothing_witness :
  truthy (Zone.captured (PlanetZoneTuple.zone (pairing 7 true 0.5 1))) = true
  /\ PlanetZoneTuple.weight (pairing 7 true 0.5 1) = Ok (NInt 0).
Proof.
  split; [reflexivity|].
  exact (TierFacts.captured_weighs_nothing (pairing 7 true 0.5 1) eq_refl).
Defined.

Lemma weight_errors_witness :
  PlanetZoneTuple.weight (pairing 5 false 0.5 1) = Raise TypeError
  /\ (TypeError = TypeError \/ TypeError = OverflowError).
Proof.
  split; [reflexivity|].
  exact (TierFacts.weight_errors (pairing 5 false 0.5 1) TypeError eq_refl).
Defined.

Lemma weighted_zone_has_score_witness :
  PlanetZoneTuple.weight boss_pairing = Ok (NFloat 800.875)
  /\ exists score,
      Zone.get_difficulty_score (PlanetZoneTuple.zone boss_pairing)
      = Ok (Some score).
Proof.
  split; [reflexivity|].
  exact (TierFacts.weighted_zone_has_score boss_pairing 800.875 eq_refl).
Defined.

Lemma relocation_steps_witness :
  exists player_info planet_zone w2,
    Salians.cycle self (scripted relocating_cycle) start
    = after_relocation self (scripted relocating_cycle) player_info
        planet_zone
        (World
           (sent w2
            + List.length
                (requests
                   (relocation_events self
                      (PlayerInfo.active_planet player_info)
                      (PlanetZoneTuple.planet_details planet_zone))))
           (trace w2
            ++ relocation_events self (PlayerInfo.active_planet player_info)
                 (PlanetZoneTuple.planet_details planet_zone))).
Proof.
  do 3 eexists.
  eapply (CycleFacts.relocation_steps self (scripted relocating_cycle) start).
  - vm_compute. reflexivity.
  - vm_compute. reflexivity.
  - intros i Hi. vm_compute in Hi.
    destruct i as [|[|i]]; [discriminate|discriminate|lia].
Defined.

Lemma no_listed_planet_witness :
  exists w2,
    Salians.cycle self (scripted empty_listing) start = (Raise IndexError, w2)
    /\ Salians.iteration self (scripted empty_listing) start
       = Salians.recover self (scripted empty_listing) IndexError w2.
Proof.
  eexists.
  eapply (CycleFacts.no_listed_planet self (scripted empty_listing) start).
  - vm_compute. reflexivity.
  - vm_compute. reflexivity.
Defined.

Lemma distant_planet_is_rejoined_witness :
  exists player_info planet_zone w2,
    PlayerInfo.active_planet player_info = 300
    /\ PlanetDetails.id (PlanetZoneTuple.planet_details planet_zone) = 300
    /\ Salians.cycle self (scripted distant_cycle) start
       = after_relocation self (scripted distant_cycle) player_info
           planet_zone
           (World (S (S (sent w2)))
              (trace w2
               ++ [Spec.info "Leaving Planet..."; Spec.leave_request self 300;
                   Log INFO
                     (Message
                        (Lit "Joining Planet... "
                         :: PlanetDetails.str
                              (PlanetZoneTuple.planet_details planet_zone)));
                   join_planet_request self 300])).
Proof.
  exists (PlayerInfo.Build 300 5 4500 6000).
  exists (PlanetZoneTuple.Build
            (PlanetDetails.Build 300 (PyStr "Vega")
               [Spec.typed_zone (PyInt 7) (PyInt 3) 4 false 0.125])
            (Spec.typed_zone (PyInt 7) (PyInt 3) 4 false 0.125)).
  eexists. split; [reflexivity|]. split; [reflexivity|].
  eapply (CycleFacts.distant_planet_is_rejoined self (scripted distant_cycle)
            start).
  - vm_compute. reflexivity.
  - vm_compute. reflexivity.
  - reflexivity.
  - cbn [PlanetDetails.id PlanetZoneTuple.planet_details]. lia.
  - discriminate.
  - discriminate.
Defined.

Lemma active_planet_is_coerced_witness :
  PlayerInfo.from_json (player_info_json (Some "one")) = Raise ValueError
  /\ py_int (PyStr "1") = Ok 1.
Proof.
  split.
  - exact (proj1 (PayloadFacts.active_planet_is_coerced
                    [("active_planet", PyStr "one"); ("level", PyInt 5);
                     ("score", PyStr "4500");
                     ("next_level_score", PyStr "6000")]
                    (PyStr "one") eq_refl) ValueError eq_refl).
  - exact (proj2 (PayloadFacts.active_planet_is_coerced
                    [("active_planet", PyStr "1"); ("level", PyInt 5);
                     ("score", PyStr "4500");
                     ("next_level_score", PyStr "6000")]
                    (PyStr "1") eq_refl)
             (PlayerInfo.Build 1 5 4500 6000) eq_refl).
Defined.

Lemma non_object_payloads_witness :
  PlayerInfo.from_json (PyList [PyStr "active_planet"]) = Raise TypeError
  /\ PlanetSummary.from_json (PyList [PyStr "active_planet"])
     = Raise TypeError
  /\ Zone.from_json (PyList [PyStr "active_planet"]) = Raise TypeError
  /\ PlanetDetails.from_json (PyList [PyStr "active_planet"])
     = Raise TypeError.
Proof.
  apply (PayloadFacts.non_object_payloads (PyList [PyStr "active_planet"])).
  intros d. discriminate.
Defined.

Lemma completion_errors_witness :
  PlayerInfo.completion (PlayerInfo.Build 1 5 4500 0)
  = Raise ZeroDivisionError
  /\ ((ZeroDivisionError = ZeroDivisionError
       /\ PlayerInfo.next_level_score (PlayerInfo.Build 1 5 4500 0) = 0)
      \/ (ZeroDivisionError = OverflowError
          /\ PlayerInfo.next_level_score (PlayerInfo.Build 1 5 4500 0) <> 0)).
Proof.
  split; [reflexivity|].
  exact (PayloadFacts.completion_errors (PlayerInfo.Build 1 5 4500 0)
           ZeroDivisionError eq_refl).
Defined.

Lemma planet_details_decoding_witness :
  exists zones_json items,
    getitem_str mars "zones" = Ok zones_json
    /\ iterate zones_json = Ok items
    /\ Forall2 (fun j z => Zone.from_json j = Ok z) items
         (PlanetDetails.zones mars_details)
    /\ Spec.int_field mars "id" = Ok (PlanetDetails.id mars_details).
Proof.
  apply (PayloadFacts.planet_details_decoding mars mars_details).
  reflexivity.
Defined.

Lemma pairing_text_defined_witness :
  exists s, PlanetZoneTuple.str boss_pairing = Ok s.
Proof.
  apply (PayloadFacts.pairing_text_defined earth (PyInt 7) (PyInt 3) 4 false
           0.125).
  lia.
Defined.

End FurtherRuns.
